(** * Sigil Find & Replace: a shallow embedding of [src/MainUI/FindReplace.cpp]

    The development follows the layering of the C++ file:

    - [QStr]          the [QString] operations the panel uses;
    - [Regex]         [PrependRegexOptionToSearch] and the two Qt calls of
                      the regex composer;
    - [Controls]      the enums, the combo boxes and the panel's members;
    - [Settings]      the panel's pure queries: [GetControls],
                      [UpdateSearchControls], [GetSearchRegex], the scope
                      tests, [IsNewSearch];
    - [Resources]     resources and the host interface (main window,
                      current tab, searchable widget, search operations);
    - [Scope]         [GetFilesToSearch] and [GetNextResource];
    - [Panel]         the error/state monad: the panel's members, the
                      host's state and the trace of calls made to the host;
    - [Cursor]        [GetNextContainingResource];
    - [Orchestrator]  [Find], [Count], [Replace], [ReplaceAll] and what they
                      call;
    - [Demo]          a small concrete book to run the operations on;
    - the theorems. *)

From Stdlib Require Import Ascii String.
From stdpp Require Import base tactics list numbers option strings pretty.

(** ** QString

    A [QString] is a sequence of UTF-16 code units ([QChar]). *)

Module QStr.

Definition QChar := N.
Definition QString := list QChar.

(** A literal of the C++ source. *)
Definition lit (s : string) : QString :=
  N_of_ascii <$> list_ascii_of_string s.

(** [QString::startsWith]. *)
Fixpoint startsWith (s p : QString) {struct p} : bool :=
  match p, s with
  | [], _ => true
  | _ :: _, [] => false
  | c :: p', d :: s' => bool_decide (c = d) && startsWith s' p'
  end.

(** [QString::contains(const QString &)], case sensitive. *)
Fixpoint contains (s sub : QString) : bool :=
  startsWith s sub ||
  match s with
  | [] => false
  | _ :: s' => contains s' sub
  end.

(** [QString::mid(position)] for a position inside the string. *)
Definition mid (s : QString) (position : nat) : QString := drop position s.

(** [QString::isEmpty]. *)
Definition isEmpty (s : QString) : bool :=
  match s with [] => true | _ => false end.

(** [QStringList::join(QChar)]. *)
Fixpoint join (l : list QString) (sep : QChar) : QString :=
  match l with
  | [] => []
  | [s] => s
  | s :: l' => s ++ sep :: join l' sep
  end.

End QStr.

Import QStr.

(** ** Regex composer *)

Module Regex.

Definition REGEX_OPTION_UCP : QString := lit "(*UCP)".
Definition REGEX_OPTION_IGNORE_CASE : QString := lit "(?i)".
Definition REGEX_OPTION_DOT_ALL : QString := lit "(?s)".
Definition REGEX_OPTION_MINIMAL_MATCH : QString := lit "(?U)".

(** [FindReplace::PrependRegexOptionToSearch]. *)
Definition PrependRegexOptionToSearch (option search : QString) : QString :=
  if startsWith search REGEX_OPTION_UCP then
    (* Special case scenario - this directive must *always* be before any others *)
    REGEX_OPTION_UCP ++ option ++ mid search (length REGEX_OPTION_UCP)
  else
    option ++ search.

(** *** The two Qt calls of [GetSearchRegex]

    [text.replace(QRegularExpression("\\R"), "\n")]: PCRE's [\R] matches one
    Unicode newline sequence, that is CR LF as a unit, or one of LF, VT, FF,
    CR, NEL (U+0085), LS (U+2028), PS (U+2029); every match, left to right,
    is replaced by LF. *)

Definition LF : QChar := 10%N.
Definition CR : QChar := 13%N.

Definition is_newline_unit (c : QChar) : bool :=
  bool_decide (c = 10 ∨ c = 11 ∨ c = 12 ∨ c = 13 ∨
               c = 133 ∨ c = 8232 ∨ c = 8233)%N.

Fixpoint replace_R (text : QString) : QString :=
  match text with
  | [] => []
  | c :: rest =>
      if bool_decide (c = CR) then
        match rest with
        | d :: rest' =>
            if bool_decide (d = LF) then LF :: replace_R rest'
            else LF :: replace_R rest
        | [] => [LF]
        end
      else if is_newline_unit c then LF :: replace_R rest
      else c :: replace_R rest
  end.

(** [QRegularExpression::escape]: everything but [a-zA-Z0-9_] gets a
    backslash; NUL becomes backslash-zero; a high surrogate keeps its low
    surrogate behind it. *)

Definition backslash : QChar := 92%N.

Definition is_word_unit (c : QChar) : bool :=
  bool_decide ((97 ≤ c ∧ c ≤ 122) ∨ (65 ≤ c ∧ c ≤ 90) ∨
               (48 ≤ c ∧ c ≤ 57) ∨ c = 95)%N.

Definition isHighSurrogate (c : QChar) : bool :=
  bool_decide (55296 ≤ c ∧ c ≤ 56319)%N.

Fixpoint escape (str : QString) : QString :=
  match str with
  | [] => []
  | c :: rest =>
      if bool_decide (c = 0%N) then backslash :: 48%N :: escape rest
      else if is_word_unit c then c :: escape rest
      else if isHighSurrogate c then
        match rest with
        | d :: rest' => backslash :: c :: d :: escape rest'
        | [] => [backslash; c]
        end
      else backslash :: c :: escape rest
  end.

End Regex.

Import Regex.

(** ** Enums, combo boxes and the control string *)

Module Controls.

Open Scope Z_scope.

(** Modelled from the spec: the enum declarations live in
    [MainUI/FindReplace.h], which is not part of the sources at hand.  The
    source indexes [MDS], [DRS] and [TGTS] with the enum values ("Must be
    kept in sync with those enums"), and the spec fixes the token of every
    mode, direction and scope; the enumerators are therefore numbered as
    their tokens are listed. *)
Inductive SearchMode :=
  | SearchMode_Normal
  | SearchMode_Case_Sensitive
  | SearchMode_Regex.

Inductive LookWhere :=
  | LookWhere_CurrentFile
  | LookWhere_AllHTMLFiles
  | LookWhere_SelectedHTMLFiles
  | LookWhere_TabbedHTMLFiles
  | LookWhere_AllCSSFiles
  | LookWhere_SelectedCSSFiles
  | LookWhere_TabbedCSSFiles
  | LookWhere_OPFFile
  | LookWhere_NCXFile.

Inductive SearchDirection :=
  | SearchDirection_Down
  | SearchDirection_Up.

#[global] Instance SearchMode_eq_dec : EqDecision SearchMode.
Proof. solve_decision. Defined.
#[global] Instance LookWhere_eq_dec : EqDecision LookWhere.
Proof. solve_decision. Defined.
#[global] Instance SearchDirection_eq_dec : EqDecision SearchDirection.
Proof. solve_decision. Defined.

Definition SearchMode_int (m : SearchMode) : Z :=
  match m with
  | SearchMode_Normal => 0
  | SearchMode_Case_Sensitive => 1
  | SearchMode_Regex => 2
  end.

Definition LookWhere_int (w : LookWhere) : Z :=
  match w with
  | LookWhere_CurrentFile => 0
  | LookWhere_AllHTMLFiles => 1
  | LookWhere_SelectedHTMLFiles => 2
  | LookWhere_TabbedHTMLFiles => 3
  | LookWhere_AllCSSFiles => 4
  | LookWhere_SelectedCSSFiles => 5
  | LookWhere_TabbedCSSFiles => 6
  | LookWhere_OPFFile => 7
  | LookWhere_NCXFile => 8
  end.

Definition SearchDirection_int (d : SearchDirection) : Z :=
  match d with
  | SearchDirection_Down => 0
  | SearchDirection_Up => 1
  end.

(** mappings from LookWhere, Search, and Direction enums to Controls code *)
Definition TGTS : list QString :=
  lit <$> ["CF"; "AH"; "SH"; "TH"; "AC"; "SC"; "TC"; "OP"; "NX"]%string.
Definition MDS : list QString := lit <$> ["NL"; "CS"; "RX"]%string.
Definition DRS : list QString := lit <$> ["DN"; "UP"]%string.

(** [QStringList::at(i)].  Qt asserts [0 <= i < size()]; outside that range
    the call has no defined result, here the empty string. *)
Definition at_ (l : list QString) (i : Z) : QString :=
  if bool_decide (0 ≤ i < Z.of_nat (length l)) then default [] (l !! Z.to_nat i)
  else [].

(** The item data of the three combo boxes, in the order [ExtendUI] adds
    the items. *)
Definition cbSearchMode_items : list Z :=
  SearchMode_int <$>
    [SearchMode_Normal; SearchMode_Case_Sensitive; SearchMode_Regex].

Definition cbLookWhere_items : list Z :=
  LookWhere_int <$>
    [LookWhere_CurrentFile; LookWhere_AllHTMLFiles;
     LookWhere_SelectedHTMLFiles; LookWhere_TabbedHTMLFiles;
     LookWhere_AllCSSFiles; LookWhere_SelectedCSSFiles;
     LookWhere_TabbedCSSFiles; LookWhere_OPFFile; LookWhere_NCXFile].

Definition cbSearchDirection_items : list Z :=
  SearchDirection_int <$> [SearchDirection_Up; SearchDirection_Down].

(** [QComboBox::itemData(index).toInt()]: an invalid index gives an invalid
    [QVariant], whose [toInt()] is 0. *)
Definition itemData (items : list Z) (index : Z) : Z :=
  if bool_decide (0 ≤ index) then default 0 (items !! Z.to_nat index) else 0.

(** The loop shared by [SetSearchMode], [SetLookWhere] and
    [SetSearchDirection]: index 0, then the first item whose data is the
    requested value. *)
Definition select_item (items : list Z) (value : Z) : Z :=
  match list_find (λ d, d = value) items with
  | Some (i, _) => Z.of_nat i
  | None => 0
  end.

(** The members of the panel the search engine reads and writes. *)
Record FindReplace := {
  cbFind_text : QString;              (* ui.cbFind->lineEdit()->text() *)
  cbFind_history : list QString;      (* items of ui.cbFind *)
  cbReplace_text : QString;           (* ui.cbReplace->lineEdit()->text() *)
  cbReplace_history : list QString;   (* items of ui.cbReplace *)
  cbSearchMode_index : Z;             (* ui.cbSearchMode->currentIndex() *)
  cbLookWhere_index : Z;
  cbSearchDirection_index : Z;
  MarkedTextIndicator_hidden : bool;
  message : QString;                  (* ui.message *)
  m_RegexOptionDotAll : bool;
  m_RegexOptionMinimalMatch : bool;
  m_RegexOptionAutoTokenise : bool;
  m_OptionWrap : bool;
  m_SpellCheck : bool;
  m_LookWhereCurrentFile : bool;
  m_IsSearchGroupRunning : bool;
  m_PreviousSearch : list QString;
}.

Definition GetSearchMode (fr : FindReplace) : SearchMode :=
  let mode := itemData cbSearchMode_items (cbSearchMode_index fr) in
  if bool_decide (mode = SearchMode_int SearchMode_Regex) then SearchMode_Regex
  else if bool_decide (mode = SearchMode_int SearchMode_Case_Sensitive)
       then SearchMode_Case_Sensitive
  else SearchMode_Normal.

Definition GetLookWhere (fr : FindReplace) : LookWhere :=
  let look := itemData cbLookWhere_items (cbLookWhere_index fr) in
  default LookWhere_CurrentFile
    (snd <$> list_find (λ w, LookWhere_int w = look)
       [LookWhere_AllHTMLFiles; LookWhere_SelectedHTMLFiles;
        LookWhere_TabbedHTMLFiles; LookWhere_AllCSSFiles;
        LookWhere_SelectedCSSFiles; LookWhere_TabbedCSSFiles;
        LookWhere_OPFFile; LookWhere_NCXFile]).

Definition GetSearchDirection (fr : FindReplace) : SearchDirection :=
  let direction :=
    itemData cbSearchDirection_items (cbSearchDirection_index fr) in
  if bool_decide (direction = SearchDirection_int SearchDirection_Up)
  then SearchDirection_Up
  else SearchDirection_Down.

End Controls.

Import Controls.

(** Assignments to single members. *)

Module Controls_set.

Definition set_cbFind_text (v : QString) (fr : FindReplace) : FindReplace :=
  {| cbFind_text := v; cbFind_history := cbFind_history fr;
     cbReplace_text := cbReplace_text fr;
     cbReplace_history := cbReplace_history fr;
     cbSearchMode_index := cbSearchMode_index fr;
     cbLookWhere_index := cbLookWhere_index fr;
     cbSearchDirection_index := cbSearchDirection_index fr;
     MarkedTextIndicator_hidden := MarkedTextIndicator_hidden fr;
     message := message fr; m_RegexOptionDotAll := m_RegexOptionDotAll fr;
     m_RegexOptionMinimalMatch := m_RegexOptionMinimalMatch fr;
     m_RegexOptionAutoTokenise := m_RegexOptionAutoTokenise fr;
     m_OptionWrap := m_OptionWrap fr; m_SpellCheck := m_SpellCheck fr;
     m_LookWhereCurrentFile := m_LookWhereCurrentFile fr;
     m_IsSearchGroupRunning := m_IsSearchGroupRunning fr;
     m_PreviousSearch := m_PreviousSearch fr |}.

Definition set_cbFind_history (v : list QString) (fr : FindReplace) : FindReplace :=
  {| cbFind_text := cbFind_text fr; cbFind_history := v;
     cbReplace_text := cbReplace_text fr;
     cbReplace_history := cbReplace_history fr;
     cbSearchMode_index := cbSearchMode_index fr;
     cbLookWhere_index := cbLookWhere_index fr;
     cbSearchDirection_index := cbSearchDirection_index fr;
     MarkedTextIndicator_hidden := MarkedTextIndicator_hidden fr;
     message := message fr; m_RegexOptionDotAll := m_RegexOptionDotAll fr;
     m_RegexOptionMinimalMatch := m_RegexOptionMinimalMatch fr;
     m_RegexOptionAutoTokenise := m_RegexOptionAutoTokenise fr;
     m_OptionWrap := m_OptionWrap fr; m_SpellCheck := m_SpellCheck fr;
     m_LookWhereCurrentFile := m_LookWhereCurrentFile fr;
     m_IsSearchGroupRunning := m_IsSearchGroupRunning fr;
     m_PreviousSearch := m_PreviousSearch fr |}.

Definition set_cbReplace_text (v : QString) (fr : FindReplace) : FindReplace :=
  {| cbFind_text := cbFind_text fr; cbFind_history := cbFind_history fr;
     cbReplace_text := v; cbReplace_history := cbReplace_history fr;
     cbSearchMode_index := cbSearchMode_index fr;
     cbLookWhere_index := cbLookWhere_index fr;
     cbSearchDirection_index := cbSearchDirection_index fr;
     MarkedTextIndicator_hidden := MarkedTextIndicator_hidden fr;
     message := message fr; m_RegexOptionDotAll := m_RegexOptionDotAll fr;
     m_RegexOptionMinimalMatch := m_RegexOptionMinimalMatch fr;
     m_RegexOptionAutoTokenise := m_RegexOptionAutoTokenise fr;
     m_OptionWrap := m_OptionWrap fr; m_SpellCheck := m_SpellCheck fr;
     m_LookWhereCurrentFile := m_LookWhereCurrentFile fr;
     m_IsSearchGroupRunning := m_IsSearchGroupRunning fr;
     m_PreviousSearch := m_PreviousSearch fr |}.

Definition set_cbReplace_history (v : list QString) (fr : FindReplace) : FindReplace :=
  {| cbFind_text := cbFind_text fr; cbFind_history := cbFind_history fr;
     cbReplace_text := cbReplace_text fr; cbReplace_history := v;
     cbSearchMode_index := cbSearchMode_index fr;
     cbLookWhere_index := cbLookWhere_index fr;
     cbSearchDirection_index := cbSearchDirection_index fr;
     MarkedTextIndicator_hidden := MarkedTextIndicator_hidden fr;
     message := message fr; m_RegexOptionDotAll := m_RegexOptionDotAll fr;
     m_RegexOptionMinimalMatch := m_RegexOptionMinimalMatch fr;
     m_RegexOptionAutoTokenise := m_RegexOptionAutoTokenise fr;
     m_OptionWrap := m_OptionWrap fr; m_SpellCheck := m_SpellCheck fr;
     m_LookWhereCurrentFile := m_LookWhereCurrentFile fr;
     m_IsSearchGroupRunning := m_IsSearchGroupRunning fr;
     m_PreviousSearch := m_PreviousSearch fr |}.

Definition set_cbSearchMode_index (v : Z) (fr : FindReplace) : FindReplace :=
  {| cbFind_text := cbFind_text fr; cbFind_history := cbFind_history fr;
     cbReplace_text := cbReplace_text fr;
     cbReplace_history := cbReplace_history fr; cbSearchMode_index := v;
     cbLookWhere_index := cbLookWhere_index fr;
     cbSearchDirection_index := cbSearchDirection_index fr;
     MarkedTextIndicator_hidden := MarkedTextIndicator_hidden fr;
     message := message fr; m_RegexOptionDotAll := m_RegexOptionDotAll fr;
     m_RegexOptionMinimalMatch := m_RegexOptionMinimalMatch fr;
     m_RegexOptionAutoTokenise := m_RegexOptionAutoTokenise fr;
     m_OptionWrap := m_OptionWrap fr; m_SpellCheck := m_SpellCheck fr;
     m_LookWhereCurrentFile := m_LookWhereCurrentFile fr;
     m_IsSearchGroupRunning := m_IsSearchGroupRunning fr;
     m_PreviousSearch := m_PreviousSearch fr |}.

Definition set_cbLookWhere_index (v : Z) (fr : FindReplace) : FindReplace :=
  {| cbFind_text := cbFind_text fr; cbFind_history := cbFind_history fr;
     cbReplace_text := cbReplace_text fr;
     cbReplace_history := cbReplace_history fr;
     cbSearchMode_index := cbSearchMode_index fr; cbLookWhere_index := v;
     cbSearchDirection_index := cbSearchDirection_index fr;
     MarkedTextIndicator_hidden := MarkedTextIndicator_hidden fr;
     message := message fr; m_RegexOptionDotAll := m_RegexOptionDotAll fr;
     m_RegexOptionMinimalMatch := m_RegexOptionMinimalMatch fr;
     m_RegexOptionAutoTokenise := m_RegexOptionAutoTokenise fr;
     m_OptionWrap := m_OptionWrap fr; m_SpellCheck := m_SpellCheck fr;
     m_LookWhereCurrentFile := m_LookWhereCurrentFile fr;
     m_IsSearchGroupRunning := m_IsSearchGroupRunning fr;
     m_PreviousSearch := m_PreviousSearch fr |}.

Definition set_cbSearchDirection_index (v : Z) (fr : FindReplace) : FindReplace :=
  {| cbFind_text := cbFind_text fr; cbFind_history := cbFind_history fr;
     cbReplace_text := cbReplace_text fr;
     cbReplace_history := cbReplace_history fr;
     cbSearchMode_index := cbSearchMode_index fr;
     cbLookWhere_index := cbLookWhere_index fr; cbSearchDirection_index := v;
     MarkedTextIndicator_hidden := MarkedTextIndicator_hidden fr;
     message := message fr; m_RegexOptionDotAll := m_RegexOptionDotAll fr;
     m_RegexOptionMinimalMatch := m_RegexOptionMinimalMatch fr;
     m_RegexOptionAutoTokenise := m_RegexOptionAutoTokenise fr;
     m_OptionWrap := m_OptionWrap fr; m_SpellCheck := m_SpellCheck fr;
     m_LookWhereCurrentFile := m_LookWhereCurrentFile fr;
     m_IsSearchGroupRunning := m_IsSearchGroupRunning fr;
     m_PreviousSearch := m_PreviousSearch fr |}.

Definition set_MarkedTextIndicator_hidden (v : bool) (fr : FindReplace) : FindReplace :=
  {| cbFind_text := cbFind_text fr; cbFind_history := cbFind_history fr;
     cbReplace_text := cbReplace_text fr;
     cbReplace_history := cbReplace_history fr;
     cbSearchMode_index := cbSearchMode_index fr;
     cbLookWhere_index := cbLookWhere_index fr;
     cbSearchDirection_index := cbSearchDirection_index fr;
     MarkedTextIndicator_hidden := v; message := message fr;
     m_RegexOptionDotAll := m_RegexOptionDotAll fr;
     m_RegexOptionMinimalMatch := m_RegexOptionMinimalMatch fr;
     m_RegexOptionAutoTokenise := m_RegexOptionAutoTokenise fr;
     m_OptionWrap := m_OptionWrap fr; m_SpellCheck := m_SpellCheck fr;
     m_LookWhereCurrentFile := m_LookWhereCurrentFile fr;
     m_IsSearchGroupRunning := m_IsSearchGroupRunning fr;
     m_PreviousSearch := m_PreviousSearch fr |}.

Definition set_message (v : QString) (fr : FindReplace) : FindReplace :=
  {| cbFind_text := cbFind_text fr; cbFind_history := cbFind_history fr;
     cbReplace_text := cbReplace_text fr;
     cbReplace_history := cbReplace_history fr;
     cbSearchMode_index := cbSearchMode_index fr;
     cbLookWhere_index := cbLookWhere_index fr;
     cbSearchDirection_index := cbSearchDirection_index fr;
     MarkedTextIndicator_hidden := MarkedTextIndicator_hidden fr;
     message := v; m_RegexOptionDotAll := m_RegexOptionDotAll fr;
     m_RegexOptionMinimalMatch := m_RegexOptionMinimalMatch fr;
     m_RegexOptionAutoTokenise := m_RegexOptionAutoTokenise fr;
     m_OptionWrap := m_OptionWrap fr; m_SpellCheck := m_SpellCheck fr;
     m_LookWhereCurrentFile := m_LookWhereCurrentFile fr;
     m_IsSearchGroupRunning := m_IsSearchGroupRunning fr;
     m_PreviousSearch := m_PreviousSearch fr |}.

Definition set_m_RegexOptionDotAll (v : bool) (fr : FindReplace) : FindReplace :=
  {| cbFind_text := cbFind_text fr; cbFind_history := cbFind_history fr;
     cbReplace_text := cbReplace_text fr;
     cbReplace_history := cbReplace_history fr;
     cbSearchMode_index := cbSearchMode_index fr;
     cbLookWhere_index := cbLookWhere_index fr;
     cbSearchDirection_index := cbSearchDirection_index fr;
     MarkedTextIndicator_hidden := MarkedTextIndicator_hidden fr;
     message := message fr; m_RegexOptionDotAll := v;
     m_RegexOptionMinimalMatch := m_RegexOptionMinimalMatch fr;
     m_RegexOptionAutoTokenise := m_RegexOptionAutoTokenise fr;
     m_OptionWrap := m_OptionWrap fr; m_SpellCheck := m_SpellCheck fr;
     m_LookWhereCurrentFile := m_LookWhereCurrentFile fr;
     m_IsSearchGroupRunning := m_IsSearchGroupRunning fr;
     m_PreviousSearch := m_PreviousSearch fr |}.

Definition set_m_RegexOptionMinimalMatch (v : bool) (fr : FindReplace) : FindReplace :=
  {| cbFind_text := cbFind_text fr; cbFind_history := cbFind_history fr;
     cbReplace_text := cbReplace_text fr;
     cbReplace_history := cbReplace_history fr;
     cbSearchMode_index := cbSearchMode_index fr;
     cbLookWhere_index := cbLookWhere_index fr;
     cbSearchDirection_index := cbSearchDirection_index fr;
     MarkedTextIndicator_hidden := MarkedTextIndicator_hidden fr;
     message := message fr; m_RegexOptionDotAll := m_RegexOptionDotAll fr;
     m_RegexOptionMinimalMatch := v;
     m_RegexOptionAutoTokenise := m_RegexOptionAutoTokenise fr;
     m_OptionWrap := m_OptionWrap fr; m_SpellCheck := m_SpellCheck fr;
     m_LookWhereCurrentFile := m_LookWhereCurrentFile fr;
     m_IsSearchGroupRunning := m_IsSearchGroupRunning fr;
     m_PreviousSearch := m_PreviousSearch fr |}.

Definition set_m_RegexOptionAutoTokenise (v : bool) (fr : FindReplace) : FindReplace :=
  {| cbFind_text := cbFind_text fr; cbFind_history := cbFind_history fr;
     cbReplace_text := cbReplace_text fr;
     cbReplace_history := cbReplace_history fr;
     cbSearchMode_index := cbSearchMode_index fr;
     cbLookWhere_index := cbLookWhere_index fr;
     cbSearchDirection_index := cbSearchDirection_index fr;
     MarkedTextIndicator_hidden := MarkedTextIndicator_hidden fr;
     message := message fr; m_RegexOptionDotAll := m_RegexOptionDotAll fr;
     m_RegexOptionMinimalMatch := m_RegexOptionMinimalMatch fr;
     m_RegexOptionAutoTokenise := v; m_OptionWrap := m_OptionWrap fr;
     m_SpellCheck := m_SpellCheck fr;
     m_LookWhereCurrentFile := m_LookWhereCurrentFile fr;
     m_IsSearchGroupRunning := m_IsSearchGroupRunning fr;
     m_PreviousSearch := m_PreviousSearch fr |}.

Definition set_m_OptionWrap (v : bool) (fr : FindReplace) : FindReplace :=
  {| cbFind_text := cbFind_text fr; cbFind_history := cbFind_history fr;
     cbReplace_text := cbReplace_text fr;
     cbReplace_history := cbReplace_history fr;
     cbSearchMode_index := cbSearchMode_index fr;
     cbLookWhere_index := cbLookWhere_index fr;
     cbSearchDirection_index := cbSearchDirection_index fr;
     MarkedTextIndicator_hidden := MarkedTextIndicator_hidden fr;
     message := message fr; m_RegexOptionDotAll := m_RegexOptionDotAll fr;
     m_RegexOptionMinimalMatch := m_RegexOptionMinimalMatch fr;
     m_RegexOptionAutoTokenise := m_RegexOptionAutoTokenise fr;
     m_OptionWrap := v; m_SpellCheck := m_SpellCheck fr;
     m_LookWhereCurrentFile := m_LookWhereCurrentFile fr;
     m_IsSearchGroupRunning := m_IsSearchGroupRunning fr;
     m_PreviousSearch := m_PreviousSearch fr |}.

Definition set_m_SpellCheck (v : bool) (fr : FindReplace) : FindReplace :=
  {| cbFind_text := cbFind_text fr; cbFind_history := cbFind_history fr;
     cbReplace_text := cbReplace_text fr;
     cbReplace_history := cbReplace_history fr;
     cbSearchMode_index := cbSearchMode_index fr;
     cbLookWhere_index := cbLookWhere_index fr;
     cbSearchDirection_index := cbSearchDirection_index fr;
     MarkedTextIndicator_hidden := MarkedTextIndicator_hidden fr;
     message := message fr; m_RegexOptionDotAll := m_RegexOptionDotAll fr;
     m_RegexOptionMinimalMatch := m_RegexOptionMinimalMatch fr;
     m_RegexOptionAutoTokenise := m_RegexOptionAutoTokenise fr;
     m_OptionWrap := m_OptionWrap fr; m_SpellCheck := v;
     m_LookWhereCurrentFile := m_LookWhereCurrentFile fr;
     m_IsSearchGroupRunning := m_IsSearchGroupRunning fr;
     m_PreviousSearch := m_PreviousSearch fr |}.

Definition set_m_LookWhereCurrentFile (v : bool) (fr : FindReplace) : FindReplace :=
  {| cbFind_text := cbFind_text fr; cbFind_history := cbFind_history fr;
     cbReplace_text := cbReplace_text fr;
     cbReplace_history := cbReplace_history fr;
     cbSearchMode_index := cbSearchMode_index fr;
     cbLookWhere_index := cbLookWhere_index fr;
     cbSearchDirection_index := cbSearchDirection_index fr;
     MarkedTextIndicator_hidden := MarkedTextIndicator_hidden fr;
     message := message fr; m_RegexOptionDotAll := m_RegexOptionDotAll fr;
     m_RegexOptionMinimalMatch := m_RegexOptionMinimalMatch fr;
     m_RegexOptionAutoTokenise := m_RegexOptionAutoTokenise fr;
     m_OptionWrap := m_OptionWrap fr; m_SpellCheck := m_SpellCheck fr;
     m_LookWhereCurrentFile := v;
     m_IsSearchGroupRunning := m_IsSearchGroupRunning fr;
     m_PreviousSearch := m_PreviousSearch fr |}.

Definition set_m_IsSearchGroupRunning (v : bool) (fr : FindReplace) : FindReplace :=
  {| cbFind_text := cbFind_text fr; cbFind_history := cbFind_history fr;
     cbReplace_text := cbReplace_text fr;
     cbReplace_history := cbReplace_history fr;
     cbSearchMode_index := cbSearchMode_index fr;
     cbLookWhere_index := cbLookWhere_index fr;
     cbSearchDirection_index := cbSearchDirection_index fr;
     MarkedTextIndicator_hidden := MarkedTextIndicator_hidden fr;
     message := message fr; m_RegexOptionDotAll := m_RegexOptionDotAll fr;
     m_RegexOptionMinimalMatch := m_RegexOptionMinimalMatch fr;
     m_RegexOptionAutoTokenise := m_RegexOptionAutoTokenise fr;
     m_OptionWrap := m_OptionWrap fr; m_SpellCheck := m_SpellCheck fr;
     m_LookWhereCurrentFile := m_LookWhereCurrentFile fr;
     m_IsSearchGroupRunning := v; m_PreviousSearch := m_PreviousSearch fr |}.

Definition set_m_PreviousSearch (v : list QString) (fr : FindReplace) : FindReplace :=
  {| cbFind_text := cbFind_text fr; cbFind_history := cbFind_history fr;
     cbReplace_text := cbReplace_text fr;
     cbReplace_history := cbReplace_history fr;
     cbSearchMode_index := cbSearchMode_index fr;
     cbLookWhere_index := cbLookWhere_index fr;
     cbSearchDirection_index := cbSearchDirection_index fr;
     MarkedTextIndicator_hidden := MarkedTextIndicator_hidden fr;
     message := message fr; m_RegexOptionDotAll := m_RegexOptionDotAll fr;
     m_RegexOptionMinimalMatch := m_RegexOptionMinimalMatch fr;
     m_RegexOptionAutoTokenise := m_RegexOptionAutoTokenise fr;
     m_OptionWrap := m_OptionWrap fr; m_SpellCheck := m_SpellCheck fr;
     m_LookWhereCurrentFile := m_LookWhereCurrentFile fr;
     m_IsSearchGroupRunning := m_IsSearchGroupRunning fr;
     m_PreviousSearch := v |}.

End Controls_set.

Import Controls_set.

(** ** The panel's pure queries and the control-string parser *)

Module Settings.

Open Scope Z_scope.

(** [FindReplace::GetControls]. *)
Definition GetControls (fr : FindReplace) : QString :=
  let controls := [at_ MDS (SearchMode_int (GetSearchMode fr))] in
  let controls :=
    if m_RegexOptionDotAll fr then controls ++ [lit "DA"] else controls in
  let controls :=
    if m_RegexOptionMinimalMatch fr then controls ++ [lit "MM"] else controls in
  let controls :=
    if m_RegexOptionAutoTokenise fr then controls ++ [lit "AT"] else controls in
  let controls :=
    if m_OptionWrap fr then controls ++ [lit "WR"] else controls in
  let controls :=
    controls ++ [at_ DRS (SearchDirection_int (GetSearchDirection fr))] in
  let controls :=
    controls ++ [at_ TGTS (LookWhere_int (GetLookWhere fr))] in
  join controls 32%N.

Definition SetSearchMode (search_mode : Z) (fr : FindReplace) : FindReplace :=
  set_cbSearchMode_index (select_item cbSearchMode_items search_mode) fr.

Definition SetLookWhere (look_where : Z) (fr : FindReplace) : FindReplace :=
  set_cbLookWhere_index (select_item cbLookWhere_items look_where) fr.

Definition SetSearchDirection (search_direction : Z) (fr : FindReplace)
  : FindReplace :=
  set_cbSearchDirection_index
    (select_item cbSearchDirection_items search_direction) fr.

Definition SetOptionWrap := set_m_OptionWrap.
Definition SetRegexOptionDotAll := set_m_RegexOptionDotAll.
Definition SetRegexOptionMinimalMatch := set_m_RegexOptionMinimalMatch.
Definition SetRegexOptionAutoTokenise := set_m_RegexOptionAutoTokenise.

(** An [if / else if] chain over [text.contains(token)]: the first token
    found decides, and without any the state is left alone. *)
Fixpoint first_contained {A} (text : QString) (chain : list (string * A))
  : option A :=
  match chain with
  | [] => None
  | (token, a) :: chain' =>
      if contains text (lit token) then Some a
      else first_contained text chain'
  end.

(** [FindReplace::UpdateSearchControls]. *)
Definition UpdateSearchControls (text : QString) (fr : FindReplace)
  : FindReplace :=
  if isEmpty text then fr else
  (* Search Mode *)
  let fr :=
    match first_contained text
            [("NL", SearchMode_Normal); ("RX", SearchMode_Regex);
             ("CS", SearchMode_Case_Sensitive)]%string with
    | Some m => SetSearchMode (SearchMode_int m) fr
    | None => fr
    end in
  (* Search LookWhere *)
  let fr :=
    match first_contained text
            [("CF", LookWhere_CurrentFile); ("AH", LookWhere_AllHTMLFiles);
             ("SH", LookWhere_SelectedHTMLFiles);
             ("TH", LookWhere_TabbedHTMLFiles);
             ("AC", LookWhere_AllCSSFiles);
             ("SC", LookWhere_SelectedCSSFiles);
             ("TC", LookWhere_TabbedCSSFiles);
             ("OP", LookWhere_OPFFile); ("NX", LookWhere_NCXFile)]%string with
    | Some w => SetLookWhere (LookWhere_int w) fr
    | None => fr
    end in
  (* Search Direction *)
  let fr :=
    match first_contained text
            [("UP", SearchDirection_Up); ("DN", SearchDirection_Down)]%string
    with
    | Some d => SetSearchDirection (SearchDirection_int d) fr
    | None => fr
    end in
  (* Search Flags *)
  let fr := SetOptionWrap (contains text (lit "WR")) fr in
  let fr := SetRegexOptionDotAll (contains text (lit "DA")) fr in
  let fr := SetRegexOptionMinimalMatch (contains text (lit "MM")) fr in
  SetRegexOptionAutoTokenise (contains text (lit "AT")) fr.

(** [FindReplace::GetSearchRegex]. *)
Definition GetSearchRegex (fr : FindReplace) : QString :=
  if m_SpellCheck fr then [] else
  let text := cbFind_text fr in
  (* Convert &#x2029; to match line separator used by plainText. *)
  let text := replace_R text in
  let search := text in
  (* Search type *)
  if bool_decide (GetSearchMode fr = SearchMode_Normal
                  ∨ GetSearchMode fr = SearchMode_Case_Sensitive) then
    let search := escape search in
    if bool_decide (GetSearchMode fr = SearchMode_Normal) then
      PrependRegexOptionToSearch REGEX_OPTION_IGNORE_CASE search
    else search
  else
    let search :=
      if m_RegexOptionDotAll fr
      then PrependRegexOptionToSearch REGEX_OPTION_DOT_ALL search
      else search in
    if m_RegexOptionMinimalMatch fr
    then PrependRegexOptionToSearch REGEX_OPTION_MINIMAL_MATCH search
    else search.

Definition isWhereHTML (fr : FindReplace) : bool :=
  bool_decide (GetLookWhere fr = LookWhere_AllHTMLFiles
               ∨ GetLookWhere fr = LookWhere_SelectedHTMLFiles
               ∨ GetLookWhere fr = LookWhere_TabbedHTMLFiles).

Definition isWhereCSS (fr : FindReplace) : bool :=
  bool_decide (GetLookWhere fr = LookWhere_AllCSSFiles
               ∨ GetLookWhere fr = LookWhere_SelectedCSSFiles
               ∨ GetLookWhere fr = LookWhere_TabbedCSSFiles).

Definition isWhereSelected (fr : FindReplace) : bool :=
  bool_decide (GetLookWhere fr = LookWhere_SelectedHTMLFiles
               ∨ GetLookWhere fr = LookWhere_TabbedHTMLFiles
               ∨ GetLookWhere fr = LookWhere_SelectedCSSFiles
               ∨ GetLookWhere fr = LookWhere_TabbedCSSFiles
               ∨ GetLookWhere fr = LookWhere_OPFFile
               ∨ GetLookWhere fr = LookWhere_NCXFile).

Definition isWhereAll (fr : FindReplace) : bool :=
  bool_decide (GetLookWhere fr = LookWhere_AllHTMLFiles
               ∨ GetLookWhere fr = LookWhere_AllCSSFiles).

(** Modelled from the spec: [isWhereCF], [isWhereOPF] and [isWhereNCX] are
    called by the source but defined outside it; each tests the scope its
    name and the scope vocabulary (CurrentFile, ManifestFile, NavFile)
    give. *)
Definition isWhereCF (fr : FindReplace) : bool :=
  bool_decide (GetLookWhere fr = LookWhere_CurrentFile).
Definition isWhereOPF (fr : FindReplace) : bool :=
  bool_decide (GetLookWhere fr = LookWhere_OPFFile).
Definition isWhereNCX (fr : FindReplace) : bool :=
  bool_decide (GetLookWhere fr = LookWhere_NCXFile).

Definition IsMarkedText (fr : FindReplace) : bool :=
  negb (MarkedTextIndicator_hidden fr).

Definition IsValidFindText (fr : FindReplace) : bool :=
  negb (isEmpty (cbFind_text fr)).

(** [FindReplace::IsNewSearch]. *)
Definition IsNewSearch (fr : FindReplace) : bool :=
  match m_PreviousSearch fr with
  | [find; replace; controls] =>
      if negb (bool_decide (find = cbFind_text fr)) then true
      else if negb (bool_decide (replace = cbReplace_text fr)) then true
      else if negb (bool_decide (controls = GetControls fr)) then true
      else false
  | _ => true
  end.

(** [FindReplace::SetPreviousSearch]. *)
Definition SetPreviousSearch (fr : FindReplace) : FindReplace :=
  set_m_PreviousSearch [cbFind_text fr; cbReplace_text fr; GetControls fr] fr.

(** The test all four operations use to stay inside the open document. *)
Definition in_current_file (fr : FindReplace) : bool :=
  isWhereCF fr || m_LookWhereCurrentFile fr || IsMarkedText fr.

End Settings.

Import Settings.

(** ** Resources and the host

    A [Resource *] is an address or the null pointer.  Everything the panel
    asks of the main window, of the current tab and of its searchable
    widget is a member of [Host]: the catalog and the scans are queries on
    the host's state, the rest are calls that change it. *)

Module Resources.

Definition Resource := nat.
Abbreviation ResourcePtr := (option Resource).

Inductive ResourceType :=
  | HTMLResourceType
  | CSSResourceType
  | OPFResourceType
  | NCXResourceType
  | MiscResourceType.

#[global] Instance ResourceType_eq_dec : EqDecision ResourceType.
Proof. solve_decision. Defined.

(** [Searchable::Direction]. *)
Inductive Direction := Direction_Up | Direction_Down.

#[global] Instance Direction_eq_dec : EqDecision Direction.
Proof. solve_decision. Defined.

Class Host (Env : Type) := {
  (* m_MainWindow: the catalog *)
  GetAllHTMLResources : Env → list ResourcePtr;
  GetValidSelectedHTMLResources : Env → list ResourcePtr;
  GetTabbedHTMLResources : Env → list ResourcePtr;
  GetAllCSSResources : Env → list ResourcePtr;
  GetValidSelectedCSSResources : Env → list ResourcePtr;
  GetTabbedCSSResources : Env → list ResourcePtr;
  GetOPFResource : Env → list ResourcePtr;
  GetNCXResource : Env → list ResourcePtr;
  (* m_MainWindow->GetCurrentContentTab() *)
  GetLoadedResource : Env → ResourcePtr;
  GetSearchableContent : Env → bool;
  (* Resource *)
  Type_ : Env → Resource → ResourceType;
  GetRelativePath : Env → Resource → QString;
  (* qobject_cast<TextResource*>(r) and, when it succeeds, GetText().length() *)
  TextLength : Env → ResourcePtr → option Z;
  (* read-only scans: regex, then the arguments of the call *)
  ContainsRegex : Env → QString → Resource → bool;
  Searchable_Count : Env → QString → Direction → bool → bool → Z;
  SearchOperations_CountInFiles : Env → QString → list ResourcePtr → Z;
  (* calls that change the host *)
  SaveTabContent : Env → Env;
  OpenResourceAndWaitUntilLoaded : ResourcePtr → option (Z * Z) → Env → Env;
  SelectResources : list ResourcePtr → Env → Env;
  Searchable_FindNext :
    QString → Direction → bool → bool → bool → bool → Env → bool * Env;
  Searchable_ReplaceSelected :
    QString → QString → Direction → bool → Env → bool * Env;
  Searchable_ReplaceAll :
    QString → QString → Direction → bool → bool → Env → Z * Env;
  SearchOperations_ReplaceInAllFiles :
    QString → QString → list ResourcePtr → Env → Z * Env;
  SetModified : bool → Env → Env;
  ContentChangedExternally : Env → Env;
}.

End Resources.

Import Resources.

(** ** Scope resolver and reading-order arithmetic *)

Module Scope.

Open Scope Z_scope.

Section with_host.
Context {Env : Type} `{!Host Env}.

Definition GetCurrentResource (env : Env) : ResourcePtr := GetLoadedResource env.

(** The catalog query of a scope: the [if / else if] chain that opens
    [GetFilesToSearch] and [SetFirstResource]. *)
Definition scoped_resources (fr : FindReplace) (env : Env) : list ResourcePtr :=
  match GetLookWhere fr with
  | LookWhere_AllHTMLFiles => GetAllHTMLResources env
  | LookWhere_SelectedHTMLFiles => GetValidSelectedHTMLResources env
  | LookWhere_TabbedHTMLFiles => GetTabbedHTMLResources env
  | LookWhere_AllCSSFiles => GetAllCSSResources env
  | LookWhere_SelectedCSSFiles => GetValidSelectedCSSResources env
  | LookWhere_TabbedCSSFiles => GetTabbedCSSResources env
  | LookWhere_OPFFile => GetOPFResource env
  | LookWhere_NCXFile => GetNCXResource env
  | LookWhere_CurrentFile => []
  end.

(** [foreach ... { resources.append(resource); if (resource == current) break; }] *)
Fixpoint up_to_current (current : ResourcePtr) (all : list ResourcePtr)
  : list ResourcePtr :=
  match all with
  | [] => []
  | resource :: rest =>
      if bool_decide (resource = current) then [resource]
      else resource :: up_to_current current rest
  end.

(** [foreach ... { if (resource == current) keep = true; if (keep) resources.append(resource); }] *)
Fixpoint from_current (keep : bool) (current : ResourcePtr)
    (all : list ResourcePtr) : list ResourcePtr :=
  match all with
  | [] => []
  | resource :: rest =>
      let keep := keep || bool_decide (resource = current) in
      if keep then resource :: from_current keep current rest
      else from_current keep current rest
  end.

(** [FindReplace::GetFilesToSearch]. *)
Definition GetFilesToSearch (fr : FindReplace) (env : Env) : list ResourcePtr :=
  let all_resources := scoped_resources fr env in
  (* If wrapping, or the current resource is not in the files to search
     (meaning there is no before/after for wrap to use) then just return all files *)
  let current_resource := GetCurrentResource env in
  if m_OptionWrap fr || negb (bool_decide (current_resource ∈ all_resources))
  then all_resources
  else
    (* Return only the current file and before/after files *)
    if bool_decide (GetSearchDirection fr = SearchDirection_Up)
    then up_to_current current_resource all_resources
    else from_current false current_resource all_resources.

(** [resource && resource->GetRelativePath() == current->GetRelativePath()] *)
Definition same_path (env : Env) (current : Resource) (resource : ResourcePtr)
  : bool :=
  match resource with
  | Some r => bool_decide (GetRelativePath env r = GetRelativePath env current)
  | None => false
  end.

(** [FindReplace::IsCurrentFileInSelection]. *)
Definition IsCurrentFileInSelection (fr : FindReplace) (env : Env) : bool :=
  let resources := GetFilesToSearch fr env in
  match GetCurrentResource env with
  | Some current => bool_decide (is_Some (list_find (same_path env current) resources))
  | None => false
  end.

(** [FindReplace::GetNextResource]. *)
Definition GetNextResource (fr : FindReplace) (env : Env)
    (current_resource : ResourcePtr) (direction : Direction) : ResourcePtr :=
  let resources := GetFilesToSearch fr env in
  let max_reading_order := Z.of_nat (length resources) - 1 in
  (* Find the current resource in the tabbed/selected/all resource entries *)
  let current_reading_order :=
    match current_resource with
    | Some current =>
        match list_find (same_path env current) resources with
        | Some (i, _) => Z.of_nat i
        | None => 0
        end
    | None => 0
    end in
  (* We wrap back (if needed) *)
  let next_reading_order :=
    if bool_decide (direction = Direction_Up) then
      if bool_decide (current_reading_order - 1 >= 0)
      then current_reading_order - 1 else max_reading_order
    else
      if bool_decide (current_reading_order + 1 <= max_reading_order)
      then current_reading_order + 1 else 0 in
  if bool_decide (next_reading_order > max_reading_order ∨ next_reading_order < 0)
  then None
  else default None (resources !! Z.to_nat next_reading_order).

(** The index [GetNextResource] moves to from index [i] of a list of
    [n] resources. *)
Definition next_reading_order (direction : Direction) (n i : Z) : Z :=
  if bool_decide (direction = Direction_Up) then
    if bool_decide (i - 1 >= 0) then i - 1 else n - 1
  else
    if bool_decide (i + 1 <= n - 1) then i + 1 else 0.

(** The number of moves of [GetNextResource] that lead from index [i]
    back to index [s], for indices of a list of [n] resources. *)
Definition moves_back (direction : Direction) (n s i : Z) : Z :=
  if bool_decide (direction = Direction_Up) then
    if bool_decide (i > s) then i - s else i - s + n
  else
    if bool_decide (i < s) then s - i else s - i + n.

(** [QList::removeOne]: removes the first occurrence. *)
Fixpoint removeOne (x : ResourcePtr) (l : list ResourcePtr) : list ResourcePtr :=
  match l with
  | [] => []
  | y :: l' => if bool_decide (y = x) then l' else y :: removeOne x l'
  end.

End with_host.

End Scope.

Import Scope.

(** ** The stateful panel

    A run of a panel operation starts in a [World]: the panel's members, the
    host's state and the trace of calls made so far.  It ends in a value and
    a new world, or in a fault: a null pointer dereferenced, a list accessed
    out of range, or (for the one unbounded loop of the file) no fuel left. *)

Module Panel.

Open Scope Z_scope.

Inductive Event :=
  | EvShowMessageRequest (new_message : QString)
  | EvSaveTabContent
  | EvOpenResourceAndWaitUntilLoaded (r : ResourcePtr) (position : option (Z * Z))
  | EvSelectResources (l : list ResourcePtr)
  | EvResourceContainsCurrentRegex (r : Resource)
  | EvCountInFiles (regex : QString) (files : list ResourcePtr)
  | EvReplaceInAllFiles (regex replacement : QString) (files : list ResourcePtr)
  | EvSearchableFindNext (regex : QString) (direction : Direction)
      (misspelled ignore_offset wrap marked : bool)
  | EvSearchableCount (regex : QString) (direction : Direction) (wrap marked : bool)
  | EvSearchableReplaceSelected (regex replacement : QString)
      (direction : Direction) (replace_current : bool)
  | EvSearchableReplaceAll (regex replacement : QString)
      (direction : Direction) (wrap marked : bool)
  | EvSetModified (modified : bool)
  | EvContentChangedExternally.

#[global] Instance Event_eq_dec : EqDecision Event.
Proof. solve_decision. Defined.

Inductive Fault := NullDereference | IndexOutOfRange | OutOfFuel.

Section with_host.
Context {Env : Type} `{!Host Env}.

Record World := {
  panel : FindReplace;
  host : Env;
  trace : list Event;
}.

(** The outcome of a run: a value and the world it leaves, or a fault and
    the world in which it happened. *)
Inductive Result (A : Type) :=
  | Ok (a : A) (w : World)
  | Faulted (f : Fault) (w : World).
Arguments Ok {A} a w.
Arguments Faulted {A} f w.

Definition M (A : Type) : Type := World → Result A.

#[global] Instance M_ret : MRet M := λ A a w, Ok a w.
#[global] Instance M_bind : MBind M := λ A B f m w,
  match m w with
  | Ok a w' => f a w'
  | Faulted e w' => Faulted e w'
  end.

Definition fault {A} (f : Fault) : M A := λ w, Faulted f w.
Definition get_panel : M FindReplace := λ w, Ok (panel w) w.
Definition get_host : M Env := λ w, Ok (host w) w.
Definition modify_panel (f : FindReplace → FindReplace) : M unit := λ w,
  Ok () {| panel := f (panel w); host := host w; trace := trace w |}.
Definition emit (ev : Event) : M unit := λ w,
  Ok () {| panel := panel w; host := host w; trace := trace w ++ [ev] |}.

(** A call that changes the host and returns nothing, and one that
    returns a value; both are recorded in the trace. *)
Definition call_ (ev : Event) (f : Env → Env) : M unit := λ w,
  Ok () {| panel := panel w; host := f (host w); trace := trace w ++ [ev] |}.
Definition call {A} (ev : Event) (f : Env → A * Env) : M A := λ w,
  Ok (f (host w)).1
     {| panel := panel w; host := (f (host w)).2; trace := trace w ++ [ev] |}.
Definition scan {A} (ev : Event) (f : Env → A) : M A := λ w,
  Ok (f (host w))
     {| panel := panel w; host := host w; trace := trace w ++ [ev] |}.

(** [p->member] for a pointer that may be null. *)
Definition deref (p : ResourcePtr) : M Resource :=
  match p with
  | Some r => mret r
  | None => fault NullDereference
  end.

(** [QList::first] and [QList::last]; both assert that the list is not empty. *)
Definition first_ (l : list ResourcePtr) : M ResourcePtr :=
  match l with
  | [] => fault IndexOutOfRange
  | r :: _ => mret r
  end.
Definition last_ (l : list ResourcePtr) : M ResourcePtr :=
  match last l with
  | None => fault IndexOutOfRange
  | Some r => mret r
  end.

(** *** Messages *)

(** [FindReplace::ShowMessage]; the expiry timer is not modelled. *)
Definition ShowMessage (message : QString) : M unit :=
  fr ← get_panel;
  let new_message :=
    if m_LookWhereCurrentFile fr && negb (isWhereCF fr)
    then message ++ lit " (" ++ lit "Current File" ++ lit ")"
    else message in
  modify_panel (set_message new_message);;
  emit (EvShowMessageRequest new_message).

(** [FindReplace::clearMessage]. *)
Definition clearMessage : M unit :=
  fr ← get_panel;
  if negb (m_IsSearchGroupRunning fr) then
    modify_panel (set_message []);;
    emit (EvShowMessageRequest [])
  else mret ().

Definition CannotFindSearchTerm : M unit :=
  ShowMessage (lit "No matches found").

(** [tr("...: %n", "", count)]. *)
Definition tr_n (text : string) (count : Z) : QString :=
  lit text ++ lit (pretty count).

(** [FindReplace::GetAvailableSearchable]; the result tells whether the
    pointer is non-null. *)
Definition GetAvailableSearchable : M bool :=
  env ← get_host;
  let searchable := GetSearchableContent env in
  (if negb searchable then ShowMessage (lit "This tab cannot be searched")
   else mret ());;
  mret searchable.

(** [UpdatePreviousFindStrings] and [UpdatePreviousReplaceStrings]: the
    string moves to the front of the history and stays in the line edit.
    A null [text] stands for the line edit's own text. *)
Fixpoint remove_first (s : QString) (items : list QString) : list QString :=
  match items with
  | [] => []
  | t :: items' => if bool_decide (t = s) then items' else t :: remove_first s items'
  end.

Definition UpdatePreviousFindStrings (text : option QString) : M unit :=
  modify_panel (λ fr,
    let new_find_string := default (cbFind_text fr) text in
    set_cbFind_text new_find_string
      (set_cbFind_history
         (new_find_string :: remove_first new_find_string (cbFind_history fr)) fr)).

Definition UpdatePreviousReplaceStrings (text : option QString) : M unit :=
  modify_panel (λ fr,
    let new_replace_string := default (cbReplace_text fr) text in
    set_cbReplace_text new_replace_string
      (set_cbReplace_history
         (new_replace_string
            :: remove_first new_replace_string (cbReplace_history fr)) fr)).

(** [FindReplace::SetCodeViewIfNeeded]: it reads the type of the current
    resource when the search stays in the open document, and otherwise only
    hands the keyboard focus back to the panel, which is not modelled. *)
Definition SetCodeViewIfNeeded (force : bool) : M unit :=
  fr ← get_panel;
  env ← get_host;
  if m_LookWhereCurrentFile fr || isWhereCF fr || IsMarkedText fr then
    _ ← deref (GetCurrentResource env); mret ()
  else mret ().

(** Modelled from the spec: [ResourceContainsCurrentRegex] is a method of the
    panel defined outside the sources at hand; it tests containment of the
    compiled pattern in a resource in "scan, don't move cursor" mode.  The
    test itself is the host's [ContainsRegex]. *)
Definition ResourceContainsCurrentRegex (resource : Resource) : M bool :=
  fr ← get_panel;
  scan (EvResourceContainsCurrentRegex resource)
       (λ env, ContainsRegex env (GetSearchRegex fr) resource).

(** The two notifications of [ReplaceAll] to the host: the book's
    modified flag and the tab's "content changed externally". *)
Definition is_notification (ev : Event) : bool :=
  match ev with
  | EvSetModified _ | EvContentChangedExternally => true
  | _ => false
  end.

Definition notifications (tr : list Event) : list Event :=
  List.filter is_notification tr.

(** A computation is quiet when it leaves the notifications of the trace
    as they are, whether it returns or faults. *)
Definition quiet {A} (m : M A) : Prop :=
  ∀ w, match m w with
       | Ok _ w' | Faulted _ w' =>
           notifications (trace w') = notifications (trace w)
       end.

(** [notifies res base sent]: the run that ended in [res] added the
    notifications [sent a] to the notifications [base] when it returned
    [a], and none when it faulted. *)
Definition notifies {A} (res : Result A) (base : list Event)
    (sent : A → list Event) : Prop :=
  match res with
  | Ok a w' => notifications (trace w') = base ++ sent a
  | Faulted _ w' => notifications (trace w') = base
  end.

(** The counting calls of a trace: the bulk count over files and the
    count in the current tab. *)
Definition is_count (ev : Event) : bool :=
  match ev with
  | EvCountInFiles _ _ | EvSearchableCount _ _ _ _ => true
  | _ => false
  end.

Definition counts (tr : list Event) : list Event := List.filter is_count tr.

(** The trace of a run of containment tests. *)
Definition tests (tested : list Resource) : list Event :=
  EvResourceContainsCurrentRegex <$> tested.

End with_host.

Arguments World Env : clear implicits.
Arguments Result Env A : clear implicits.
Arguments Ok {Env A} a w.
Arguments Faulted {Env A} f w.
Arguments M Env A : clear implicits.
Arguments quiet Env {A} m.
Arguments notifies {Env A} res base sent.

End Panel.

Import Panel.

(** ** Cross-document cursor *)

Module Cursor.

Open Scope Z_scope.

Section with_host.
Context {Env : Type} `{!Host Env}.

Local Abbreviation M := (M Env).

(** [isWhereX() && (current_resource->Type() == Resource::XResourceType)]:
    the type is read only when the scope test holds. *)
Definition where_and_type (where_ : bool) (current_resource : ResourcePtr)
    (type : ResourceType) : M bool :=
  if where_ then
    current ← deref current_resource;
    env ← get_host;
    mret (bool_decide (Type_ env current = type))
  else mret false.

(** The [while] loop of [GetNextContainingResource]; every iteration costs
    one unit of fuel. *)
Fixpoint containing_loop (fuel : nat) (direction : Direction)
    (starting_resource next_resource : ResourcePtr)
    (passed_starting_resource : bool) : M ResourcePtr :=
  if negb passed_starting_resource
     || negb (bool_decide (next_resource = starting_resource)) then
    match fuel with
    | O => fault OutOfFuel
    | S fuel' =>
        fr ← get_panel;
        env ← get_host;
        let next_resource := GetNextResource fr env next_resource direction in
        if bool_decide (next_resource = starting_resource)
           && negb (m_OptionWrap fr) then mret None
        else
          let passed_starting_resource :=
            passed_starting_resource
            || bool_decide (next_resource = starting_resource) in
          match next_resource with
          | Some resource =>
              found ← ResourceContainsCurrentRegex resource;
              if (found : bool) then (mret next_resource : M ResourcePtr)
              else containing_loop fuel' direction starting_resource
                     next_resource passed_starting_resource
          | None => mret None
          end
    end
  else mret None.

(** [FindReplace::GetNextContainingResource]. *)
Definition GetNextContainingResource (fuel : nat) (direction : Direction)
  : M ResourcePtr :=
  fr ← get_panel;
  env ← get_host;
  let current_resource := GetCurrentResource env in
  (* if CurrentFile is the same type as LookWhere, set it as the starting resource *)
  html ← where_and_type (isWhereHTML fr) current_resource HTMLResourceType;
  starting_resource ←
    (if (html : bool) then mret current_resource else
     css ← where_and_type (isWhereCSS fr) current_resource CSSResourceType;
     if (css : bool) then mret current_resource else
     opf ← where_and_type (isWhereOPF fr) current_resource OPFResourceType;
     if (opf : bool) then mret current_resource else
     ncx ← where_and_type (isWhereNCX fr) current_resource NCXResourceType;
     if (ncx : bool) then mret current_resource else mret None);
  let resources := GetFilesToSearch fr env in
  if bool_decide (resources = []) then mret None else
  starting_resource ←
    (if bool_decide (starting_resource = None)
        || (isWhereSelected fr && negb (IsCurrentFileInSelection fr env))
     then
       if bool_decide (direction = Direction_Up) then first_ resources
       else last_ resources
     else mret starting_resource);
  let next_resource := starting_resource in
  (* handle a list of size one as a special case as long as Wrap is not set *)
  if bool_decide (length resources = 1%nat) && negb (m_OptionWrap fr) then
    if IsCurrentFileInSelection fr env then mret None else
    match next_resource with
    | Some resource =>
        found ← ResourceContainsCurrentRegex resource;
        if (found : bool) then mret next_resource else mret None
    | None => mret None
    end
  else
    (* this will only work if the resource list has at least 2 elements *)
    containing_loop fuel direction starting_resource next_resource false.

(** The resource the traversal of [GetNextContainingResource] starts
    from: the current resource when its type is the scope's and, for the
    scopes of [isWhereSelected], it is among the files to search; the first
    (direction Up) or last (direction Down) file to search otherwise. *)
Definition starting_resource (fr : FindReplace) (env : Env)
    (direction : Direction) : ResourcePtr :=
  let resources := GetFilesToSearch fr env in
  let scope_type (c : Resource) : bool :=
    isWhereHTML fr && bool_decide (Type_ env c = HTMLResourceType)
    || isWhereCSS fr && bool_decide (Type_ env c = CSSResourceType)
    || isWhereOPF fr && bool_decide (Type_ env c = OPFResourceType)
    || isWhereNCX fr && bool_decide (Type_ env c = NCXResourceType) in
  match GetCurrentResource env with
  | Some c =>
      if negb (scope_type c)
         || (isWhereSelected fr && negb (IsCurrentFileInSelection fr env))
      then
        if bool_decide (direction = Direction_Up) then head resources ≫= id
        else last resources ≫= id
      else Some c
  | None => None
  end.

(** What the traversal takes for granted of the host: a resource is loaded
    in the current tab, relative paths identify resources, the scoped list
    names every resource once and holds no null pointer, and the "All"
    lists are complete. *)
Record catalog_ok (fr : FindReplace) (env : Env) : Prop := {
  current_loaded : is_Some (GetCurrentResource env);
  paths_distinct :
    ∀ a b, GetRelativePath env a = GetRelativePath env b → a = b;
  scoped_NoDup : NoDup (scoped_resources fr env);
  scoped_no_null : None ∉ scoped_resources fr env;
  all_html_complete :
    ∀ r, Type_ env r = HTMLResourceType → Some r ∈ GetAllHTMLResources env;
  all_css_complete :
    ∀ r, Type_ env r = CSSResourceType → Some r ∈ GetAllCSSResources env;
}.

End with_host.

End Cursor.

Import Cursor.

(** ** Operation orchestrator *)

Module Orchestrator.

Open Scope Z_scope.

Section with_host.
Context {Env : Type} `{!Host Env}.

Local Abbreviation M := (M Env).

Definition GetSearchableDirection (fr : FindReplace) : Direction :=
  if bool_decide (GetSearchDirection fr = SearchDirection_Up)
  then Direction_Up else Direction_Down.

(** [FindReplace::SetFirstResource]. *)
Definition SetFirstResource (update_position : bool) : M unit :=
  fr ← get_panel;
  if isWhereCF fr || m_LookWhereCurrentFile fr || IsMarkedText fr then mret ()
  else
    env ← get_host;
    let resources := scoped_resources fr env in
    '(first_resource, pos) ←
      (if bool_decide (GetSearchDirection fr = SearchDirection_Down) then
         first_resource ← first_ resources;
         mret (first_resource, 0)
       else
         first_resource ← last_ resources;
         mret (first_resource, default 0 (TextLength env first_resource)));
    let position := if update_position then Some (-1, pos) else None in
    call_ (EvOpenResourceAndWaitUntilLoaded first_resource position)
          (OpenResourceAndWaitUntilLoaded first_resource position).

(** The opening lines shared by [Find], [Count], [Replace] and
    [ReplaceAll]: [if (IsNewSearch()) { SetFirstResource(true); SetPreviousSearch(); }] *)
Definition new_search_reset : M unit :=
  fr ← get_panel;
  if IsNewSearch fr then
    SetFirstResource true;;
    modify_panel SetPreviousSearch
  else mret ().

(** The five-argument [searchable->FindNext] of [FindInAllFiles]. *)
Definition find_in_tab (direction : Direction) (ignore_offset : bool) : M bool :=
  fr ← get_panel;
  call (EvSearchableFindNext (GetSearchRegex fr) direction (m_SpellCheck fr)
          ignore_offset false false)
       (Searchable_FindNext (GetSearchRegex fr) direction (m_SpellCheck fr)
          ignore_offset false false).

(** [FindReplace::FindInAllFiles]. *)
Definition FindInAllFiles (fuel : nat) (direction : Direction) : M bool :=
  fr ← get_panel;
  env ← get_host;
  '(searchable, found) ←
    (if IsCurrentFileInSelection fr env then
       searchable ← GetAvailableSearchable;
       if (searchable : bool) then
         found ← find_in_tab direction false; mret (searchable, found)
       else mret (searchable, false)
     else mret (false, false));
  if negb (found : bool) then
    containing_resource ← GetNextContainingResource fuel direction;
    match containing_resource with
    | Some _ =>
        (* Save selected resources since opening tabs changes selection *)
        env ← get_host;
        let selected_resources := GetFilesToSearch fr env in
        call_ (EvOpenResourceAndWaitUntilLoaded containing_resource None)
              (OpenResourceAndWaitUntilLoaded containing_resource None);;
        (* Restore selection since opening tabs changes selection *)
        (if isWhereSelected fr && negb (m_SpellCheck fr) then
           call_ (EvSelectResources selected_resources)
                 (SelectResources selected_resources)
         else mret ());;
        searchable ← GetAvailableSearchable;
        if (searchable : bool) then find_in_tab direction true else mret found
    | None =>
        (* Check the part of the original file above the cursor *)
        if (searchable : bool) then find_in_tab direction false else mret found
    end
  else mret found.

(** [FindReplace::FindText]. *)
Definition FindText (fuel : nat) (direction : Direction) : M bool :=
  clearMessage;;
  fr ← get_panel;
  if negb (IsValidFindText fr) then mret false else
  SetCodeViewIfNeeded false;;
  go ←
    (if isWhereCF fr || m_LookWhereCurrentFile fr || IsMarkedText fr then
       searchable ← GetAvailableSearchable;
       if negb (searchable : bool) then mret None else
       found ←
         call (EvSearchableFindNext (GetSearchRegex fr) direction false false
                 (m_OptionWrap fr) (IsMarkedText fr))
              (Searchable_FindNext (GetSearchRegex fr) direction false false
                 (m_OptionWrap fr) (IsMarkedText fr));
       mret (Some found)
     else
       found ← FindInAllFiles fuel direction; mret (Some found));
  match go with
  | None => mret false    (* no searchable: return found; *)
  | Some found =>
      (if (found : bool) then clearMessage else CannotFindSearchTerm);;
      UpdatePreviousFindStrings None;;
      mret found
  end.

Definition FindNext (fuel : nat) : M bool := FindText fuel Direction_Down.
Definition FindPrevious (fuel : nat) : M bool := FindText fuel Direction_Up.

(** [FindReplace::Find]. *)
Definition Find (fuel : nat) : M bool :=
  new_search_reset;;
  fr ← get_panel;
  if bool_decide (GetSearchDirection fr = SearchDirection_Up)
  then FindPrevious fuel
  else FindNext fuel.

(** The C++ [int] of the counts: 32 bits, two's complement.  [int_add] is
    [+=] on two [int]s, with the wrap-around of the machine. *)
Definition int_wrap (z : Z) : Z := (z + 2 ^ 31) `mod` 2 ^ 32 - 2 ^ 31.
Definition int_add (a b : Z) : Z := int_wrap (a + b).

(** [FindReplace::CountInFiles]. *)
Definition CountInFiles : M Z :=
  call_ EvSaveTabContent SaveTabContent;;
  fr ← get_panel;
  env ← get_host;
  (* When not wrapping remove the current resource as it's counted separately *)
  let search_files := GetFilesToSearch fr env in
  let search_files :=
    if negb (m_OptionWrap fr)
    then removeOne (GetCurrentResource env) search_files
    else search_files in
  scan (EvCountInFiles (GetSearchRegex fr) search_files)
       (λ env, SearchOperations_CountInFiles env (GetSearchRegex fr) search_files).

(** [FindReplace::Count]. *)
Definition Count : M Z :=
  clearMessage;;
  new_search_reset;;
  fr ← get_panel;
  if negb (IsValidFindText fr) then mret 0 else
  SetCodeViewIfNeeded true;;
  go ←
    (if isWhereCF fr || m_LookWhereCurrentFile fr || IsMarkedText fr then
       searchable ← GetAvailableSearchable;
       if negb (searchable : bool) then mret None else
       count ←
         scan (EvSearchableCount (GetSearchRegex fr) (GetSearchableDirection fr)
                 (m_OptionWrap fr) (IsMarkedText fr))
              (λ env, Searchable_Count env (GetSearchRegex fr)
                        (GetSearchableDirection fr) (m_OptionWrap fr)
                        (IsMarkedText fr));
       mret (Some count)
     else
       (* If wrap, all files are counted, otherwise only files before/after
          the current file are counted, and then added to the count of current file. *)
       count ← CountInFiles;
       if negb (m_OptionWrap fr) then
         searchable ← GetAvailableSearchable;
         if (searchable : bool) then
           current ←
             scan (EvSearchableCount (GetSearchRegex fr)
                     (GetSearchableDirection fr) (m_OptionWrap fr) false)
                  (λ env, Searchable_Count env (GetSearchRegex fr)
                            (GetSearchableDirection fr) (m_OptionWrap fr) false);
           mret (Some (int_add count current))
         else mret (Some count)
       else mret (Some count));
  match go with
  | None => mret 0    (* no searchable: return 0; *)
  | Some count =>
      (if bool_decide (count = 0) then CannotFindSearchTerm
       else if bool_decide (count > 0)
            then ShowMessage (tr_n "Matches found: " count)
       else mret ());;
      UpdatePreviousFindStrings None;;
      mret count
  end.

(** [FindReplace::ReplaceInAllFiles]. *)
Definition ReplaceInAllFiles : M Z :=
  call_ EvSaveTabContent SaveTabContent;;
  fr ← get_panel;
  env ← get_host;
  (* When not wrapping remove the current resource as it's replace separately *)
  let search_files := GetFilesToSearch fr env in
  let search_files :=
    if negb (m_OptionWrap fr)
    then removeOne (GetCurrentResource env) search_files
    else search_files in
  call (EvReplaceInAllFiles (GetSearchRegex fr) (cbReplace_text fr) search_files)
       (SearchOperations_ReplaceInAllFiles (GetSearchRegex fr)
          (cbReplace_text fr) search_files).

(** [FindReplace::ReplaceAll]. *)
Definition ReplaceAll : M Z :=
  call_ EvSaveTabContent SaveTabContent;;
  clearMessage;;
  new_search_reset;;
  fr ← get_panel;
  if negb (IsValidFindText fr) then mret 0 else
  SetCodeViewIfNeeded true;;
  go ←
    (if isWhereCF fr || m_LookWhereCurrentFile fr || IsMarkedText fr then
       searchable ← GetAvailableSearchable;
       if negb (searchable : bool) then mret None else
       count ←
         call (EvSearchableReplaceAll (GetSearchRegex fr) (cbReplace_text fr)
                 (GetSearchableDirection fr) (m_OptionWrap fr) (IsMarkedText fr))
              (Searchable_ReplaceAll (GetSearchRegex fr) (cbReplace_text fr)
                 (GetSearchableDirection fr) (m_OptionWrap fr) (IsMarkedText fr));
       mret (Some count)
     else
       (* If wrap, all files are replaced, otherwise only files before/after
          the current file are updated, and then the current file is done. *)
       count ← ReplaceInAllFiles;
       if negb (m_OptionWrap fr) then
         searchable ← GetAvailableSearchable;
         if (searchable : bool) then
           current ←
             call (EvSearchableReplaceAll (GetSearchRegex fr) (cbReplace_text fr)
                     (GetSearchableDirection fr) (m_OptionWrap fr) false)
                  (Searchable_ReplaceAll (GetSearchRegex fr) (cbReplace_text fr)
                     (GetSearchableDirection fr) (m_OptionWrap fr) false);
           mret (Some (int_add count current))
         else mret (Some count)
       else mret (Some count));
  match go with
  | None => mret 0    (* no searchable: return 0; *)
  | Some count =>
      (if bool_decide (count = 0) then ShowMessage (lit "No replacements made")
       else if bool_decide (count > 0)
            then ShowMessage (tr_n "Replacements made: " count)
       else mret ());;
      (if bool_decide (count > 0) then
         (* Signal that the contents have changed and update the view *)
         call_ (EvSetModified true) (SetModified true);;
         call_ EvContentChangedExternally ContentChangedExternally
       else mret ());;
      UpdatePreviousFindStrings None;;
      UpdatePreviousReplaceStrings None;;
      mret count
  end.

(** [FindReplace::ReplaceText]. *)
Definition ReplaceText (fuel : nat) (direction : Direction)
    (replace_current : bool) : M bool :=
  clearMessage;;
  fr ← get_panel;
  if negb (IsValidFindText fr) then mret false else
  SetCodeViewIfNeeded true;;
  searchable ← GetAvailableSearchable;
  if negb (searchable : bool) then mret false else
  (* If we have the matching text selected, replace it
     This will not do anything if matching text is not selected. *)
  found ←
    call (EvSearchableReplaceSelected (GetSearchRegex fr) (cbReplace_text fr)
            direction replace_current)
         (Searchable_ReplaceSelected (GetSearchRegex fr) (cbReplace_text fr)
            direction replace_current);
  (* If we are not going to stay put after a simple Replace, then find next match. *)
  found ←
    (if negb replace_current then
       (* If doing a Replace/Find set the value of found to the result of the Find. *)
       if bool_decide (direction = Direction_Up) then FindPrevious fuel
       else FindNext fuel
     else mret found);
  UpdatePreviousFindStrings None;;
  UpdatePreviousReplaceStrings None;;
  mret found.

Definition ReplaceNext (fuel : nat) : M bool :=
  ReplaceText fuel Direction_Down false.
Definition ReplacePrevious (fuel : nat) : M bool :=
  ReplaceText fuel Direction_Up false.

(** [FindReplace::Replace]. *)
Definition Replace (fuel : nat) : M bool :=
  new_search_reset;;
  fr ← get_panel;
  if bool_decide (GetSearchDirection fr = SearchDirection_Up)
  then ReplacePrevious fuel
  else ReplaceNext fuel.

(** [FindReplace::ReplaceCurrent]. *)
Definition ReplaceCurrent (fuel : nat) : M bool :=
  fr ← get_panel;
  if bool_decide (GetSearchDirection fr = SearchDirection_Up)
  then ReplaceText fuel Direction_Up true
  else ReplaceText fuel Direction_Down true.

End with_host.

End Orchestrator.

Import Orchestrator.

(** ** A small book

    A concrete host for examples: three HTML files (0, 1, 2), two style
    sheets (3, 4), the OPF (5) and the NCX (6).  The pattern's matches are
    given per resource; the regex itself is not interpreted. *)

Module Demo.

Open Scope Z_scope.

Record Book := {
  current : ResourcePtr;          (* resource of the current tab *)
  selected : list ResourcePtr;    (* Book Browser selection *)
  tabbed : list ResourcePtr;      (* open tabs *)
  matches : list Z;               (* matches left in resource i *)
  on_match : bool;                (* a match is selected in the current tab *)
  can_search : bool;              (* the current tab has a Searchable *)
  is_modified : bool;
}.

Definition type_of (r : Resource) : ResourceType :=
  if bool_decide (r < 3)%nat then HTMLResourceType
  else if bool_decide (r < 5)%nat then CSSResourceType
  else if bool_decide (r = 5)%nat then OPFResourceType
  else if bool_decide (r = 6)%nat then NCXResourceType
  else MiscResourceType.

Definition path_of (r : Resource) : QString := lit "Text/" ++ [N.of_nat r].

Definition has_type (ty : ResourceType) (p : ResourcePtr) : bool :=
  match p with
  | Some r => bool_decide (type_of r = ty)
  | None => false
  end.

Definition matches_in (b : Book) (p : ResourcePtr) : Z :=
  match p with
  | Some r => default 0 (matches b !! r)
  | None => 0
  end.

Definition set_current (p : ResourcePtr) (b : Book) : Book :=
  {| current := p; selected := selected b; tabbed := tabbed b;
     matches := matches b; on_match := false; can_search := can_search b;
     is_modified := is_modified b |}.

Definition set_selected (l : list ResourcePtr) (b : Book) : Book :=
  {| current := current b; selected := l; tabbed := tabbed b;
     matches := matches b; on_match := on_match b; can_search := can_search b;
     is_modified := is_modified b |}.

Definition set_matches (m : list Z) (on : bool) (b : Book) : Book :=
  {| current := current b; selected := selected b; tabbed := tabbed b;
     matches := m; on_match := on; can_search := can_search b;
     is_modified := is_modified b |}.

Definition set_modified (v : bool) (b : Book) : Book :=
  {| current := current b; selected := selected b; tabbed := tabbed b;
     matches := matches b; on_match := on_match b; can_search := can_search b;
     is_modified := v |}.

Definition clear_matches (files : list ResourcePtr) (b : Book) : list Z :=
  imap (λ i n, if bool_decide (Some i ∈ files) then 0 else n) (matches b).

Definition sum_matches (b : Book) (files : list ResourcePtr) : Z :=
  foldr (λ p n, matches_in b p + n) 0 files.

#[global] Instance book_host : Host Book := {|
  GetAllHTMLResources _ := [Some 0; Some 1; Some 2]%nat;
  GetValidSelectedHTMLResources b := List.filter (has_type HTMLResourceType) (selected b);
  GetTabbedHTMLResources b := List.filter (has_type HTMLResourceType) (tabbed b);
  GetAllCSSResources _ := [Some 3; Some 4]%nat;
  GetValidSelectedCSSResources b := List.filter (has_type CSSResourceType) (selected b);
  GetTabbedCSSResources b := List.filter (has_type CSSResourceType) (tabbed b);
  GetOPFResource _ := [Some 5%nat];
  GetNCXResource _ := [Some 6%nat];
  GetLoadedResource := current;
  GetSearchableContent := can_search;
  Type_ _ := type_of;
  GetRelativePath _ := path_of;
  TextLength _ p := if has_type MiscResourceType p then None else Some 100;
  ContainsRegex b _ r := bool_decide (0 < matches_in b (Some r));
  Searchable_Count b _ _ _ _ := matches_in b (current b);
  SearchOperations_CountInFiles b _ files := sum_matches b files;
  SaveTabContent b := b;
  OpenResourceAndWaitUntilLoaded p _ b := set_current p b;
  SelectResources l b := set_selected l b;
  Searchable_FindNext _ _ _ _ _ _ b :=
    if bool_decide (0 < matches_in b (current b))
    then (true, set_matches (matches b) true b) else (false, b);
  Searchable_ReplaceSelected _ _ _ _ b :=
    if on_match b
    then (true,
          set_matches
            (alter (λ n, n - 1) (default 0%nat (current b)) (matches b)) false b)
    else (false, b);
  Searchable_ReplaceAll _ _ _ _ _ b :=
    (matches_in b (current b),
     set_matches (clear_matches [current b] b) false b);
  SearchOperations_ReplaceInAllFiles _ _ files b :=
    (sum_matches b files, set_matches (clear_matches files b) (on_match b) b);
  SetModified v b := set_modified v b;
  ContentChangedExternally b := b;
|}.

(** The panel as the constructor and default settings leave it: normal
    mode, current file, downwards, wrap on. *)
Definition fresh_panel : FindReplace :=
  {| cbFind_text := []; cbFind_history := [];
     cbReplace_text := []; cbReplace_history := [];
     cbSearchMode_index := 0; cbLookWhere_index := 0;
     cbSearchDirection_index := 1;
     MarkedTextIndicator_hidden := true; message := [];
     m_RegexOptionDotAll := false; m_RegexOptionMinimalMatch := false;
     m_RegexOptionAutoTokenise := false; m_OptionWrap := true;
     m_SpellCheck := false; m_LookWhereCurrentFile := false;
     m_IsSearchGroupRunning := false; m_PreviousSearch := [] |}.

(** A panel set up for a search of [find] with the given controls. *)
Definition searching (find : string) (where_ : LookWhere)
    (direction : SearchDirection) (wrap : bool) : FindReplace :=
  set_cbFind_text (lit find)
    (SetLookWhere (LookWhere_int where_)
       (SetSearchDirection (SearchDirection_int direction)
          (SetOptionWrap wrap fresh_panel))).

(** The same panel once the search has been run, so that the next
    operation is not a new search. *)
Definition continuing (find : string) (where_ : LookWhere)
    (direction : SearchDirection) (wrap : bool) : FindReplace :=
  SetPreviousSearch (searching find where_ direction wrap).

Definition book (cur : nat) (sel : list nat) (m : list Z) : Book :=
  {| current := Some cur; selected := Some <$> sel; tabbed := Some <$> sel;
     matches := m; on_match := false; can_search := true;
     is_modified := false |}.

Definition world (fr : FindReplace) (b : Book) : World Book :=
  {| panel := fr; host := b; trace := [] |}.

End Demo.

(** ** What an operation leaves alone *)

Module Frame.

Section with_host.
Context {Env : Type} `{!Host Env}.

(** What the user entered in the panel: every member but the message
    label, the two histories and the remembered previous search. *)
Definition inputs (fr : FindReplace) : FindReplace :=
  set_message []
    (set_cbFind_history []
       (set_cbReplace_history [] (set_m_PreviousSearch [] fr))).

(** The same with the remembered previous search. *)
Definition search_state (fr : FindReplace) : FindReplace :=
  set_message [] (set_cbFind_history [] (set_cbReplace_history [] fr)).

(** The calls that change a document or tell the host that one changed. *)
Definition is_edit (ev : Event) : bool :=
  match ev with
  | EvReplaceInAllFiles _ _ _ | EvSearchableReplaceSelected _ _ _ _
  | EvSearchableReplaceAll _ _ _ _ _ | EvSetModified _
  | EvContentChangedExternally => true
  | _ => false
  end.

Definition edits (tr : list Event) : list Event := List.filter is_edit tr.

(** A computation keeps a view of the panel, a view of the host and a
    class of events when, whether it returns or faults, the two views are
    as they were and no event of the class was added to the trace. *)
Definition keeps {V U A} (view : FindReplace → V) (hview : Env → U)
    (P : Event → bool) (m : M Env A) : Prop :=
  ∀ w, match m w with
       | Ok _ w' | Faulted _ w' =>
           view (panel w') = view (panel w)
           ∧ hview (host w') = hview (host w)
           ∧ List.filter P (trace w') = List.filter P (trace w)
       end.

(** A view of the host that none of the calls of the panel changes. *)
Record host_keeps {U} (hview : Env → U) : Prop := {
  kept_by_SaveTabContent : ∀ env, hview (SaveTabContent env) = hview env;
  kept_by_OpenResourceAndWaitUntilLoaded :
    ∀ r p env, hview (OpenResourceAndWaitUntilLoaded r p env) = hview env;
  kept_by_SelectResources :
    ∀ l env, hview (SelectResources l env) = hview env;
  kept_by_FindNext :
    ∀ regex d m i wr mk env,
      hview (Searchable_FindNext regex d m i wr mk env).2 = hview env;
  kept_by_ReplaceSelected :
    ∀ regex r d c env,
      hview (Searchable_ReplaceSelected regex r d c env).2 = hview env;
  kept_by_ReplaceAll :
    ∀ regex r d wr mk env,
      hview (Searchable_ReplaceAll regex r d wr mk env).2 = hview env;
  kept_by_ReplaceInAllFiles :
    ∀ regex r files env,
      hview (SearchOperations_ReplaceInAllFiles regex r files env).2
      = hview env;
  kept_by_SetModified : ∀ b env, hview (SetModified b env) = hview env;
  kept_by_ContentChangedExternally :
    ∀ env, hview (ContentChangedExternally env) = hview env;
}.

(** The world a run ends in, whether it returned or faulted. *)
Definition final {A} (res : Result Env A) : World Env :=
  match res with
  | Ok _ w' | Faulted _ w' => w'
  end.

End with_host.

Arguments keeps Env {V U A} view hview P m.
Arguments host_keeps Env {_ U} hview.

End Frame.

(** ** The histories of the two combo boxes *)

Module History.

Open Scope Z_scope.

(** The loop of [GetPreviousFindStrings] and [GetPreviousReplaceStrings]:
    an item is appended unless the list holds it already. *)
Fixpoint append_new (strings items : list QString) : list QString :=
  match items with
  | [] => strings
  | item :: items' =>
      if bool_decide (item ∈ strings) then append_new strings items'
      else append_new (strings ++ [item]) items'
  end.

(** [FindReplace::GetPreviousFindStrings]; [maxCount] is the combo box's
    property of this name. *)
Definition GetPreviousFindStrings (maxCount : Z) (fr : FindReplace)
  : list QString :=
  let count := Z.of_nat (length (cbFind_history fr)) in
  append_new [] (take (Z.to_nat (Z.min count maxCount)) (cbFind_history fr)).

(** [FindReplace::GetPreviousReplaceStrings]. *)
Definition GetPreviousReplaceStrings (maxCount : Z) (fr : FindReplace)
  : list QString :=
  let count := Z.of_nat (length (cbReplace_history fr)) in
  append_new [] (take (Z.to_nat (Z.min count maxCount)) (cbReplace_history fr)).

End History.

(** ** Buttons and in-file shortcuts *)

Module Shortcuts.

Import Frame.

Open Scope Z_scope.

Section with_host.
Context {Env : Type} `{!Host Env}.

Local Abbreviation M := (M Env).

(** [FindReplace::SetKeyModifiers]; [control_pressed] is
    [QApplication::keyboardModifiers() & Qt::ControlModifier]. *)
Definition SetKeyModifiers (control_pressed : bool) : M unit :=
  modify_panel (set_m_LookWhereCurrentFile control_pressed).

Definition ResetKeyModifiers : M unit :=
  modify_panel (set_m_LookWhereCurrentFile false).

Definition FindClicked (control_pressed : bool) (fuel : nat) : M unit :=
  SetKeyModifiers control_pressed;;
  _ ← Find fuel;
  ResetKeyModifiers.

Definition ReplaceClicked (control_pressed : bool) (fuel : nat) : M unit :=
  SetKeyModifiers control_pressed;;
  _ ← Replace fuel;
  ResetKeyModifiers.

Definition ReplaceAllClicked (control_pressed : bool) : M unit :=
  SetKeyModifiers control_pressed;;
  _ ← ReplaceAll;
  ResetKeyModifiers.

Definition CountClicked (control_pressed : bool) : M unit :=
  SetKeyModifiers control_pressed;;
  _ ← Count;
  ResetKeyModifiers.

Definition FindNextInFile (fuel : nat) : M unit :=
  modify_panel (set_m_LookWhereCurrentFile true);;
  _ ← FindText fuel Direction_Down;
  modify_panel (set_m_LookWhereCurrentFile false).

Definition ReplaceNextInFile (fuel : nat) : M unit :=
  modify_panel (set_m_LookWhereCurrentFile true);;
  _ ← ReplaceText fuel Direction_Down false;
  modify_panel (set_m_LookWhereCurrentFile false).

Definition ReplaceAllInFile : M unit :=
  modify_panel (set_m_LookWhereCurrentFile true);;
  _ ← ReplaceAll;
  modify_panel (set_m_LookWhereCurrentFile false).

Definition CountInFile : M unit :=
  modify_panel (set_m_LookWhereCurrentFile true);;
  _ ← Count;
  modify_panel (set_m_LookWhereCurrentFile false).

(** The calls that reach beyond the current tab: opening a resource,
    selecting resources, testing a resource for a match, and the bulk
    count and replacement over files. *)
Definition is_leaving (ev : Event) : bool :=
  match ev with
  | EvOpenResourceAndWaitUntilLoaded _ _ | EvSelectResources _
  | EvResourceContainsCurrentRegex _ | EvCountInFiles _ _
  | EvReplaceInAllFiles _ _ _ => true
  | _ => false
  end.

Definition leaving (tr : list Event) : list Event := List.filter is_leaving tr.

(** A computation stays in the file when, run with
    [m_LookWhereCurrentFile] set, it keeps the user's inputs and makes no
    call that reaches beyond the current tab. *)
Definition within_file {A} (m : M A) : Prop :=
  ∀ w, m_LookWhereCurrentFile (panel w) = true →
       match m w with
       | Ok _ w' | Faulted _ w' =>
           inputs (panel w') = inputs (panel w)
           ∧ leaving (trace w') = leaving (trace w)
       end.

End with_host.

Arguments within_file Env {A} m.

End Shortcuts.

(** ** Saved searches *)

Module Saved.

Open Scope Z_scope.

(** Modelled from the spec: a saved search entry of the Search Editor
    ([SearchEditorModel::searchEntry], declared outside the sources at
    hand), with the members this file reads and writes.  [find] and
    [replace] may be null strings, which [UpdatePreviousFindStrings] tells
    from empty ones. *)
Record searchEntry := {
  name : QString;
  is_group : bool;
  find : option QString;
  replace : option QString;
  controls : QString;
}.

Definition set_name (v : QString) (e : searchEntry) : searchEntry :=
  {| name := v; is_group := is_group e; find := find e;
     replace := replace e; controls := controls e |}.

(** [QString::replace(QChar before, const QString &after)]. *)
Fixpoint replace_char (before : QChar) (after : QString) (s : QString)
  : QString :=
  match s with
  | [] => []
  | c :: s' =>
      if bool_decide (c = before) then after ++ replace_char before after s'
      else c :: replace_char before after s'
  end.

(** [QString::left]. *)
Definition left (n : nat) (s : QString) : QString := take n s.

Definition less_than : QChar := 60%N.
Definition greater_than : QChar := 62%N.

Section with_host.
Context {Env : Type} `{!Host Env}.

Local Abbreviation M := (M Env).

(** [FindReplace::SaveSearchAction]; the entry handed to
    [OpenSearchEditorRequest] is the result. *)
Definition SaveSearchAction : M searchEntry :=
  fr ← get_panel;
  mret ({| name := lit "Unnamed Search"; is_group := false;
           find := Some (cbFind_text fr); replace := Some (cbReplace_text fr);
           controls := GetControls fr |}).

(** [FindReplace::LoadSearch].  The entry is the caller's: the result is
    the entry as the call leaves it, its name rewritten in place by
    [QString::replace]. *)
Definition LoadSearch (search_entry : option searchEntry)
  : M (option searchEntry) :=
  match search_entry with
  | None => clearMessage;; mret None
  | Some entry =>
      UpdatePreviousFindStrings (find entry);;
      UpdatePreviousReplaceStrings (replace entry);;
      modify_panel (UpdateSearchControls (controls entry));;
      (* Show a message containing the name that was loaded *)
      let message := lit "Unnamed search loaded" in
      if negb (isEmpty (name entry)) then
        let name' :=
          replace_char greater_than (lit "&gt;")
            (replace_char less_than (lit "&lt;") (name entry)) in
        let message := lit "Loaded" ++ lit ": " ++ left 50 name' ++ lit " " in
        ShowMessage message;;
        mret (Some (set_name name' entry))
      else
        ShowMessage message;;
        mret (Some entry)
  end.

End with_host.

End Saved.

(** ** State beside the host

    Some operations of the panel work on state that is neither the panel's
    nor the book's: the persisted settings, the Search Editor's entries.
    Such state rides along with the host's as the second component of a
    pair; the host's own calls leave it alone. *)

Module Beside.

Section with_host.
Context {Env X : Type} `{!Host Env}.

#[export] Instance beside_host : Host (Env * X) := {|
  GetAllHTMLResources ex := GetAllHTMLResources ex.1;
  GetValidSelectedHTMLResources ex := GetValidSelectedHTMLResources ex.1;
  GetTabbedHTMLResources ex := GetTabbedHTMLResources ex.1;
  GetAllCSSResources ex := GetAllCSSResources ex.1;
  GetValidSelectedCSSResources ex := GetValidSelectedCSSResources ex.1;
  GetTabbedCSSResources ex := GetTabbedCSSResources ex.1;
  GetOPFResource ex := GetOPFResource ex.1;
  GetNCXResource ex := GetNCXResource ex.1;
  GetLoadedResource ex := GetLoadedResource ex.1;
  GetSearchableContent ex := GetSearchableContent ex.1;
  Type_ ex := Type_ ex.1;
  GetRelativePath ex := GetRelativePath ex.1;
  TextLength ex := TextLength ex.1;
  ContainsRegex ex := ContainsRegex ex.1;
  Searchable_Count ex := Searchable_Count ex.1;
  SearchOperations_CountInFiles ex := SearchOperations_CountInFiles ex.1;
  SaveTabContent ex := (SaveTabContent ex.1, ex.2);
  OpenResourceAndWaitUntilLoaded r position ex :=
    (OpenResourceAndWaitUntilLoaded r position ex.1, ex.2);
  SelectResources l ex := (SelectResources l ex.1, ex.2);
  Searchable_FindNext regex direction misspelled ignore_offset wrap marked ex :=
    let r := Searchable_FindNext regex direction misspelled ignore_offset
               wrap marked ex.1 in
    (r.1, (r.2, ex.2));
  Searchable_ReplaceSelected regex replacement direction replace_current ex :=
    let r := Searchable_ReplaceSelected regex replacement direction
               replace_current ex.1 in
    (r.1, (r.2, ex.2));
  Searchable_ReplaceAll regex replacement direction wrap marked ex :=
    let r := Searchable_ReplaceAll regex replacement direction wrap marked
               ex.1 in
    (r.1, (r.2, ex.2));
  SearchOperations_ReplaceInAllFiles regex replacement files ex :=
    let r := SearchOperations_ReplaceInAllFiles regex replacement files ex.1 in
    (r.1, (r.2, ex.2));
  SetModified b ex := (SetModified b ex.1, ex.2);
  ContentChangedExternally ex := (ContentChangedExternally ex.1, ex.2);
|}.

(** Reading and writing the state beside the host. *)
Definition get_beside : M (Env * X) X := λ w, Ok (host w).2 w.
Definition modify_beside (f : X → X) : M (Env * X) unit := λ w,
  Ok () {| panel := panel w; host := ((host w).1, f (host w).2);
           trace := trace w |}.

End with_host.

End Beside.

(** ** Persisted settings *)

Module Persisted.

Import History Beside.

Open Scope Z_scope.

(** Modelled from the spec: the group ["find_replace"] of the settings
    store ([SettingsStore], declared outside the sources at hand), a
    key-value store.  Every key this file uses holds the value last written
    under it, or nothing; a value read back is of the type it was written
    with. *)
Record SettingsStore := {
  find_strings : option (list QString);
  replace_strings : option (list QString);
  search_mode : option Z;
  look_where : option Z;
  search_direction : option Z;
  regexoptiondotall : option bool;
  regexoptionminimalmatch : option bool;
  regexoptionautotokenise : option bool;
  optionwrap : option bool;
  visible : option bool;
  advanced_visible : option bool;
}.

(** [QStringList::removeDuplicates]: the first occurrence of a string
    stays. *)
Definition removeDuplicates (l : list QString) : list QString := append_new [] l.

(** [ui.cbFind->clear(); ui.cbFind->addItems(strings)] on an editable combo
    box: the items are replaced, and the line edit shows the first of them,
    or nothing when there is none. *)
Definition cbFind_refill (strings : list QString) (fr : FindReplace)
  : FindReplace :=
  set_cbFind_text (default [] (head strings)) (set_cbFind_history strings fr).

Definition cbReplace_refill (strings : list QString) (fr : FindReplace)
  : FindReplace :=
  set_cbReplace_text (default [] (head strings))
    (set_cbReplace_history strings fr).

(** The controls of the panel: mode, scope, direction and the four
    options. *)
Definition controls_view (fr : FindReplace)
  : SearchMode * LookWhere * SearchDirection * (bool * bool * bool * bool) :=
  (GetSearchMode fr, GetLookWhere fr, GetSearchDirection fr,
   (m_RegexOptionDotAll fr, m_RegexOptionMinimalMatch fr,
    m_RegexOptionAutoTokenise fr, m_OptionWrap fr)).

Section with_host.
Context {Env : Type} `{!Host Env}.

Local Abbreviation M := (M (Env * SettingsStore)).

(** [FindReplace::ReadSettings]: the statements between [beginGroup] and
    [endGroup], applied to the panel in their order. *)
Definition apply_settings (settings : SettingsStore) (fr : FindReplace)
  : FindReplace :=
  (* Find and Replace history *)
  let find_strings := removeDuplicates (default [] (find_strings settings)) in
  let fr := cbFind_refill find_strings fr in
  let replace_strings :=
    removeDuplicates (default [] (replace_strings settings)) in
  let fr := cbReplace_refill replace_strings fr in
  let fr := SetSearchMode (default 0 (search_mode settings)) fr in
  let fr := SetLookWhere (default 0 (look_where settings)) fr in
  let fr := SetSearchDirection (default 0 (search_direction settings)) fr in
  let regexOptionDotAll := default false (regexoptiondotall settings) in
  let fr := SetRegexOptionDotAll regexOptionDotAll fr in
  let regexOptionMinimalMatch :=
    default false (regexoptionminimalmatch settings) in
  let fr := SetRegexOptionMinimalMatch regexOptionMinimalMatch fr in
  let regexOptionAutoTokenise :=
    default false (regexoptionautotokenise settings) in
  let fr := SetRegexOptionAutoTokenise regexOptionAutoTokenise fr in
  let optionWrap := default true (optionwrap settings) in
  SetOptionWrap optionWrap fr.

Definition ReadSettings : M unit :=
  settings ← get_beside;
  modify_panel (apply_settings settings).

(** The values [WriteSettings] stores for a panel. *)
Definition written (maxCount : Z) (fr : FindReplace)
    (settings : SettingsStore) : SettingsStore :=
  {| find_strings := Some (GetPreviousFindStrings maxCount fr);
     replace_strings := Some (GetPreviousReplaceStrings maxCount fr);
     search_mode := Some (SearchMode_int (GetSearchMode fr));
     look_where := Some (LookWhere_int (GetLookWhere fr));
     search_direction := Some (SearchDirection_int (GetSearchDirection fr));
     regexoptiondotall := Some (m_RegexOptionDotAll fr);
     regexoptionminimalmatch := Some (m_RegexOptionMinimalMatch fr);
     regexoptionautotokenise := Some (m_RegexOptionAutoTokenise fr);
     optionwrap := Some (m_OptionWrap fr);
     visible := visible settings;
     advanced_visible := advanced_visible settings |}.

(** [FindReplace::WriteSettings]; [maxCount] is the property of this name
    of the two combo boxes.  Each check box is read through the member it
    is kept equal to. *)
Definition WriteSettings (maxCount : Z) : M unit :=
  fr ← get_panel;
  modify_beside (written maxCount fr).

(** The settings the three special searches force. *)
Definition force_regex_search : M unit :=
  modify_panel (SetSearchMode (SearchMode_int SearchMode_Regex));;
  modify_panel (SetLookWhere (LookWhere_int LookWhere_AllHTMLFiles));;
  modify_panel (SetSearchDirection (SearchDirection_int SearchDirection_Down));;
  modify_panel (SetRegexOptionDotAll true);;
  modify_panel (SetRegexOptionMinimalMatch true);;
  modify_panel (SetOptionWrap true).

(** [FindReplace::FindAnyText]. *)
Definition FindAnyText (maxCount : Z) (fuel : nat) (text : QString)
    (escape_ : bool) : M bool :=
  SetCodeViewIfNeeded true;;
  WriteSettings maxCount;;
  force_regex_search;;
  let search_text :=
    if escape_ then escape text
    else text ++ lit "(?![^<>]*>)(?!.*<body[^>]*>)" in
  modify_panel (set_cbFind_text search_text);;
  found ← FindNext fuel;
  ReadSettings;;
  (* Show the search term in case it's needed *)
  modify_panel (set_cbFind_text search_text);;
  mret found.

(** [FindReplace::FindAnyTextInTags]. *)
Definition FindAnyTextInTags (maxCount : Z) (fuel : nat) (text : QString)
  : M unit :=
  SetCodeViewIfNeeded true;;
  WriteSettings maxCount;;
  force_regex_search;;
  let text :=
    text ++ [40; 63; 61; 91; 94; 60; 93; 42; 62; 41; 40; 63; 33; 40; 63;
             58; 91; 94; 60; 34; 93; 42; 34; 91; 94; 60; 34; 93; 42; 34;
             41; 43; 92; 115; 42; 47; 63; 62; 41]%N in
  modify_panel (set_cbFind_text text);;
  _ ← FindNext fuel;
  ReadSettings.

(** [FindReplace::FindMisspelledWord]. *)
Definition FindMisspelledWord (maxCount : Z) (fuel : nat) : M bool :=
  clearMessage;;
  SetCodeViewIfNeeded true;;
  modify_panel (set_m_SpellCheck true);;
  WriteSettings maxCount;;
  (* Only files, direction, wrap are checked for misspelled searches *)
  modify_panel (SetLookWhere (LookWhere_int LookWhere_AllHTMLFiles));;
  modify_panel (SetSearchDirection (SearchDirection_int SearchDirection_Down));;
  modify_panel (SetOptionWrap true);;
  found ← FindInAllFiles fuel Direction_Down;
  ReadSettings;;
  modify_panel (set_m_SpellCheck false);;
  (if (found : bool) then clearMessage else CannotFindSearchTerm);;
  mret found.

End with_host.

End Persisted.

(** ** Searches run from the Search Editor *)

Module Batch.

Import Shortcuts Saved Beside.

Open Scope Z_scope.

(** Modelled from the spec: the Search Editor behind [m_MainWindow]
    (declared outside the sources at hand).  [current_entries] is what
    [SearchEditorGetCurrentEntries] returns, null pointers included, each
    entry a distinct object; [completed] lists the entries handed to
    [SearchEditorRecordEntryAsCompleted], in the order of the calls, each by
    its place in [current_entries]. *)
Record SearchEditor := {
  current_entries : list (option searchEntry);
  completed : list nat;
}.

Definition set_entry (i : nat) (search_entry : option searchEntry)
    (editor : SearchEditor) : SearchEditor :=
  {| current_entries := <[i := search_entry]> (current_entries editor);
     completed := completed editor |}.

Definition SearchEditorRecordEntryAsCompleted (i : nat)
    (editor : SearchEditor) : SearchEditor :=
  {| current_entries := current_entries editor;
     completed := completed editor ++ [i] |}.

Section with_host.
Context {Env : Type} `{!Host Env}.

Local Abbreviation M := (M (Env * SearchEditor)).

(** [LoadSearch(search_entry)] for the entry at place [i]: what the call
    writes to the entry is written to the Search Editor's object. *)
Definition load_entry (i : nat) (search_entry : option searchEntry) : M unit :=
  search_entry ← LoadSearch search_entry;
  modify_beside (set_entry i search_entry).

(** The [foreach] loop of [FindSearch] and of [ReplaceSearch], which
    differ in the operation only; [i] is the place of the first entry of
    [search_entries]. *)
Fixpoint until_found (operation : M bool) (i : nat)
    (search_entries : list (option searchEntry)) : M unit :=
  match search_entries with
  | [] => mret ()
  | search_entry :: rest =>
      load_entry i search_entry;;
      found ← operation;
      if (found : bool) then mret ()    (* break; *)
      else
        modify_beside (SearchEditorRecordEntryAsCompleted i);;
        until_found operation (S i) rest
  end.

(** [FindReplace::FindSearch]. *)
Definition FindSearch (control_pressed : bool) (fuel : nat) : M unit :=
  editor ← get_beside;
  let search_entries := current_entries editor in
  if bool_decide (search_entries = []) then
    ShowMessage (lit "No searches selected")
  else
    SetKeyModifiers control_pressed;;
    modify_panel (set_m_IsSearchGroupRunning true);;
    until_found (Find fuel) 0 search_entries;;
    modify_panel (set_m_IsSearchGroupRunning false);;
    ResetKeyModifiers.

(** [FindReplace::ReplaceCurrentSearch]: the branch that is compiled. *)
Definition ReplaceCurrentSearch (fuel : nat) : M unit :=
  editor ← get_beside;
  let search_entries := current_entries editor in
  match search_entries with
  | [] => ShowMessage (lit "No searches selected")
  | search_entry :: _ =>
      modify_panel (set_m_IsSearchGroupRunning true);;
      load_entry 0 search_entry;;
      _ ← ReplaceCurrent fuel;
      modify_panel (set_m_IsSearchGroupRunning false)
  end.

(** [FindReplace::ReplaceSearch]. *)
Definition ReplaceSearch (control_pressed : bool) (fuel : nat) : M unit :=
  editor ← get_beside;
  let search_entries := current_entries editor in
  if bool_decide (search_entries = []) then
    ShowMessage (lit "No searches selected")
  else
    SetKeyModifiers control_pressed;;
    modify_panel (set_m_IsSearchGroupRunning true);;
    until_found (Replace fuel) 0 search_entries;;
    modify_panel (set_m_IsSearchGroupRunning false);;
    ResetKeyModifiers.

(** The loop of [CountAllSearch]: [count += Count();] on an [int]. *)
Fixpoint count_all (i : nat) (search_entries : list (option searchEntry))
    (count : Z) : M Z :=
  match search_entries with
  | [] => mret count
  | search_entry :: rest =>
      load_entry i search_entry;;
      n ← Count;
      count_all (S i) rest (int_add count n)
  end.

(** [FindReplace::CountAllSearch]. *)
Definition CountAllSearch (control_pressed : bool) : M unit :=
  editor ← get_beside;
  let search_entries := current_entries editor in
  if bool_decide (search_entries = []) then
    ShowMessage (lit "No searches selected")
  else
    SetKeyModifiers control_pressed;;
    modify_panel (set_m_IsSearchGroupRunning true);;
    count ← count_all 0 search_entries 0;
    modify_panel (set_m_IsSearchGroupRunning false);;
    (if bool_decide (count = 0) then CannotFindSearchTerm
     else if bool_decide (count > 0)
          then ShowMessage (tr_n "Matches found: " count)
     else mret ());;
    ResetKeyModifiers.

(** The loop of [ReplaceAllSearch]. *)
Fixpoint replace_all (i : nat) (search_entries : list (option searchEntry))
    (count : Z) : M Z :=
  match search_entries with
  | [] => mret count
  | search_entry :: rest =>
      load_entry i search_entry;;
      n ← ReplaceAll;
      modify_beside (SearchEditorRecordEntryAsCompleted i);;
      replace_all (S i) rest (int_add count n)
  end.

(** [FindReplace::ReplaceAllSearch]. *)
Definition ReplaceAllSearch (control_pressed : bool) : M unit :=
  editor ← get_beside;
  let search_entries := current_entries editor in
  if bool_decide (search_entries = []) then
    ShowMessage (lit "No searches selected")
  else
    SetKeyModifiers control_pressed;;
    modify_panel (set_m_IsSearchGroupRunning true);;
    count ← replace_all 0 search_entries 0;
    modify_panel (set_m_IsSearchGroupRunning false);;
    (if bool_decide (count = 0) then ShowMessage (lit "No replacements made")
     else ShowMessage (tr_n "Replacements made: " count));;
    ResetKeyModifiers.

End with_host.

End Batch.

(** ** Tokenising a find text *)

Module Tokenise.

(** A character literal of the C++ source. *)
Definition chr (a : ascii) : QChar := N_of_ascii a.

(** [text.replace(QRegularExpression("\\R"), after)]: as [replace_R], with
    [after] for every newline sequence. *)
Fixpoint replace_newlines (after text : QString) : QString :=
  match text with
  | [] => []
  | c :: rest =>
      if bool_decide (c = CR) then
        match rest with
        | d :: rest' =>
            if bool_decide (d = LF) then after ++ replace_newlines after rest'
            else after ++ replace_newlines after rest
        | [] => after
        end
      else if is_newline_unit c then after ++ replace_newlines after rest
      else c :: replace_newlines after rest
  end.

(** [QString::replace(before, after)] for a [before] of two units, a
    backslash and [c]: the occurrences are taken left to right and do not
    overlap. *)
Fixpoint replace_escaped (c : QChar) (after text : QString) : QString :=
  match text with
  | [] => []
  | a :: rest =>
      match rest with
      | b :: rest' =>
          if bool_decide (a = backslash) && bool_decide (b = c)
          then after ++ replace_escaped c after rest'
          else a :: replace_escaped c after rest
      | [] => [a]
      end
  end.

(** PCRE's [\s] and [\d] as [QRegularExpression] compiles them without
    [UseUnicodePropertiesOption]: the white space and the digits of
    ASCII. *)
Definition is_space_unit (c : QChar) : bool :=
  bool_decide (c = 9 ∨ c = 10 ∨ c = 11 ∨ c = 12 ∨ c = 13 ∨ c = 32)%N.

Definition is_digit_unit (c : QChar) : bool :=
  bool_decide (48 ≤ c ∧ c ≤ 57)%N.

(** [text.replace(QRegularExpression(re), after)] for an [re] that
    matches [least] units of a class or more, greedily: the matches are
    the maximal runs of the class that are long enough.  [run] is the run
    read so far; [after] holds no back-reference. *)
Definition close_run (least : nat) (after run : QString) : QString :=
  if bool_decide (least ≤ length run)%nat then after else run.

Fixpoint replace_runs (class : QChar → bool) (least : nat)
    (after run text : QString) : QString :=
  match text with
  | [] => close_run least after run
  | c :: rest =>
      if class c then replace_runs class least after (run ++ [c]) rest
      else close_run least after run
             ++ c :: replace_runs class least after [] rest
  end.

(** [FindReplace::TokeniseForRegex]. *)
Definition TokeniseForRegex (text : QString) (includeNumerics : bool)
  : QString :=
  let new_text := text in
  (* Convert any form of newline or tabs to multiple spaces *)
  let new_text := replace_newlines (lit "  ") new_text in
  (* "\\t" is a backslash and the letter t *)
  let new_text := replace_escaped (chr "t") (lit "  ") new_text in
  (* If the text does not contain a backslash we "assume" it has not been
     tokenised already so we need to escape it *)
  let new_text :=
    if negb (contains new_text [backslash]) then escape new_text
    else new_text in
  (* Restore some characters for readability *)
  let new_text := replace_escaped (chr " ") (lit " ") new_text in
  let new_text := replace_escaped (chr "<") (lit "<") new_text in
  let new_text := replace_escaped (chr ">") (lit ">") new_text in
  let new_text := replace_escaped (chr "/") (lit "/") new_text in
  let new_text := replace_escaped (chr ";") (lit ";") new_text in
  let new_text := replace_escaped (chr ":") (lit ":") new_text in
  let new_text := replace_escaped (chr "&") (lit "&") new_text in
  let new_text := replace_escaped (chr "=") (lit "=") new_text in
  (* Replace multiple spaces *)
  let new_text :=
    replace_runs is_space_unit 2 (backslash :: lit "s+") [] new_text in
  if includeNumerics then
    (* Replace numerics. *)
    replace_runs is_digit_unit 1 (backslash :: lit "d+") [] new_text
  else new_text.

(** No two neighbours of [text] are both of the class. *)
Fixpoint no_adjacent (class : QChar → bool) (text : QString) : bool :=
  match text with
  | [] => true
  | a :: rest =>
      match rest with
      | b :: _ => negb (class a && class b) && no_adjacent class rest
      | [] => true
      end
  end.

(** The characters [TokeniseForRegex] shows unescaped: letters, the
    underscore and the eight it restores. *)
Definition is_restored (c : QChar) : bool :=
  bool_decide (c ∈ lit " <>/;:&=").

Definition is_letter (c : QChar) : bool :=
  bool_decide ((97 ≤ c ∧ c ≤ 122) ∨ (65 ≤ c ∧ c ≤ 90) ∨ c = 95)%N.

(** A text with a backslash in front of the units that [escaped] holds. *)
Definition with_backslashes (escaped : QChar → bool) (text : QString)
  : QString :=
  flat_map (λ c, if escaped c then [backslash; c] else [c]) text.

End Tokenise.

(** * Theorems *)

(** ** Strings *)

Section QStr_facts.

Lemma startsWith_app p s : startsWith (p ++ s) p = true.
Proof.
  induction p as [|c p IH]; simpl; [done|].
  by rewrite bool_decide_eq_true_2.
Qed.

Lemma startsWith_true s p : startsWith s p = true → s = p ++ drop (length p) s.
Proof.
  revert s. induction p as [|c p IH]; intros [|d s]; simpl; try done.
  intros [Hc Hs]%andb_true_iff. apply bool_decide_eq_true in Hc as ->.
  f_equal. by apply IH.
Qed.

Lemma startsWith_iff s p : startsWith s p = true ↔ ∃ rest, s = p ++ rest.
Proof.
  split.
  - intros Hs. eexists. by apply startsWith_true.
  - intros [rest ->]. apply startsWith_app.
Qed.

End QStr_facts.

(** ** Regex composer *)

Section Regex_facts.

Lemma Prepend_UCP option rest :
  PrependRegexOptionToSearch option (REGEX_OPTION_UCP ++ rest)
  = REGEX_OPTION_UCP ++ option ++ rest.
Proof.
  unfold PrependRegexOptionToSearch. rewrite startsWith_app.
  unfold mid. by rewrite drop_app_length.
Qed.

Lemma Prepend_no_UCP option search :
  startsWith search REGEX_OPTION_UCP = false →
  PrependRegexOptionToSearch option search = option ++ search.
Proof. unfold PrependRegexOptionToSearch. by intros ->. Qed.

Lemma Prepend_fold_UCP options rest :
  foldl (λ search option, PrependRegexOptionToSearch option search)
        (REGEX_OPTION_UCP ++ rest) options
  = REGEX_OPTION_UCP ++ concat (reverse options) ++ rest.
Proof.
  revert rest. induction options as [|o options IH]; intros rest; cbn [foldl].
  - done.
  - rewrite Prepend_UCP, IH, reverse_cons, concat_app. cbn [concat].
    by rewrite app_nil_r, <-!(assoc_L (++)).
Qed.

End Regex_facts.

(** C4: a directive is inserted right behind a leading ["(*UCP)"], never in
    front of it, so whatever directives are inserted and in whatever order,
    ["(*UCP)"] stays the first token; a search text that does not begin
    with ["(*UCP)"] gets the directive at its front. *)
Theorem PrependRegexOptionToSearch_UCP_stays_first :
  (∀ option rest,
     PrependRegexOptionToSearch option (REGEX_OPTION_UCP ++ rest)
     = REGEX_OPTION_UCP ++ option ++ rest)
  ∧ (∀ options rest,
       foldl (λ search option, PrependRegexOptionToSearch option search)
             (REGEX_OPTION_UCP ++ rest) options
       = REGEX_OPTION_UCP ++ concat (reverse options) ++ rest)
  ∧ (∀ option search,
       startsWith search REGEX_OPTION_UCP = false →
       PrependRegexOptionToSearch option search = option ++ search).
Proof.
  split_and!.
  - apply Prepend_UCP.
  - apply Prepend_fold_UCP.
  - apply Prepend_no_UCP.
Qed.

Example ignore_case_goes_behind_UCP :
  PrependRegexOptionToSearch REGEX_OPTION_IGNORE_CASE (lit "(*UCP)\bcaf")
  = lit "(*UCP)(?i)\bcaf".
Proof. reflexivity. Qed.

Lemma PrependRegexOptionToSearch_UCP_stays_first_witness :
  startsWith (lit "colou?r") REGEX_OPTION_UCP = false
  ∧ PrependRegexOptionToSearch REGEX_OPTION_DOT_ALL (lit "colou?r")
    = lit "(?s)colou?r".
Proof.
  split; [reflexivity|].
  apply (proj2 (proj2 PrependRegexOptionToSearch_UCP_stays_first)).
  reflexivity.
Defined.

Section GetSearchRegex_facts.

Lemma replace_R_cons c rest :
  replace_R (c :: rest)
  = if bool_decide (c = CR) then
      match rest with
      | d :: rest' =>
          if bool_decide (d = LF) then LF :: replace_R rest'
          else LF :: replace_R rest
      | [] => [LF]
      end
    else if is_newline_unit c then LF :: replace_R rest
    else c :: replace_R rest.
Proof. done. Qed.

(** After the normalisation LF is the only newline unit left. *)
Lemma replace_R_only_LF text :
  Forall (λ c, is_newline_unit c = true → c = LF) (replace_R text).
Proof.
  assert (∀ n text, (length text ≤ n)%nat →
            Forall (λ c, is_newline_unit c = true → c = LF) (replace_R text))
    as Hn; [|by eapply Hn].
  clear text. induction n as [|n IH]; intros [|c rest] Hlen;
    try (simpl in Hlen; lia); try by constructor.
  rewrite replace_R_cons. simpl in Hlen.
  case_bool_decide.
  - destruct rest as [|d rest']; [by repeat constructor|].
    simpl in Hlen. case_bool_decide; constructor; try done; apply IH; simpl; lia.
  - destruct (is_newline_unit c) eqn:Hc; constructor; try done;
      try (apply IH; lia).
    intros Hc'. congruence.
Qed.

(** On a text without surrogates [escape] works unit by unit: a word unit
    is kept, every other unit gets a backslash. *)
Lemma escape_units str :
  Forall (λ c, isHighSurrogate c = false) str →
  escape str
  = str ≫= λ c, if bool_decide (c = 0%N) then [backslash; 48%N]
                 else if is_word_unit c then [c] else [backslash; c].
Proof.
  induction 1 as [|c str Hc _ IH]; [reflexivity|].
  rewrite bind_cons, <-IH. simpl. rewrite Hc.
  repeat case_bool_decide; try done; by destruct (is_word_unit c).
Qed.

Lemma escape_head str :
  escape str = [] ∨ ∃ c rest, escape str = c :: rest
                              ∧ (c = backslash ∨ is_word_unit c = true).
Proof.
  destruct str as [|c rest]; [by left|right]. simpl.
  repeat case_bool_decide; try destruct (is_word_unit c) eqn:?;
    try destruct (isHighSurrogate c); try destruct rest; eauto.
Qed.

Lemma escape_not_UCP str : startsWith (escape str) REGEX_OPTION_UCP = false.
Proof.
  destruct (escape_head str) as [->|(c & rest & -> & Hc)]; [done|].
  cbn. destruct Hc as [->|Hc]; [done|].
  apply andb_false_intro1, bool_decide_eq_false. intros <-. done.
Qed.

Lemma option_not_UCP o rest :
  o = REGEX_OPTION_DOT_ALL ∨ o = REGEX_OPTION_MINIMAL_MATCH
  ∨ o = REGEX_OPTION_IGNORE_CASE →
  startsWith (o ++ rest) REGEX_OPTION_UCP = false.
Proof. by intros [->|[->| ->]]. Qed.

Lemma GetSearchRegex_Normal fr :
  m_SpellCheck fr = false → GetSearchMode fr = SearchMode_Normal →
  GetSearchRegex fr
  = REGEX_OPTION_IGNORE_CASE ++ escape (replace_R (cbFind_text fr)).
Proof.
  intros Hs Hm. unfold GetSearchRegex. rewrite Hs, Hm. simpl.
  apply Prepend_no_UCP, escape_not_UCP.
Qed.

Lemma GetSearchRegex_Case_Sensitive fr :
  m_SpellCheck fr = false → GetSearchMode fr = SearchMode_Case_Sensitive →
  GetSearchRegex fr = escape (replace_R (cbFind_text fr)).
Proof. intros Hs Hm. unfold GetSearchRegex. by rewrite Hs, Hm. Qed.

Lemma GetSearchRegex_Regex fr :
  m_SpellCheck fr = false → GetSearchMode fr = SearchMode_Regex →
  ∃ ucp body,
    replace_R (cbFind_text fr) = ucp ++ body
    ∧ (ucp = REGEX_OPTION_UCP
       ∨ ucp = [] ∧ startsWith body REGEX_OPTION_UCP = false)
    ∧ GetSearchRegex fr
      = ucp
        ++ (if m_RegexOptionMinimalMatch fr
            then REGEX_OPTION_MINIMAL_MATCH else [])
        ++ (if m_RegexOptionDotAll fr then REGEX_OPTION_DOT_ALL else [])
        ++ body.
Proof.
  intros Hs Hm. unfold GetSearchRegex. rewrite Hs, Hm. simpl.
  destruct (startsWith (replace_R (cbFind_text fr)) REGEX_OPTION_UCP) eqn:Hu.
  - apply startsWith_iff in Hu as [body Hb]. rewrite Hb.
    exists REGEX_OPTION_UCP, body. split_and!; [done|by left|].
    destruct (m_RegexOptionDotAll fr), (m_RegexOptionMinimalMatch fr);
      rewrite ?Prepend_UCP; by rewrite ?app_nil_l.
  - exists [], (replace_R (cbFind_text fr)). split_and!; [done|by right|].
    destruct (m_RegexOptionDotAll fr), (m_RegexOptionMinimalMatch fr);
      rewrite ?(Prepend_no_UCP _ (replace_R _)) by done;
      rewrite ?Prepend_no_UCP by (apply option_not_UCP; auto);
      by rewrite ?app_nil_l.
Qed.

End GetSearchRegex_facts.

(** C5, as the code has it: during a spell-check search
    [GetSearchRegex] is the empty string.  Outside one it normalises the
    newline sequences of the find text to LF, then
    - in Normal mode escapes the text and puts ["(?i)"] in front,
    - in Case Sensitive mode escapes the text and adds no directive,
    - in Regex mode leaves the text unescaped and inserts ["(?s)"] and
      ["(?U)"] exactly when their flags are set (behind a leading
      ["(*UCP)"]), and no other directive. *)
Theorem GetSearchRegex_by_mode (fr : FindReplace) :
  (m_SpellCheck fr = true → GetSearchRegex fr = [])
  ∧ (m_SpellCheck fr = false →
     let text := replace_R (cbFind_text fr) in
     Forall (λ c, is_newline_unit c = true → c = LF) text
     ∧ (GetSearchMode fr = SearchMode_Normal →
        GetSearchRegex fr = REGEX_OPTION_IGNORE_CASE ++ escape text)
     ∧ (GetSearchMode fr = SearchMode_Case_Sensitive →
        GetSearchRegex fr = escape text)
     ∧ (GetSearchMode fr = SearchMode_Regex →
        ∃ ucp body,
          text = ucp ++ body
          ∧ (ucp = REGEX_OPTION_UCP
             ∨ ucp = [] ∧ startsWith body REGEX_OPTION_UCP = false)
          ∧ GetSearchRegex fr
            = ucp
              ++ (if m_RegexOptionMinimalMatch fr
                  then REGEX_OPTION_MINIMAL_MATCH else [])
              ++ (if m_RegexOptionDotAll fr then REGEX_OPTION_DOT_ALL else [])
              ++ body)).
Proof.
  split.
  - intros Hs. unfold GetSearchRegex. by rewrite Hs.
  - intros Hs text. split_and!.
    + apply replace_R_only_LF.
    + by apply GetSearchRegex_Normal.
    + by apply GetSearchRegex_Case_Sensitive.
    + by apply GetSearchRegex_Regex.
Qed.

Lemma GetSearchRegex_by_mode_witness :
  let fr := set_cbFind_text [97; 46; 13; 10; 98; 8233]%N Demo.fresh_panel in
  m_SpellCheck fr = false
  ∧ GetSearchMode fr = SearchMode_Normal
  ∧ GetSearchRegex fr = lit "(?i)a\." ++ [92; 10; 98; 92; 10]%N.
Proof.
  intros fr. split; [reflexivity|]. split; [reflexivity|].
  apply (proj1 (proj2 (proj2 (GetSearchRegex_by_mode fr) eq_refl))).
  reflexivity.
Defined.

(** During a spell-check search the guard at the top of [GetSearchRegex]
    returns the empty string: in Normal mode no ["(?i)"] is then put in
    front of the escaped find text. *)
Lemma GetSearchRegex_SpellCheck_counterexample :
  let fr := set_m_SpellCheck true (set_cbFind_text (lit "cat") Demo.fresh_panel) in
  GetSearchMode fr = SearchMode_Normal
  ∧ GetSearchRegex fr = []
  ∧ GetSearchRegex fr
    ≠ REGEX_OPTION_IGNORE_CASE ++ escape (replace_R (cbFind_text fr)).
Proof. split_and!; done. Qed.

(** ** Control string *)

Section Controls_facts.

(** The control string of given settings. *)
Let controls_of (m : SearchMode) (da mm at_ wr : bool) (d : SearchDirection)
    (w : LookWhere) : QString :=
  GetControls
    (SetSearchMode (SearchMode_int m)
       (SetSearchDirection (SearchDirection_int d)
          (SetLookWhere (LookWhere_int w)
             (set_m_RegexOptionDotAll da
                (set_m_RegexOptionMinimalMatch mm
                   (set_m_RegexOptionAutoTokenise at_
                      (set_m_OptionWrap wr Demo.fresh_panel))))))).

Lemma GetControls_settings fr :
  GetControls fr
  = controls_of (GetSearchMode fr) (m_RegexOptionDotAll fr)
      (m_RegexOptionMinimalMatch fr) (m_RegexOptionAutoTokenise fr)
      (m_OptionWrap fr) (GetSearchDirection fr) (GetLookWhere fr).
Proof.
  unfold controls_of, GetControls at 1.
  destruct (GetSearchMode fr), (m_RegexOptionDotAll fr),
    (m_RegexOptionMinimalMatch fr), (m_RegexOptionAutoTokenise fr),
    (m_OptionWrap fr), (GetSearchDirection fr), (GetLookWhere fr);
    reflexivity.
Qed.

Lemma UpdateSearchControls_controls_of m da mm at_ wr d w fr' :
  let fr'' := UpdateSearchControls (controls_of m da mm at_ wr d w) fr' in
  GetSearchMode fr'' = m ∧ GetLookWhere fr'' = w
  ∧ GetSearchDirection fr'' = d
  ∧ m_RegexOptionDotAll fr'' = da ∧ m_RegexOptionMinimalMatch fr'' = mm
  ∧ m_RegexOptionAutoTokenise fr'' = at_ ∧ m_OptionWrap fr'' = wr.
Proof.
  destruct m, da, mm, at_, wr, d, w; vm_compute; by split_and!.
Qed.

End Controls_facts.

Example controls_of_fresh_panel :
  GetControls Demo.fresh_panel = lit "NL WR DN CF".
Proof. reflexivity. Qed.

Example controls_parsed :
  let fr := UpdateSearchControls (lit "RX DA UP SH") Demo.fresh_panel in
  GetSearchMode fr = SearchMode_Regex
  ∧ GetLookWhere fr = LookWhere_SelectedHTMLFiles
  ∧ GetSearchDirection fr = SearchDirection_Up
  ∧ m_RegexOptionDotAll fr = true ∧ m_OptionWrap fr = false.
Proof. by split_and!. Qed.

(** C6: parsing the control string of any settings into any panel
    restores the mode, the scope, the direction and the four flags the
    string was made from. *)
Theorem UpdateSearchControls_GetControls (fr fr' : FindReplace) :
  let fr'' := UpdateSearchControls (GetControls fr) fr' in
  GetSearchMode fr'' = GetSearchMode fr
  ∧ GetLookWhere fr'' = GetLookWhere fr
  ∧ GetSearchDirection fr'' = GetSearchDirection fr
  ∧ m_RegexOptionDotAll fr'' = m_RegexOptionDotAll fr
  ∧ m_RegexOptionMinimalMatch fr'' = m_RegexOptionMinimalMatch fr
  ∧ m_RegexOptionAutoTokenise fr'' = m_RegexOptionAutoTokenise fr
  ∧ m_OptionWrap fr'' = m_OptionWrap fr.
Proof.
  rewrite GetControls_settings. apply UpdateSearchControls_controls_of.
Qed.

(** ** Scope resolver *)

Section Scope_facts.
Context {Env : Type} `{!Host Env}.

Lemma split_first (x : ResourcePtr) (l : list ResourcePtr) :
  x ∈ l → ∃ before after, l = before ++ x :: after ∧ x ∉ before.
Proof.
  induction l as [|y l IH]; [by intros ?%elem_of_nil|].
  destruct (decide (y = x)) as [->|Hne].
  - intros _. exists [], l. split; [done|]. apply not_elem_of_nil.
  - intros [?|Hin]%elem_of_cons; [congruence|].
    destruct (IH Hin) as (before & after & -> & Hnot).
    exists (y :: before), after. split; [done|].
    intros [?|?]%elem_of_cons; congruence.
Qed.

Lemma up_to_current_split current before after :
  current ∉ before →
  up_to_current current (before ++ current :: after) = before ++ [current].
Proof.
  induction before as [|y before IH]; intros Hnot; simpl.
  - by rewrite bool_decide_eq_true_2.
  - apply not_elem_of_cons in Hnot as [Hne Hnot].
    rewrite bool_decide_eq_false_2 by congruence. by rewrite IH.
Qed.

Lemma from_current_keep current l : from_current true current l = l.
Proof. induction l as [|y l IH]; simpl; [done|by rewrite IH]. Qed.

Lemma from_current_split current before after :
  current ∉ before →
  from_current false current (before ++ current :: after) = current :: after.
Proof.
  induction before as [|y before IH]; intros Hnot; simpl.
  - rewrite bool_decide_eq_true_2 by done. by rewrite from_current_keep.
  - apply not_elem_of_cons in Hnot as [Hne Hnot].
    rewrite bool_decide_eq_false_2 by congruence. by apply IH.
Qed.

Lemma GetFilesToSearch_all fr env :
  m_OptionWrap fr = true ∨ (GetCurrentResource env ∉ scoped_resources fr env) →
  GetFilesToSearch fr env = scoped_resources fr env.
Proof.
  unfold GetFilesToSearch. intros [->|Hnot]; [done|].
  rewrite (bool_decide_eq_false_2 _ Hnot). by rewrite orb_true_r.
Qed.

Lemma GetFilesToSearch_part fr env before after :
  m_OptionWrap fr = false →
  scoped_resources fr env = before ++ GetCurrentResource env :: after →
  GetCurrentResource env ∉ before →
  GetFilesToSearch fr env
  = match GetSearchDirection fr with
    | SearchDirection_Up => before ++ [GetCurrentResource env]
    | SearchDirection_Down => GetCurrentResource env :: after
    end.
Proof.
  intros Hw Hall Hnot. unfold GetFilesToSearch. rewrite Hw, Hall.
  rewrite bool_decide_eq_true_2 by (apply elem_of_app; right; left).
  simpl. destruct (GetSearchDirection fr); simpl.
  - by apply from_current_split.
  - by apply up_to_current_split.
Qed.

End Scope_facts.

(** C3: with wrap on, or with the current resource outside the scoped
    list, [GetFilesToSearch] is the scoped list itself; with wrap off and
    the current resource in the list, it is the part of the list up to and
    including the current resource when the direction is Up, and the part
    from the current resource on when the direction is Down. *)
Theorem GetFilesToSearch_wrap_and_direction
    {Env : Type} `{!Host Env} (fr : FindReplace) (env : Env) :
  let all_resources := scoped_resources fr env in
  let current_resource := GetCurrentResource env in
  (m_OptionWrap fr = true ∨ (current_resource ∉ all_resources) →
   GetFilesToSearch fr env = all_resources)
  ∧ (m_OptionWrap fr = false → current_resource ∈ all_resources →
     ∃ before after,
       all_resources = before ++ current_resource :: after
       ∧ (current_resource ∉ before)
       ∧ (GetSearchDirection fr = SearchDirection_Up →
          GetFilesToSearch fr env = before ++ [current_resource])
       ∧ (GetSearchDirection fr = SearchDirection_Down →
          GetFilesToSearch fr env = current_resource :: after)).
Proof.
  intros all_resources current_resource. split.
  - apply GetFilesToSearch_all.
  - intros Hw Hin.
    destruct (split_first _ _ Hin) as (before & after & Hall & Hnot).
    exists before, after. split_and!; [done..| |];
      intros Hd; rewrite (GetFilesToSearch_part fr env before after) by done;
      by rewrite Hd.
Qed.

Lemma GetFilesToSearch_wrap_and_direction_witness :
  let fr := Demo.searching "cat" LookWhere_AllHTMLFiles SearchDirection_Up false in
  let env := Demo.book 1 [] [] in
  m_OptionWrap fr = false
  ∧ GetCurrentResource env ∈ scoped_resources fr env
  ∧ ∃ before after,
      scoped_resources fr env = before ++ GetCurrentResource env :: after
      ∧ (GetCurrentResource env ∉ before)
      ∧ (GetSearchDirection fr = SearchDirection_Up →
         GetFilesToSearch fr env = before ++ [GetCurrentResource env])
      ∧ (GetSearchDirection fr = SearchDirection_Down →
         GetFilesToSearch fr env = GetCurrentResource env :: after).
Proof.
  intros fr env.
  assert (GetCurrentResource env ∈ scoped_resources fr env) as Hin
    by (apply (bool_decide_unpack _); exact I).
  split; [reflexivity|]. split; [exact Hin|].
  exact (proj2 (GetFilesToSearch_wrap_and_direction fr env) eq_refl Hin).
Defined.

(** ** The monad *)

Section Monad_facts.
Context {Env : Type} `{!Host Env}.

Lemma bind_Ok {A B} (m : M Env A) (f : A → M Env B) w a w' :
  m w = Ok a w' → (m ≫= f) w = f a w'.
Proof. unfold mbind, M_bind. by intros ->. Qed.

Lemma bind_Faulted {A B} (m : M Env A) (f : A → M Env B) w e w' :
  m w = Faulted e w' → (m ≫= f) w = Faulted e w'.
Proof. unfold mbind, M_bind. by intros ->. Qed.

End Monad_facts.

(** Runs the monad's plumbing on a world that is given as a record. *)
Ltac run :=
  repeat (progress
            (unfold mbind, M_bind, mret, M_ret, get_panel, get_host,
               modify_panel, emit, call, call_, scan, fault, deref,
               first_, last_, ResourceContainsCurrentRegex; cbn)).

(** ** Cross-document cursor *)

Section Cursor_facts.
Context {Env : Type} `{!Host Env}.
Implicit Types (fr : FindReplace) (env : Env) (l : list ResourcePtr).

Lemma list_find_same_path env l i x :
  (∀ a b, GetRelativePath env a = GetRelativePath env b → a = b) →
  NoDup l → l !! i = Some (Some x) →
  list_find (same_path env x) l = Some (i, Some x).
Proof.
  intros Hinj Hnd Hi. apply list_find_Some. split_and!; [done| |].
  - simpl. by apply bool_decide_pack.
  - intros j [y|] Hj Hlt; simpl; [|by intros []].
    intros Hp%bool_decide_unpack%Hinj. subst y.
    pose proof (NoDup_lookup _ _ _ _ Hnd Hi Hj). lia.
Qed.

Lemma GetNextResource_index fr env direction i x :
  (∀ a b, GetRelativePath env a = GetRelativePath env b → a = b) →
  NoDup (GetFilesToSearch fr env) →
  GetFilesToSearch fr env !! i = Some (Some x) →
  GetNextResource fr env (Some x) direction
  = default None
      (GetFilesToSearch fr env
         !! Z.to_nat (next_reading_order direction
                        (Z.of_nat (length (GetFilesToSearch fr env)))
                        (Z.of_nat i))).
Proof.
  intros Hinj Hnd Hi. unfold GetNextResource.
  rewrite (list_find_same_path env _ i x) by done.
  pose proof (lookup_lt_Some _ _ _ Hi) as Hlt.
  unfold next_reading_order.
  repeat case_bool_decide; try done; exfalso; lia.
Qed.

End Cursor_facts.

Section Loop_facts.
Context {Env : Type} `{!Host Env}.
Implicit Types (fr : FindReplace) (env : Env) (tr : list Event).

Lemma moves_back_range direction n s i :
  (0 ≤ s < n)%Z → (0 ≤ i < n)%Z →
  (1 ≤ moves_back direction n s i ≤ n)%Z
  ∧ (moves_back direction n s i = 1
     ↔ next_reading_order direction n i = s)%Z
  ∧ (0 ≤ next_reading_order direction n i < n)%Z
  ∧ (next_reading_order direction n i ≠ s →
     moves_back direction n s (next_reading_order direction n i)
     = moves_back direction n s i - 1)%Z
  ∧ (moves_back direction n s s = n)%Z.
Proof.
  unfold moves_back, next_reading_order. intros Hs Hi.
  repeat case_bool_decide; lia.
Qed.

Lemma containing_loop_step fuel direction starting x fr env tr :
  containing_loop (S fuel) direction starting (Some x) false
    {| panel := fr; host := env; trace := tr |}
  = let next := GetNextResource fr env (Some x) direction in
    if bool_decide (next = starting) && negb (m_OptionWrap fr)
    then Ok None {| panel := fr; host := env; trace := tr |}
    else
      match next with
      | Some resource =>
          let w' := {| panel := fr; host := env;
                       trace := tr ++ [EvResourceContainsCurrentRegex resource] |} in
          if ContainsRegex env (GetSearchRegex fr) resource then Ok next w'
          else containing_loop fuel direction starting next
                 (bool_decide (next = starting)) w'
      | None => Ok None {| panel := fr; host := env; trace := tr |}
      end.
Proof.
  cbn. run. destruct (bool_decide _ && _); [done|].
  destruct (GetNextResource _ _ _ _); [|done].
  run. by destruct (ContainsRegex _ _ _).
Qed.

Lemma containing_loop_passed fuel direction starting fr env tr :
  containing_loop fuel direction starting starting true
    {| panel := fr; host := env; trace := tr |}
  = Ok None {| panel := fr; host := env; trace := tr |}.
Proof. destruct fuel; cbn; by rewrite bool_decide_eq_true_2. Qed.

End Loop_facts.

Section Traversal.
Context {Env : Type} `{!Host Env}.
Variables (fr : FindReplace) (env : Env) (direction : Direction).

Let L := GetFilesToSearch fr env.
Let n := Z.of_nat (length L).
Let world tr : World Env := {| panel := fr; host := env; trace := tr |}.

Hypothesis Hinj :
  ∀ a b, GetRelativePath env a = GetRelativePath env b → a = b.
Hypothesis Hnd : NoDup L.
Hypothesis Hnull : None ∉ L.

(** From any position of the list the loop is back at the starting
    resource after [moves_back] moves at most, and has by then tested every
    resource it moved to once; under wrap the last one is the starting
    resource itself. *)
Lemma containing_loop_spec (s : nat) (xs : Resource) :
  L !! s = Some (Some xs) →
  ∀ fuel i x tr,
    L !! i = Some (Some x) →
    (moves_back direction n (Z.of_nat s) (Z.of_nat i) ≤ Z.of_nat fuel)%Z →
    ∃ result tested,
      containing_loop fuel direction (Some xs) (Some x) false (world tr)
      = Ok result (world (tr ++ tests tested))
      ∧ (Z.of_nat (length tested)
         ≤ moves_back direction n (Z.of_nat s) (Z.of_nat i)
           - (if m_OptionWrap fr then 0 else 1))%Z
      ∧ (m_OptionWrap fr = true → result = None → last tested = Some xs)
      ∧ (∀ r, result = Some r →
           ContainsRegex env (GetSearchRegex fr) r = true ∧ Some r ∈ L).
Proof.
  intros Hs.
  pose proof (lookup_lt_Some _ _ _ Hs) as Hslt.
  induction fuel as [|fuel IH]; intros i x tr Hi Hfuel;
    pose proof (lookup_lt_Some _ _ _ Hi) as Hilt;
    destruct (moves_back_range direction n (Z.of_nat s) (Z.of_nat i))
      as (Hd & Hone & Hnext & Hdec & _); try (subst n; lia).
  unfold world. rewrite containing_loop_step. cbn zeta.
  rewrite (GetNextResource_index fr env direction i x) by done.
  fold L n.
  set (j := Z.to_nat (next_reading_order direction n (Z.of_nat i))) in *.
  assert (j < length L)%nat as Hj by (subst j n; lia).
  destruct (lookup_lt_is_Some_2 _ _ Hj) as [[y|] Hy]; rewrite Hy; simpl;
    [|by destruct Hnull; eapply list_elem_of_lookup_2].
  assert (Z.of_nat j = next_reading_order direction n (Z.of_nat i)) as Hjz
    by (subst j; lia).
  destruct (decide (j = s)) as [->|Hjs].
  - (* back at the starting resource *)
    assert (y = xs) as -> by congruence.
    rewrite bool_decide_eq_true_2 by done. simpl.
    destruct (m_OptionWrap fr) eqn:Hw; simpl.
    + destruct (ContainsRegex env (GetSearchRegex fr) xs) eqn:Hc.
      * exists (Some xs), [xs]. split_and!; [done|simpl; lia|done|].
        intros r [= <-]. split; [done|]. by eapply list_elem_of_lookup_2.
      * rewrite containing_loop_passed.
        exists None, [xs]. split_and!; [done|simpl; lia|done|done].
    + exists None, []. split_and!; [by rewrite app_nil_r|simpl; lia|done..].
  - (* any other resource *)
    assert (Some y ≠ Some xs) as Hne.
    { intros [= ->]. by pose proof (NoDup_lookup _ _ _ _ Hnd Hy Hs). }
    rewrite !bool_decide_eq_false_2 by done. simpl.
    assert (moves_back direction n (Z.of_nat s) (Z.of_nat j)
            = moves_back direction n (Z.of_nat s) (Z.of_nat i) - 1)%Z as Hm.
    { rewrite Hjz. apply Hdec. lia. }
    assert (moves_back direction n (Z.of_nat s) (Z.of_nat i) ≠ 1)%Z as Hge
      by (rewrite Hone; lia).
    destruct (ContainsRegex env (GetSearchRegex fr) y) eqn:Hc.
    + exists (Some y), [y]. split_and!; [done| |done|].
      * simpl. destruct (m_OptionWrap fr); lia.
      * intros r [= <-]. split; [done|]. by eapply list_elem_of_lookup_2.
    + destruct (IH j y (tr ++ [EvResourceContainsCurrentRegex y]) Hy)
        as (result & tested & Hrun & Hlen & Hlast & Hres); [lia|].
      exists result, (y :: tested). split_and!.
      * unfold world in Hrun. rewrite Hrun. unfold world, tests.
        by rewrite fmap_cons, <-(assoc_L (++)).
      * simpl length. lia.
      * intros Hw Hr. specialize (Hlast Hw Hr).
        destruct tested; [done|]. by rewrite last_cons, Hlast.
      * done.
Qed.

End Traversal.

Section Catalog_facts.
Context {Env : Type} `{!Host Env}.
Implicit Types (fr : FindReplace) (env : Env).

Lemma GetFilesToSearch_cases fr env :
  GetFilesToSearch fr env = scoped_resources fr env
  ∨ ∃ before after,
      scoped_resources fr env = before ++ GetCurrentResource env :: after
      ∧ (GetFilesToSearch fr env = before ++ [GetCurrentResource env]
         ∨ GetFilesToSearch fr env = GetCurrentResource env :: after).
Proof.
  destruct (m_OptionWrap fr) eqn:Hw;
    [left; apply GetFilesToSearch_all; by left|].
  destruct (decide (GetCurrentResource env ∈ scoped_resources fr env))
    as [Hin|Hnot]; [|left; apply GetFilesToSearch_all; by right].
  destruct (split_first _ _ Hin) as (before & after & Hall & Hb).
  right. exists before, after. split; [done|].
  rewrite (GetFilesToSearch_part fr env before after) by done.
  destruct (GetSearchDirection fr); auto.
Qed.

Lemma GetFilesToSearch_NoDup fr env :
  NoDup (scoped_resources fr env) → NoDup (GetFilesToSearch fr env).
Proof.
  intros Hnd.
  destruct (GetFilesToSearch_cases fr env)
    as [->|(before & after & Hall & [-> | ->])]; [done|..];
    rewrite Hall in Hnd.
  - apply NoDup_app in Hnd as (Hb & Hdisj & Ha).
    apply NoDup_app. split_and!; [done| |apply NoDup_singleton].
    intros x Hx [->|[]%elem_of_nil]%elem_of_cons.
    apply (Hdisj _ Hx). by left.
  - by apply NoDup_app in Hnd as (_ & _ & Ha).
Qed.

Lemma GetFilesToSearch_subseteq fr env x :
  x ∈ GetFilesToSearch fr env → x ∈ scoped_resources fr env.
Proof.
  destruct (GetFilesToSearch_cases fr env)
    as [->|(before & after & -> & [-> | ->])]; [done|..].
  - rewrite !elem_of_app, !elem_of_cons, elem_of_nil. tauto.
  - rewrite elem_of_app. tauto.
Qed.

Lemma GetFilesToSearch_current fr env :
  GetCurrentResource env ∈ scoped_resources fr env →
  GetCurrentResource env ∈ GetFilesToSearch fr env.
Proof.
  destruct (GetFilesToSearch_cases fr env)
    as [->|(before & after & _ & [-> | ->])]; [done|..]; intros _.
  - apply elem_of_app. right. by left.
  - by left.
Qed.

Lemma IsCurrentFileInSelection_elem fr env c :
  (∀ a b, GetRelativePath env a = GetRelativePath env b → a = b) →
  GetCurrentResource env = Some c →
  IsCurrentFileInSelection fr env = true ↔ Some c ∈ GetFilesToSearch fr env.
Proof.
  intros Hinj Hc. unfold IsCurrentFileInSelection. rewrite Hc.
  rewrite bool_decide_eq_true. split.
  - intros [[i [y|]] Hf]; apply list_find_Some in Hf as (Hi & Hp & _);
      simpl in Hp; [|done].
    apply bool_decide_unpack, Hinj in Hp as ->.
    by eapply list_elem_of_lookup_2.
  - intros Hin. eapply list_find_elem_of; [done|].
    simpl. by apply bool_decide_pack.
Qed.

End Catalog_facts.

#[global] Arguments GetFilesToSearch : simpl never.
#[global] Arguments IsCurrentFileInSelection : simpl never.
#[global] Arguments GetNextResource : simpl never.
#[global] Arguments GetSearchRegex : simpl never.
#[global] Arguments GetControls : simpl never.
#[global] Arguments GetCurrentResource : simpl never.
#[global] Arguments scoped_resources : simpl never.
#[global] Arguments isWhereHTML : simpl never.
#[global] Arguments isWhereCSS : simpl never.
#[global] Arguments isWhereOPF : simpl never.
#[global] Arguments isWhereNCX : simpl never.
#[global] Arguments isWhereCF : simpl never.
#[global] Arguments isWhereSelected : simpl never.
#[global] Arguments IsMarkedText : simpl never.
#[global] Arguments IsValidFindText : simpl never.
#[global] Arguments IsNewSearch : simpl never.
#[global] Arguments SetPreviousSearch : simpl never.
#[global] Arguments GetSearchDirection : simpl never.
#[global] Arguments GetSearchableDirection : simpl never.
#[global] Arguments containing_loop : simpl never.
#[global] Arguments lit : simpl never.
#[global] Arguments tr_n : simpl never.

(** Case analysis on the scope and on the type of the current resource,
    in the order [GetNextContainingResource] tests them. *)
Ltac split_scope fr env c :=
  destruct (isWhereHTML fr); cbn;
  destruct (bool_decide (Type_ env c = HTMLResourceType)); cbn;
  destruct (isWhereCSS fr); cbn;
  destruct (bool_decide (Type_ env c = CSSResourceType)); cbn;
  destruct (isWhereOPF fr); cbn;
  destruct (bool_decide (Type_ env c = OPFResourceType)); cbn;
  destruct (isWhereNCX fr); cbn;
  destruct (bool_decide (Type_ env c = NCXResourceType)); cbn.

Section Seed_facts.
Context {Env : Type} `{!Host Env}.
Implicit Types (fr : FindReplace) (env : Env) (tr : list Event).

Lemma GetNextContainingResource_unfold fuel direction fr env tr c :
  GetCurrentResource env = Some c →
  GetNextContainingResource fuel direction
    {| panel := fr; host := env; trace := tr |}
  = let w := {| panel := fr; host := env; trace := tr |} in
    let resources := GetFilesToSearch fr env in
    let starting := starting_resource fr env direction in
    if bool_decide (resources = []) then Ok None w
    else if bool_decide (length resources = 1%nat) && negb (m_OptionWrap fr)
    then
      if IsCurrentFileInSelection fr env then Ok None w
      else
        match starting with
        | Some r =>
            Ok (if ContainsRegex env (GetSearchRegex fr) r
                then Some r else None)
               {| panel := fr; host := env;
                  trace := tr ++ tests [r] |}
        | None => Ok None w
        end
    else containing_loop fuel direction starting starting false w.
Proof.
  intros Hc. unfold GetNextContainingResource, starting_resource, where_and_type.
  run. rewrite Hc. run.
  assert (GetFilesToSearch fr env = []
          ∨ ∃ y l z, GetFilesToSearch fr env = y :: l ∧ last (y :: l) = Some z)
    as [HL|(y & l & z & HL & Hz)].
  { destruct (GetFilesToSearch fr env) as [|y l]; [by left|right].
    destruct (last (y :: l)) eqn:Hl; [eauto|]. by apply last_None in Hl. }
  - rewrite HL. split_scope fr env c; done.
  - rewrite HL, Hz.
    rewrite (bool_decide_eq_false_2 (y :: l = [])) by done.
    split_scope fr env c;
      destruct (isWhereSelected fr), (IsCurrentFileInSelection fr env),
        (bool_decide (direction = Direction_Up)); cbn;
      destruct (bool_decide (S (length l) = 1%nat) && negb (m_OptionWrap fr));
      try done.
    all: try (destruct y as [y|]; [|done]).
    all: try (destruct z as [z|]; [|done]).
    all: run; by destruct (ContainsRegex env (GetSearchRegex fr) _).
Qed.

Lemma files_no_null fr env :
  None ∉ scoped_resources fr env → None ∉ GetFilesToSearch fr env.
Proof. intros Hn Hin. by apply Hn, GetFilesToSearch_subseteq. Qed.

Lemma current_in_all_scope fr env c :
  catalog_ok fr env → GetCurrentResource env = Some c →
  isWhereSelected fr = false →
  isWhereHTML fr && bool_decide (Type_ env c = HTMLResourceType)
  || isWhereCSS fr && bool_decide (Type_ env c = CSSResourceType)
  || isWhereOPF fr && bool_decide (Type_ env c = OPFResourceType)
  || isWhereNCX fr && bool_decide (Type_ env c = NCXResourceType) = true →
  Some c ∈ GetFilesToSearch fr env.
Proof.
  intros Hok Hc. rewrite <-Hc.
  unfold isWhereSelected, isWhereHTML, isWhereCSS, isWhereOPF, isWhereNCX.
  intros Hsel Hty. apply GetFilesToSearch_current. rewrite Hc.
  unfold scoped_resources.
  destruct (GetLookWhere fr); try done; cbn in Hty.
  - rewrite !orb_false_r in Hty.
    by apply bool_decide_eq_true, (all_html_complete _ _ Hok) in Hty.
  - rewrite !orb_false_r in Hty.
    by apply bool_decide_eq_true, (all_css_complete _ _ Hok) in Hty.
Qed.

Lemma starting_resource_in fr env direction :
  catalog_ok fr env → GetFilesToSearch fr env ≠ [] →
  ∃ s xs,
    starting_resource fr env direction = Some xs
    ∧ GetFilesToSearch fr env !! s = Some (Some xs).
Proof.
  intros Hok Hne.
  destruct (current_loaded _ _ Hok) as [c Hc].
  pose proof (files_no_null _ _ (scoped_no_null _ _ Hok)) as Hnull.
  assert (∀ i y, GetFilesToSearch fr env !! i = Some y →
            ∃ xs, y = Some xs) as Hsome.
  { intros i [xs|] Hi; [eauto|].
    destruct Hnull. by eapply list_elem_of_lookup_2. }
  unfold starting_resource. rewrite Hc.
  destruct (negb _ || _) eqn:Hcond.
  - destruct (bool_decide (direction = Direction_Up)).
    + destruct (GetFilesToSearch fr env) as [|y l] eqn:HL; [done|].
      destruct (Hsome 0%nat y eq_refl) as [xs ->]. by exists 0%nat, xs.
    + rewrite last_lookup.
      destruct (GetFilesToSearch fr env !! pred (length (GetFilesToSearch fr env)))
        as [y|] eqn:Hy.
      * destruct (Hsome _ y Hy) as [xs ->]. by exists (pred (length (GetFilesToSearch fr env))), xs.
      * apply lookup_ge_None in Hy.
        destruct (GetFilesToSearch fr env); [done|simpl in Hy; lia].
  - apply orb_false_iff in Hcond as [Hty Hsel].
    apply negb_false_iff in Hty.
    assert (Some c ∈ GetFilesToSearch fr env) as Hin.
    { destruct (isWhereSelected fr) eqn:Hs.
      - apply negb_false_iff in Hsel.
        by apply (IsCurrentFileInSelection_elem fr env c (paths_distinct _ _ Hok)).
      - by apply current_in_all_scope. }
    apply list_elem_of_lookup_1 in Hin as [s Hs]. by exists s, c.
Qed.

End Seed_facts.

(** C1: on a well-formed catalog [GetNextContainingResource] returns, with
    [N] units of fuel for a list of [N] files to search; with wrap off it
    makes at most [N] containment tests, with wrap on at most [N + 1] (in
    fact never more than [N]); and under wrap the search is given up (null
    is returned) only after the starting resource itself has been tested,
    as the last resource of the pass.  A returned resource is a file to
    search that passed the test. *)
Theorem GetNextContainingResource_terminates
    {Env : Type} `{!Host Env} (fr : FindReplace) (env : Env)
    (tr : list Event) (direction : Direction) (fuel : nat) :
  catalog_ok fr env →
  let N := length (GetFilesToSearch fr env) in
  (N ≤ fuel)%nat →
  ∃ result tested,
    GetNextContainingResource fuel direction
      {| panel := fr; host := env; trace := tr |}
    = Ok result {| panel := fr; host := env; trace := tr ++ tests tested |}
    ∧ (m_OptionWrap fr = false → (length tested ≤ N)%nat)
    ∧ (m_OptionWrap fr = true → (length tested ≤ N + 1)%nat)
    ∧ (length tested ≤ N)%nat
    ∧ (m_OptionWrap fr = true → result = None → N ≠ 0%nat →
       is_Some (last tested)
       ∧ last tested = starting_resource fr env direction)
    ∧ (∀ r, result = Some r →
         ContainsRegex env (GetSearchRegex fr) r = true
         ∧ Some r ∈ GetFilesToSearch fr env).
Proof.
  intros Hok N Hfuel.
  destruct (current_loaded _ _ Hok) as [c Hc].
  rewrite (GetNextContainingResource_unfold _ _ _ _ _ c Hc). cbn zeta.
  case_bool_decide as HL.
  { exists None, []. rewrite app_nil_r. subst N. rewrite HL.
    split_and!; try done; simpl; lia. }
  destruct (starting_resource_in fr env direction Hok HL)
    as (s & xs & Hstart & Hs).
  rewrite Hstart.
  destruct (bool_decide (length (GetFilesToSearch fr env) = 1%nat)
            && negb (m_OptionWrap fr)) eqn:Hone.
  - apply andb_true_iff in Hone as [Hlen%bool_decide_eq_true Hw%negb_true_iff].
    fold N in Hlen.
    destruct (IsCurrentFileInSelection fr env).
    + exists None, []. rewrite app_nil_r.
      split_and!; try done; simpl; try lia. congruence.
    + exists (if ContainsRegex env (GetSearchRegex fr) xs then Some xs else None),
        [xs].
      split_and!; try done; simpl; try lia.
      intros r. destruct (ContainsRegex env (GetSearchRegex fr) xs) eqn:Hx;
        [|done]. intros [= <-]. split; [done|]. by eapply list_elem_of_lookup_2.
  - destruct (containing_loop_spec fr env direction (paths_distinct _ _ Hok)
                (GetFilesToSearch_NoDup _ _ (scoped_NoDup _ _ Hok))
                (files_no_null _ _ (scoped_no_null _ _ Hok))
                s xs Hs fuel s xs tr Hs)
      as (result & tested & Hrun & Hlen & Hlast & Hres).
    { pose proof (lookup_lt_Some _ _ _ Hs).
      destruct (moves_back_range direction
                  (Z.of_nat (length (GetFilesToSearch fr env)))
                  (Z.of_nat s) (Z.of_nat s)) as (_ & _ & _ & _ & ->); lia. }
    pose proof (lookup_lt_Some _ _ _ Hs).
    destruct (moves_back_range direction
                (Z.of_nat (length (GetFilesToSearch fr env)))
                (Z.of_nat s) (Z.of_nat s)) as (_ & _ & _ & _ & Hn); [lia..|].
    rewrite Hn in Hlen.
    exists result, tested. subst N.
    split_and!; try done; try (destruct (m_OptionWrap fr); lia).
    intros Hw Hr _. rewrite (Hlast Hw Hr). eauto.
Qed.

(** C2: when there is exactly one file to search and wrap is off,
    [GetNextContainingResource] returns that file if and only if it
    contains a match and is not the resource of the current tab, and
    returns null otherwise; in particular it returns null when the file is
    the current resource. *)
Theorem GetNextContainingResource_single
    {Env : Type} `{!Host Env} (fr : FindReplace) (env : Env)
    (tr : list Event) (direction : Direction) (fuel : nat) (x : Resource) :
  catalog_ok fr env →
  GetFilesToSearch fr env = [Some x] →
  m_OptionWrap fr = false →
  ∃ result w',
    GetNextContainingResource fuel direction
      {| panel := fr; host := env; trace := tr |} = Ok result w'
    ∧ (result = Some x
       ↔ ContainsRegex env (GetSearchRegex fr) x = true
         ∧ GetCurrentResource env ≠ Some x)
    ∧ (result ≠ Some x → result = None)
    ∧ (GetCurrentResource env = Some x → result = None).
Proof.
  intros Hok HL Hw.
  destruct (current_loaded _ _ Hok) as [c Hc].
  rewrite (GetNextContainingResource_unfold _ _ _ _ _ c Hc). cbn zeta.
  destruct (starting_resource_in fr env direction Hok) as (s & xs & Hstart & Hs);
    [by rewrite HL|].
  pose proof (IsCurrentFileInSelection_elem fr env c
                (paths_distinct _ _ Hok) Hc) as Hsel.
  rewrite Hstart, HL, Hw in *. simpl.
  rewrite list_elem_of_singleton in Hsel.
  destruct s as [|s]; [|done]. assert (xs = x) as -> by (by injection Hs).
  destruct (IsCurrentFileInSelection fr env).
  - assert (Some c = Some x) as Hcx by by apply Hsel.
    eexists None, _. split_and!; try done. rewrite Hc. split; [done|tauto].
  - assert (Some c ≠ Some x) as Hcx by (intros ?%Hsel; done).
    eexists _, _. split; [done|]. rewrite Hc.
    destruct (ContainsRegex env (GetSearchRegex fr) x);
      split_and!; try done; try tauto.
    split; [done|]. by intros [? _].
Qed.

(** ** The small book is a well-formed catalog *)

Section Demo_facts.

Lemma book_paths_distinct (b : Demo.Book) (a a' : Resource) :
  GetRelativePath b a = GetRelativePath b a' → a = a'.
Proof.
  intros Hp. change (Demo.path_of a = Demo.path_of a') in Hp.
  unfold Demo.path_of in Hp. apply app_inv_head in Hp.
  injection Hp as Hp. by apply Nat2N.inj.
Qed.

Lemma book_all_html (b : Demo.Book) (r : Resource) :
  Type_ b r = HTMLResourceType → Some r ∈ GetAllHTMLResources b.
Proof.
  cbn. unfold Demo.type_of. repeat case_bool_decide; try done. intros _.
  destruct r as [|[|[|r]]]; [repeat constructor..|lia].
Qed.

Lemma book_all_css (b : Demo.Book) (r : Resource) :
  Type_ b r = CSSResourceType → Some r ∈ GetAllCSSResources b.
Proof.
  cbn. unfold Demo.type_of. repeat case_bool_decide; try done. intros _.
  destruct r as [|[|[|[|[|r]]]]]; try lia; repeat constructor.
Qed.

Lemma book_catalog_ok (fr : FindReplace) (b : Demo.Book) :
  is_Some (Demo.current b) →
  NoDup (scoped_resources fr b) → None ∉ scoped_resources fr b →
  catalog_ok fr b.
Proof.
  intros Hc Hnd Hnull. split; try done.
  - apply book_paths_distinct.
  - apply book_all_html.
  - apply book_all_css.
Qed.

End Demo_facts.

Lemma GetNextContainingResource_terminates_witness :
  let fr := Demo.searching "foo" LookWhere_AllHTMLFiles SearchDirection_Down true in
  let env := Demo.book 1 [] [0; 0; 0]%Z in
  catalog_ok fr env
  ∧ (length (GetFilesToSearch fr env) ≤ 3)%nat
  ∧ ∃ result tested,
      GetNextContainingResource 3 Direction_Down
        {| panel := fr; host := env; trace := [] |}
      = Ok result {| panel := fr; host := env; trace := [] ++ tests tested |}
      ∧ (m_OptionWrap fr = false →
         (length tested ≤ length (GetFilesToSearch fr env))%nat)
      ∧ (m_OptionWrap fr = true →
         (length tested ≤ length (GetFilesToSearch fr env) + 1)%nat)
      ∧ (length tested ≤ length (GetFilesToSearch fr env))%nat
      ∧ (m_OptionWrap fr = true → result = None →
         length (GetFilesToSearch fr env) ≠ 0%nat →
         is_Some (last tested)
         ∧ last tested = starting_resource fr env Direction_Down)
      ∧ (∀ r, result = Some r →
           ContainsRegex env (GetSearchRegex fr) r = true
           ∧ Some r ∈ GetFilesToSearch fr env).
Proof.
  intros fr env.
  assert (catalog_ok fr env) as Hok.
  { apply book_catalog_ok; [by eexists|..];
      by apply (bool_decide_unpack _). }
  assert (length (GetFilesToSearch fr env) ≤ 3)%nat as Hfuel
    by (apply (bool_decide_unpack _); exact I).
  split; [exact Hok|]. split; [exact Hfuel|].
  exact (GetNextContainingResource_terminates fr env [] Direction_Down 3
           Hok Hfuel).
Defined.

Lemma GetNextContainingResource_single_witness :
  let fr := Demo.searching "foo" LookWhere_SelectedHTMLFiles SearchDirection_Down false in
  let env := Demo.book 0 [2%nat] [0; 0; 4]%Z in
  catalog_ok fr env
  ∧ GetFilesToSearch fr env = [Some 2%nat]
  ∧ m_OptionWrap fr = false
  ∧ ∃ result w',
      GetNextContainingResource 0 Direction_Down
        {| panel := fr; host := env; trace := [] |} = Ok result w'
      ∧ (result = Some 2%nat
         ↔ ContainsRegex env (GetSearchRegex fr) 2%nat = true
           ∧ GetCurrentResource env ≠ Some 2%nat)
      ∧ (result ≠ Some 2%nat → result = None)
      ∧ (GetCurrentResource env = Some 2%nat → result = None).
Proof.
  intros fr env.
  assert (catalog_ok fr env) as Hok.
  { apply book_catalog_ok; [by eexists|..];
      by apply (bool_decide_unpack _). }
  split; [exact Hok|]. split; [reflexivity|]. split; [reflexivity|].
  exact (GetNextContainingResource_single fr env [] Direction_Down 0 2%nat
           Hok eq_refl eq_refl).
Defined.

(** Scenarios of the specification, run on the small book. *)

Example third_document_found :
  let fr := Demo.searching "foo" LookWhere_AllHTMLFiles SearchDirection_Down false in
  let env := Demo.book 0 [] [0; 0; 1]%Z in
  GetNextContainingResource 3 Direction_Down (Demo.world fr env)
  = Ok (Some 2%nat)
      {| panel := fr; host := env; trace := tests [1%nat; 2%nat] |}.
Proof. reflexivity. Qed.

Example sole_current_document_not_rescanned :
  let fr := Demo.searching "foo" LookWhere_OPFFile SearchDirection_Down false in
  let env := Demo.book 5 [] [0; 0; 0; 0; 0; 7]%Z in
  GetNextContainingResource 3 Direction_Down (Demo.world fr env)
  = Ok None (Demo.world fr env).
Proof. reflexivity. Qed.

(** Why the catalog has to be well formed: with a resource listed twice
    the reading order found by path never gets past it, and the loop runs
    for as long as it has fuel. *)
Example duplicate_entry_exhausts_fuel :
  let fr := Demo.searching "foo" LookWhere_SelectedHTMLFiles SearchDirection_Down true in
  let env := Demo.book 0 [1; 1; 2]%nat [0; 0; 0]%Z in
  match GetNextContainingResource 100 Direction_Down (Demo.world fr env) with
  | Faulted OutOfFuel _ => True
  | _ => False
  end.
Proof. vm_compute. exact I. Qed.

Example wrap_tests_starting_resource_last :
  let fr := Demo.searching "foo" LookWhere_AllHTMLFiles SearchDirection_Up true in
  let env := Demo.book 1 [] [0; 0; 0]%Z in
  GetNextContainingResource 3 Direction_Up (Demo.world fr env)
  = Ok None
      {| panel := fr; host := env; trace := tests [0%nat; 2%nat; 1%nat] |}.
Proof. reflexivity. Qed.

(** ** Operations that send no notification *)

Section Quiet.
Context {Env : Type} `{!Host Env}.

Lemma quiet_ret {A} (a : A) : quiet Env (mret a).
Proof. by intros w. Qed.

Lemma quiet_bind {A B} (m : M Env A) (f : A → M Env B) :
  quiet Env m → (∀ a, quiet Env (f a)) → quiet Env (m ≫= f).
Proof.
  intros Hm Hf w. unfold mbind, M_bind. specialize (Hm w).
  destruct (m w) as [a w'|e w']; [|done].
  specialize (Hf a w'). destruct (f a w'); congruence.
Qed.

Lemma quiet_fault {A} e : quiet Env (fault e : M Env A).
Proof. by intros w. Qed.

Lemma quiet_get_panel : quiet Env get_panel.
Proof. by intros w. Qed.

Lemma quiet_get_host : quiet Env get_host.
Proof. by intros w. Qed.

Lemma quiet_modify_panel f : quiet Env (modify_panel f).
Proof. by intros w. Qed.

Lemma notifications_snoc tr ev :
  notifications (tr ++ [ev])
  = notifications tr ++ (if is_notification ev then [ev] else []).
Proof. unfold notifications. rewrite List.filter_app. by destruct ev. Qed.

Lemma quiet_emit ev : is_notification ev = false → quiet Env (emit ev).
Proof.
  intros Hev w. cbn. rewrite notifications_snoc, Hev. apply app_nil_r.
Qed.

Lemma quiet_call_ ev f : is_notification ev = false → quiet Env (call_ ev f).
Proof.
  intros Hev w. cbn. rewrite notifications_snoc, Hev. apply app_nil_r.
Qed.

Lemma quiet_call {A} ev (f : Env → A * Env) :
  is_notification ev = false → quiet Env (call ev f).
Proof.
  intros Hev w. cbn. rewrite notifications_snoc, Hev. apply app_nil_r.
Qed.

Lemma quiet_scan {A} ev (f : Env → A) :
  is_notification ev = false → quiet Env (scan ev f).
Proof.
  intros Hev w. cbn. rewrite notifications_snoc, Hev. apply app_nil_r.
Qed.

Lemma quiet_deref p : quiet Env (deref p).
Proof. destruct p; [apply quiet_ret|apply quiet_fault]. Qed.

Lemma quiet_first_ l : quiet Env (first_ l).
Proof. destruct l; [apply quiet_fault|apply quiet_ret]. Qed.

Lemma quiet_last_ l : quiet Env (last_ l).
Proof. unfold last_. destruct (last l); [apply quiet_ret|apply quiet_fault]. Qed.

End Quiet.

(** Proves [quiet] of a computation built from the panel's primitives. *)
Ltac quiet_step :=
  match goal with
  | |- quiet _ (_ ≫= _) => apply quiet_bind; [|intros]
  | |- quiet _ (mret _) => apply quiet_ret
  | |- quiet _ (fault _) => apply quiet_fault
  | |- quiet _ get_panel => apply quiet_get_panel
  | |- quiet _ get_host => apply quiet_get_host
  | |- quiet _ (modify_panel _) => apply quiet_modify_panel
  | |- quiet _ (emit _) => apply quiet_emit; reflexivity
  | |- quiet _ (call_ _ _) => apply quiet_call_; reflexivity
  | |- quiet _ (call _ _) => apply quiet_call; reflexivity
  | |- quiet _ (scan _ _) => apply quiet_scan; reflexivity
  | |- quiet _ (deref _) => apply quiet_deref
  | |- quiet _ (first_ _) => apply quiet_first_
  | |- quiet _ (last_ _) => apply quiet_last_
  | |- quiet _ (if ?b then _ else _) => destruct b
  | |- quiet _ (match ?x with _ => _ end) => destruct x
  | |- quiet _ (let '(_, _) := ?x in _) => destruct x
  | H : quiet _ ?m |- quiet _ ?m => exact H
  end.

Section Quiet_operations.
Context {Env : Type} `{!Host Env}.

Lemma quiet_ShowMessage message : quiet Env (ShowMessage message).
Proof. unfold ShowMessage. repeat quiet_step. Qed.

Lemma quiet_clearMessage : quiet Env (clearMessage).
Proof. unfold clearMessage. repeat quiet_step. Qed.

Lemma quiet_GetAvailableSearchable : quiet Env (GetAvailableSearchable).
Proof.
  unfold GetAvailableSearchable.
  repeat (quiet_step || apply quiet_ShowMessage).
Qed.

Lemma quiet_SetCodeViewIfNeeded force : quiet Env (SetCodeViewIfNeeded force).
Proof. unfold SetCodeViewIfNeeded. repeat quiet_step. Qed.

Lemma quiet_SetFirstResource update_position :
  quiet Env (SetFirstResource update_position).
Proof. unfold SetFirstResource. repeat quiet_step. Qed.

Lemma quiet_new_search_reset : quiet Env (new_search_reset).
Proof.
  unfold new_search_reset.
  repeat (quiet_step || apply quiet_SetFirstResource).
Qed.

Lemma quiet_ReplaceInAllFiles : quiet Env (ReplaceInAllFiles).
Proof. unfold ReplaceInAllFiles. repeat quiet_step. Qed.

Lemma quiet_UpdatePreviousFindStrings text :
  quiet Env (UpdatePreviousFindStrings text).
Proof. apply quiet_modify_panel. Qed.

Lemma quiet_UpdatePreviousReplaceStrings text :
  quiet Env (UpdatePreviousReplaceStrings text).
Proof. apply quiet_modify_panel. Qed.

End Quiet_operations.

(** ** ReplaceAll *)

Section ReplaceAll_facts.
Context {Env : Type} `{!Host Env}.

Lemma notifies_bind_quiet {A B} (m : M Env A) (f : A → M Env B) w sent :
  quiet Env m →
  (∀ a w', notifies (f a w') (notifications (trace w')) sent) →
  notifies ((m ≫= f) w) (notifications (trace w)) sent.
Proof.
  intros Hm Hf. unfold mbind, M_bind. specialize (Hm w).
  destruct (m w) as [a w'|e w']; [|done].
  specialize (Hf a w'). by rewrite Hm in Hf.
Qed.

Lemma notifies_ret {A} (a : A) (w : World Env) sent :
  sent a = [] →
  notifies ((mret a : M Env A) w) (notifications (trace w)) sent.
Proof. intros Hs. cbn. by rewrite Hs, app_nil_r. Qed.

End ReplaceAll_facts.


Example ReplaceAll_two_matches :
  let fr := Demo.searching "foo" LookWhere_AllHTMLFiles SearchDirection_Down true in
  let env := Demo.book 1 [] [1; 0; 1]%Z in
  match ReplaceAll (Demo.world fr env) with
  | Ok count w' =>
      count = 2%Z
      ∧ notifications (trace w')
        = [EvSetModified true; EvContentChangedExternally]
      ∧ Demo.is_modified (host w') = true
  | Faulted _ _ => False
  end.
Proof. vm_compute. by split_and!. Qed.

(** ** The new-search reset *)

Section SetFirstResource_facts.
Context {Env : Type} `{!Host Env}.
Implicit Types (fr : FindReplace) (env : Env) (tr : list Event).

Lemma SetFirstResource_empty fr env tr update_position :
  in_current_file fr = false → scoped_resources fr env = [] →
  SetFirstResource update_position {| panel := fr; host := env; trace := tr |}
  = Faulted IndexOutOfRange {| panel := fr; host := env; trace := tr |}.
Proof.
  unfold in_current_file, SetFirstResource. intros Hcf Hempty.
  run. rewrite Hcf. run. rewrite Hempty. by case_bool_decide.
Qed.

Lemma SetFirstResource_nonempty fr env tr update_position :
  in_current_file fr = false → scoped_resources fr env ≠ [] →
  ∃ first_resource pos,
    SetFirstResource update_position
      {| panel := fr; host := env; trace := tr |}
    = (let position := if update_position then Some (-1, pos)%Z else None in
       Ok ()
         {| panel := fr;
            host := OpenResourceAndWaitUntilLoaded first_resource position env;
            trace := tr ++ [EvOpenResourceAndWaitUntilLoaded
                              first_resource position] |})
    ∧ Some first_resource
      = (if bool_decide (GetSearchDirection fr = SearchDirection_Down)
         then head (scoped_resources fr env)
         else last (scoped_resources fr env)).
Proof.
  unfold in_current_file, SetFirstResource. intros Hcf Hne.
  run. rewrite Hcf. run.
  destruct (scoped_resources fr env) as [|y l] eqn:HL; [done|].
  case_bool_decide; run.
  - by eexists y, _.
  - destruct (last (y :: l)) as [z|] eqn:Hz; [|by apply last_None in Hz].
    by eexists z, _.
Qed.

Lemma new_search_reset_empty fr env tr :
  IsNewSearch fr = true →
  in_current_file fr = false → scoped_resources fr env = [] →
  new_search_reset {| panel := fr; host := env; trace := tr |}
  = Faulted IndexOutOfRange {| panel := fr; host := env; trace := tr |}.
Proof.
  intros Hnew Hcf Hempty. unfold new_search_reset.
  erewrite bind_Ok by reflexivity. cbn. rewrite Hnew.
  erewrite bind_Faulted; [done|]. by apply SetFirstResource_empty.
Qed.

(** [clearMessage] touches the message label only. *)
Lemma clearMessage_run fr env tr :
  ∃ message_ tr',
    clearMessage {| panel := fr; host := env; trace := tr |}
    = Ok () {| panel := set_message message_ fr; host := env; trace := tr' |}.
Proof.
  unfold clearMessage. run. destruct (m_IsSearchGroupRunning fr); run.
  - exists (message fr), tr. by destruct fr.
  - by eexists _, _.
Qed.

End SetFirstResource_facts.

(** C9: outside the current-file modes [SetFirstResource] has no guard
    against an empty scoped list: its element access is out of range exactly
    when the catalog query of the scope is empty, and otherwise it opens the
    first (direction Down) or last (direction Up) resource of the list.  A
    new search over an empty scoped list therefore faults in [Find],
    [Replace], [Count] and [ReplaceAll]. *)
Theorem SetFirstResource_needs_nonempty_scope
    {Env : Type} `{!Host Env} (fr : FindReplace) (env : Env)
    (tr : list Event) (update_position : bool) (fuel : nat) :
  in_current_file fr = false →
  let w := {| panel := fr; host := env; trace := tr |} in
  (scoped_resources fr env = [] ↔
   SetFirstResource update_position w = Faulted IndexOutOfRange w)
  ∧ (scoped_resources fr env ≠ [] →
     ∃ first_resource position,
       SetFirstResource update_position w
       = Ok ()
           {| panel := fr;
              host := OpenResourceAndWaitUntilLoaded first_resource position env;
              trace := tr ++ [EvOpenResourceAndWaitUntilLoaded
                                first_resource position] |}
       ∧ Some first_resource
         = (if bool_decide (GetSearchDirection fr = SearchDirection_Down)
            then head (scoped_resources fr env)
            else last (scoped_resources fr env)))
  ∧ (IsNewSearch fr = true → scoped_resources fr env = [] →
     Find fuel w = Faulted IndexOutOfRange w
     ∧ Replace fuel w = Faulted IndexOutOfRange w
     ∧ (∃ w', Count w = Faulted IndexOutOfRange w')
     ∧ (scoped_resources fr (SaveTabContent env) = [] →
        ∃ w', ReplaceAll w = Faulted IndexOutOfRange w')).
Proof.
  intros Hcf w. split_and!.
  - split; [by apply SetFirstResource_empty|].
    intros Hf. destruct (decide (scoped_resources fr env = [])) as [|Hne];
      [done|].
    destruct (SetFirstResource_nonempty fr env tr update_position Hcf Hne)
      as (? & ? & Hok & _).
    subst w. by rewrite Hok in Hf.
  - intros Hne.
    destruct (SetFirstResource_nonempty fr env tr update_position Hcf Hne)
      as (first_resource & pos & Hok & Hfirst).
    by eexists first_resource, _.
  - intros Hnew Hempty. split_and!.
    + unfold Find. erewrite bind_Faulted; [done|].
      by apply new_search_reset_empty.
    + unfold Replace. erewrite bind_Faulted; [done|].
      by apply new_search_reset_empty.
    + destruct (clearMessage_run fr env tr) as (m & tr' & Hclear).
      eexists. unfold Count. erewrite bind_Ok by exact Hclear.
      erewrite bind_Faulted; [done|]. by apply new_search_reset_empty.
    + intros Hempty'.
      destruct (clearMessage_run fr (SaveTabContent env) (tr ++ [EvSaveTabContent]))
        as (m & tr' & Hclear).
      eexists. unfold ReplaceAll. erewrite bind_Ok by reflexivity.
      erewrite bind_Ok by exact Hclear.
      erewrite bind_Faulted; [done|]. by apply new_search_reset_empty.
Qed.

Lemma SetFirstResource_needs_nonempty_scope_witness :
  let fr := Demo.searching "foo" LookWhere_SelectedHTMLFiles SearchDirection_Down true in
  let w := Demo.world fr (Demo.book 1 [] [1; 1; 1]%Z) in
  in_current_file fr = false
  ∧ Find 3 w = Faulted IndexOutOfRange w.
Proof.
  intros fr w. split; [reflexivity|].
  exact (proj1 (proj2 (proj2 (SetFirstResource_needs_nonempty_scope
           fr (Demo.book 1 [] [1; 1; 1]%Z) [] true 3 eq_refl))
         eq_refl eq_refl)).
Defined.

(** ** Count *)

Section Count_facts.
Context {Env : Type} `{!Host Env}.

Lemma bind_assoc {A B C} (m : M Env A) (f : A → M Env B) (g : B → M Env C) w :
  (m ≫= λ a, f a ≫= g) w = ((m ≫= f) ≫= g) w.
Proof. unfold mbind, M_bind. by destruct (m w). Qed.

Lemma removeOne_NoDup (x : ResourcePtr) l : NoDup l → x ∉ removeOne x l.
Proof.
  induction 1 as [|y l Hy Hnd IH]; simpl; [apply not_elem_of_nil|].
  case_bool_decide as Hyx; [by subst|].
  apply not_elem_of_cons. split; [congruence|done].
Qed.

Lemma removeOne_other (x y : ResourcePtr) l :
  y ≠ x → y ∈ removeOne x l ↔ y ∈ l.
Proof.
  intros Hne. induction l as [|z l IH]; simpl; [done|].
  case_bool_decide as Hzx.
  - subst z. rewrite elem_of_cons. split; [by right|by intros [?|?]].
  - rewrite !elem_of_cons, IH. done.
Qed.

Lemma counts_app tr1 tr2 : counts (tr1 ++ tr2) = counts tr1 ++ counts tr2.
Proof. apply List.filter_app. Qed.

Lemma int_add_fits (a b : Z) :
  (- 2 ^ 31 ≤ a + b < 2 ^ 31)%Z → int_add a b = (a + b)%Z.
Proof.
  intros Hfit. unfold int_add, int_wrap.
  rewrite Z.mod_small by lia. lia.
Qed.

End Count_facts.

(** C7: a [Count] over the corpus (valid find text, not a current-file
    mode), from the world [w1] the new-search reset leaves.  With wrap on
    the result is the bulk count over all files to search and nothing else
    is counted.  With wrap off the current resource is taken out of the
    files of the bulk count, every other file stays in, and the count of
    the current tab's searchable (when the tab has one) is added once, by
    the [+=] of a 32-bit [int]: the sum itself when it fits in an [int],
    wrapped around when it does not.  The two counting calls each appear
    once in the trace. *)
Theorem Count_current_counted_once
    {Env : Type} `{!Host Env} (w w1 : World Env) :
  (clearMessage ≫= λ _, new_search_reset) w = Ok () w1 →
  let fr := panel w1 in
  let env := SaveTabContent (host w1) in
  let regex := GetSearchRegex fr in
  let files := GetFilesToSearch fr env in
  let current_resource := GetCurrentResource env in
  let in_tab :=
    Searchable_Count env regex (GetSearchableDirection fr) false false in
  IsValidFindText fr = true →
  in_current_file fr = false →
  ∃ count w',
    Count w = Ok count w'
    ∧ (m_OptionWrap fr = true →
       files = scoped_resources fr env
       ∧ count = SearchOperations_CountInFiles env regex files
       ∧ counts (trace w') = counts (trace w1) ++ [EvCountInFiles regex files])
    ∧ (m_OptionWrap fr = false →
       let bulk_files := removeOne current_resource files in
       let bulk := SearchOperations_CountInFiles env regex bulk_files in
       count = (if GetSearchableContent env then int_add bulk in_tab else bulk)
       ∧ (GetSearchableContent env = true →
          (- 2 ^ 31 ≤ bulk + in_tab < 2 ^ 31)%Z →
          count = (bulk + in_tab)%Z)
       ∧ counts (trace w')
         = counts (trace w1)
           ++ EvCountInFiles regex bulk_files
              :: (if GetSearchableContent env
                  then [EvSearchableCount regex (GetSearchableDirection fr)
                          false false]
                  else [])
       ∧ (∀ y, y ≠ current_resource → y ∈ bulk_files ↔ y ∈ files)
       ∧ (NoDup (scoped_resources fr env) → current_resource ∉ bulk_files)).
Proof.
  intros Hreset fr env regex files current_resource in_tab Hvalid Hcf.
  unfold Count. rewrite bind_assoc. erewrite bind_Ok by exact Hreset.
  destruct w1 as [fr1 env1 tr1]. cbn in fr, env. subst fr.
  unfold in_current_file in Hcf.
  apply orb_false_iff in Hcf as [[Hcf1 Hcf2]%orb_false_iff Hcf3].
  unfold SetCodeViewIfNeeded, CountInFiles, GetAvailableSearchable,
    CannotFindSearchTerm, ShowMessage, UpdatePreviousFindStrings.
  repeat (progress (run; rewrite ?Hvalid, ?Hcf1, ?Hcf2, ?Hcf3)).
  fold env. fold regex. fold current_resource. fold files. fold in_tab.
  destruct (m_OptionWrap fr1) eqn:Hw; run.
  - repeat case_bool_decide; run; eexists _, _;
      (split; [reflexivity|]); (split; [|done]); intros _;
      (split; [by apply GetFilesToSearch_all; left|]);
      (split; [reflexivity|]); cbn [trace];
      rewrite ?(assoc_L (++)), !counts_app; cbn;
      by rewrite ?app_nil_r, <-?(assoc_L (++)).
  - destruct (GetSearchableContent env) eqn:Hs; run;
      repeat case_bool_decide; run; eexists _, _;
      (split; [reflexivity|]); (split; [done|]); intros _; cbn zeta;
      (split_and!;
       [reflexivity
       |first [done | intros _ Hfit; by apply int_add_fits]
       |cbn [trace]; rewrite ?(assoc_L (++)), !counts_app; cbn;
        by rewrite ?app_nil_r, <-?(assoc_L (++))
       |intros y Hy; by apply removeOne_other
       |intros Hnd; by apply removeOne_NoDup, GetFilesToSearch_NoDup]).
Qed.

Lemma Count_current_counted_once_witness :
  let fr := Demo.continuing "foo" LookWhere_AllHTMLFiles SearchDirection_Down false in
  let w := Demo.world fr (Demo.book 1 [] [2; 3; 4]%Z) in
  ∃ count w', Count w = Ok count w' ∧ count = 7%Z.
Proof.
  intros fr w.
  destruct (Count_current_counted_once w
              {| panel := set_message [] fr;
                 host := Demo.book 1 [] [2; 3; 4]%Z;
                 trace := [EvShowMessageRequest []] |}
              eq_refl eq_refl eq_refl)
    as (count & w' & HCount & _ & Hoff).
  exists count, w'. split; [exact HCount|].
  rewrite (proj1 (Hoff eq_refl)). reflexivity.
Defined.

(** The sum of the two counts is an [int]: past [INT_MAX] it wraps around,
    and [Count] then shows neither "No matches found" nor a count. *)
Example Count_wraps_around :
  let fr := Demo.continuing "foo" LookWhere_AllHTMLFiles SearchDirection_Down false in
  let w := Demo.world fr (Demo.book 1 [] [0; 1; 2147483647]%Z) in
  match Count w with
  | Ok count w' => count = (-2147483648)%Z ∧ message (panel w') = []
  | Faulted _ _ => False
  end.
Proof. vm_compute. by split. Qed.

(** ** Replace *)

Section Replace_facts.
Context {Env : Type} `{!Host Env}.

Lemma FindText_direction fuel direction :
  (if bool_decide (direction = Direction_Up) then FindPrevious fuel
   else FindNext fuel) = (FindText fuel direction : M Env bool).
Proof. by destruct direction. Qed.

(** [ReplaceText] up to and including [searchable->ReplaceSelected]. *)
Lemma ReplaceText_ReplaceSelected fuel direction replace_current
    fr env tr :
  IsValidFindText fr = true →
  GetSearchableContent env = true →
  (in_current_file fr = true → is_Some (GetCurrentResource env)) →
  ∃ message_ tr',
    let regex := GetSearchRegex fr in
    let call_result :=
      Searchable_ReplaceSelected regex (cbReplace_text fr) direction
        replace_current env in
    let w1 :=
      {| panel := set_message message_ fr; host := call_result.2;
         trace := tr' ++ [EvSearchableReplaceSelected regex (cbReplace_text fr)
                            direction replace_current] |} in
    ReplaceText fuel direction replace_current
      {| panel := fr; host := env; trace := tr |}
    = ((if negb replace_current then FindText fuel direction
        else mret call_result.1)
       ≫= λ found,
         UpdatePreviousFindStrings None;;
         UpdatePreviousReplaceStrings None;;
         mret found) w1.
Proof.
  intros Hvalid Hs Hcur.
  destruct (clearMessage_run fr env tr) as (message_ & tr' & Hclear).
  exists message_, tr'. cbn zeta.
  unfold ReplaceText. erewrite bind_Ok by exact Hclear.
  unfold SetCodeViewIfNeeded, GetAvailableSearchable.
  assert (IsValidFindText (set_message message_ fr) = true) as Hvalid'
    by exact Hvalid.
  rewrite <-FindText_direction.
  repeat (progress (run; rewrite ?Hvalid', ?Hs)).
  destruct (m_LookWhereCurrentFile _ || isWhereCF _ || IsMarkedText _) eqn:Hcf.
  - destruct Hcur as [c Hc].
    { unfold in_current_file.
      change (isWhereCF (set_message message_ fr)) with (isWhereCF fr) in Hcf.
      change (IsMarkedText (set_message message_ fr)) with (IsMarkedText fr)
        in Hcf.
      destruct (m_LookWhereCurrentFile fr), (isWhereCF fr), (IsMarkedText fr);
        done. }
    repeat (progress (run; rewrite ?Hc, ?Hs)). done.
  - repeat (progress (run; rewrite ?Hs)). done.
Qed.

End Replace_facts.

(** C10: when the find text is valid and the tab is searchable, a
    [ReplaceText] that is not asked to stay in place returns what the
    [FindText] it chains into returns, in the same direction and from the
    world [searchable->ReplaceSelected] leaves, whatever [ReplaceSelected]
    itself returned; only with [replace_current] does it return the result
    of [ReplaceSelected].  [ReplaceNext], [ReplacePrevious] and [Replace]
    take the first path, [ReplaceCurrent] the second. *)
Theorem ReplaceText_returns_Find_result
    {Env : Type} `{!Host Env} (fuel : nat) (direction : Direction)
    (fr : FindReplace) (env : Env) (tr : list Event) :
  IsValidFindText fr = true →
  GetSearchableContent env = true →
  (in_current_file fr = true → is_Some (GetCurrentResource env)) →
  let w := {| panel := fr; host := env; trace := tr |} in
  let regex := GetSearchRegex fr in
  let ReplaceSelected replace_current :=
    Searchable_ReplaceSelected regex (cbReplace_text fr) direction
      replace_current env in
  (∃ message_ tr',
     let w1 :=
       {| panel := set_message message_ fr;
          host := (ReplaceSelected false).2;
          trace := tr' ++ [EvSearchableReplaceSelected regex
                             (cbReplace_text fr) direction false] |} in
     (∀ found w2, FindText fuel direction w1 = Ok found w2 →
        ∃ w3, ReplaceText fuel direction false w = Ok found w3)
     ∧ (∀ e w2, FindText fuel direction w1 = Faulted e w2 →
          ReplaceText fuel direction false w = Faulted e w2))
  ∧ (∃ w3, ReplaceText fuel direction true w
           = Ok (ReplaceSelected true).1 w3)
  ∧ ReplaceNext fuel = ReplaceText fuel Direction_Down false
  ∧ ReplacePrevious fuel = ReplaceText fuel Direction_Up false
  ∧ (∀ w0, new_search_reset w0 = Ok () w →
       Replace fuel w0
       = ReplaceText fuel (GetSearchableDirection fr) false w)
  ∧ ReplaceCurrent fuel w
    = ReplaceText fuel (GetSearchableDirection fr) true w.
Proof.
  intros Hvalid Hs Hcur w regex ReplaceSelected. split_and!.
  - destruct (ReplaceText_ReplaceSelected fuel direction false fr env tr
                Hvalid Hs Hcur) as (message_ & tr' & Hrun).
    exists message_, tr'. cbn zeta in *. subst w. rewrite Hrun. cbn [negb].
    split.
    + intros found w2 Hfind. erewrite bind_Ok by exact Hfind.
      unfold UpdatePreviousFindStrings, UpdatePreviousReplaceStrings. run.
      by eexists.
    + intros e w2 Hfind. by erewrite bind_Faulted by exact Hfind.
  - destruct (ReplaceText_ReplaceSelected fuel direction true fr env tr
                Hvalid Hs Hcur) as (message_ & tr' & Hrun).
    cbn zeta in *. subst w. rewrite Hrun.
    unfold UpdatePreviousFindStrings, UpdatePreviousReplaceStrings. run.
    by eexists.
  - done.
  - done.
  - intros w0 Hreset. unfold Replace. erewrite bind_Ok by exact Hreset.
    subst w. unfold GetSearchableDirection, ReplacePrevious, ReplaceNext.
    run. by case_bool_decide.
  - subst w. unfold ReplaceCurrent, GetSearchableDirection.
    run. by case_bool_decide.
Qed.

Lemma ReplaceText_returns_Find_result_witness :
  let fr := Demo.continuing "foo" LookWhere_CurrentFile SearchDirection_Down true in
  let env := Demo.set_matches [1%Z] true (Demo.book 0 [] []) in
  IsValidFindText fr = true
  ∧ GetSearchableContent env = true
  ∧ (in_current_file fr = true → is_Some (GetCurrentResource env))
  ∧ ∃ w3, ReplaceText 0 Direction_Down true (Demo.world fr env) = Ok true w3.
Proof.
  intros fr env.
  split; [reflexivity|]. split; [reflexivity|].
  split; [intros _; by eexists|].
  exact (proj1 (proj2 (ReplaceText_returns_Find_result 0 Direction_Down
                         fr env [] eq_refl eq_refl
                         (λ _, ex_intro _ 0%nat eq_refl)))).
Defined.

(** The two outcomes that tell the chained find from the replacement. *)

Example Replace_nothing_replaced_but_found :
  let fr := Demo.continuing "foo" LookWhere_CurrentFile SearchDirection_Down true in
  let env := Demo.book 0 [] [1%Z] in
  (Searchable_ReplaceSelected (GetSearchRegex fr) (cbReplace_text fr)
     Direction_Down false env).1 = false
  ∧ match Replace 0 (Demo.world fr env) with
    | Ok found _ => found = true
    | Faulted _ _ => False
    end.
Proof. vm_compute. by split. Qed.

Example Replace_replaced_but_not_found :
  let fr := Demo.continuing "foo" LookWhere_CurrentFile SearchDirection_Down true in
  let env := Demo.set_matches [1%Z] true (Demo.book 0 [] []) in
  (Searchable_ReplaceSelected (GetSearchRegex fr) (cbReplace_text fr)
     Direction_Down false env).1 = true
  ∧ match Replace 0 (Demo.world fr env) with
    | Ok found _ => found = false
    | Faulted _ _ => False
    end
  ∧ match ReplaceCurrent 0 (Demo.world fr env) with
    | Ok found _ => found = true
    | Faulted _ _ => False
    end.
Proof. vm_compute. by split_and!. Qed.

(** ** Reading order *)

Section Reading_order.
Context {Env : Type} `{!Host Env}.
Implicit Types (fr : FindReplace) (env : Env).

Lemma next_reading_order_range direction n i :
  (0 < n)%Z → (0 ≤ i < n)%Z → (0 ≤ next_reading_order direction n i < n)%Z.
Proof. unfold next_reading_order. intros. repeat case_bool_decide; lia. Qed.

Lemma next_reading_order_inverse n i :
  (0 ≤ i < n)%Z →
  next_reading_order Direction_Down n (next_reading_order Direction_Up n i) = i
  ∧ next_reading_order Direction_Up n (next_reading_order Direction_Down n i) = i.
Proof.
  unfold next_reading_order. intros. repeat case_bool_decide; try done; lia.
Qed.

(** [GetNextResource] in terms of the index it starts from. *)
Lemma GetNextResource_from fr env current_resource direction :
  ∃ i, (i = 0 ∨ i < length (GetFilesToSearch fr env))%nat
    ∧ GetNextResource fr env current_resource direction
      = if bool_decide (GetFilesToSearch fr env = []) then None
        else default None
               (GetFilesToSearch fr env
                  !! Z.to_nat (next_reading_order direction
                                 (Z.of_nat (length (GetFilesToSearch fr env)))
                                 (Z.of_nat i))).
Proof.
  unfold GetNextResource.
  set (L := GetFilesToSearch fr env).
  set (cro := match current_resource with
              | Some current =>
                  match list_find (same_path env current) L with
                  | Some (i, _) => Z.of_nat i
                  | None => 0%Z
                  end
              | None => 0%Z
              end).
  assert (∃ i, (i = 0 ∨ i < length L)%nat ∧ cro = Z.of_nat i) as (i & Hi & ->).
  { subst cro. destruct current_resource as [c|]; [|exists 0%nat; auto].
    destruct (list_find (same_path env c) L) as [[i y]|] eqn:Hf;
      [|exists 0%nat; auto].
    exists i. apply list_find_Some in Hf as (Hi%lookup_lt_Some & _). auto. }
  exists i. split; [done|]. unfold next_reading_order.
  destruct L as [|y L']; [by repeat case_bool_decide|].
  rewrite (bool_decide_eq_false_2 (y :: L' = [])) by done.
  simpl length in *. repeat case_bool_decide; try done; exfalso; lia.
Qed.

End Reading_order.

(** X1: [GetNextResource] never indexes the file list out of range: it
    returns null for an empty list and an entry of the list otherwise,
    whatever the current resource is. *)
Theorem GetNextResource_in_range
    {Env : Type} `{!Host Env} (fr : FindReplace) (env : Env)
    (current_resource : ResourcePtr) (direction : Direction) :
  let resources := GetFilesToSearch fr env in
  let next := GetNextResource fr env current_resource direction in
  (resources = [] ∧ next = None)
  ∨ (resources ≠ [] ∧ ∃ i, resources !! i = Some next).
Proof.
  intros resources next.
  destruct (GetNextResource_from fr env current_resource direction)
    as (i & Hi & Hnext).
  subst next resources. rewrite Hnext.
  set (L := GetFilesToSearch fr env) in *.
  destruct (decide (L = [])) as [HL|HL];
    [left; by rewrite bool_decide_eq_true_2|right].
  rewrite bool_decide_eq_false_2 by done. split; [done|].
  set (j := Z.to_nat _).
  assert (j < length L)%nat as Hj.
  { subst j.
    assert (0 < Z.of_nat (length L))%Z by (destruct L; [done|simpl; lia]).
    pose proof (next_reading_order_range direction
                  (Z.of_nat (length L)) (Z.of_nat i)).
    lia. }
  destruct (lookup_lt_is_Some_2 _ _ Hj) as [y Hy].
  exists j. by rewrite Hy.
Qed.

Section Reading_order_inverse.
Context {Env : Type} `{!Host Env}.
Variables (fr : FindReplace) (env : Env).

Let L := GetFilesToSearch fr env.

Hypothesis Hinj :
  ∀ a b, GetRelativePath env a = GetRelativePath env b → a = b.
Hypothesis Hnd : NoDup L.
Hypothesis Hnull : None ∉ L.

(** On a well-formed list a move of [GetNextResource] leads from an entry
    to the entry at the next index. *)
Lemma GetNextResource_move direction i x :
  L !! i = Some (Some x) →
  ∃ y, GetNextResource fr env (Some x) direction = Some y
    ∧ L !! Z.to_nat (next_reading_order direction (Z.of_nat (length L))
                       (Z.of_nat i)) = Some (Some y).
Proof.
  intros Hi. rewrite (GetNextResource_index fr env direction i x) by done.
  fold L. pose proof (lookup_lt_Some _ _ _ Hi) as Hlt.
  pose proof (next_reading_order_range direction (Z.of_nat (length L))
                (Z.of_nat i)) as Hr.
  set (j := Z.to_nat _) in *.
  assert (j < length L)%nat as Hj by lia.
  destruct (lookup_lt_is_Some_2 _ _ Hj) as [[y|] Hy]; rewrite Hy.
  - by exists y.
  - destruct Hnull. by eapply list_elem_of_lookup_2.
Qed.

End Reading_order_inverse.

(** X2: on a list of files to search that names every resource once, by
    distinct paths and without null entries, a move Up and a move Down of
    [GetNextResource] undo each other, wrap-around included. *)
Theorem GetNextResource_Up_Down_inverse
    {Env : Type} `{!Host Env} (fr : FindReplace) (env : Env) (x : Resource) :
  (∀ a b, GetRelativePath env a = GetRelativePath env b → a = b) →
  NoDup (GetFilesToSearch fr env) →
  None ∉ GetFilesToSearch fr env →
  Some x ∈ GetFilesToSearch fr env →
  GetNextResource fr env (GetNextResource fr env (Some x) Direction_Up)
    Direction_Down = Some x
  ∧ GetNextResource fr env (GetNextResource fr env (Some x) Direction_Down)
      Direction_Up = Some x.
Proof.
  intros Hinj Hnd Hnull [i Hi]%list_elem_of_lookup_1.
  pose proof (lookup_lt_Some _ _ _ Hi) as Hlt.
  destruct (next_reading_order_inverse
              (Z.of_nat (length (GetFilesToSearch fr env))) (Z.of_nat i))
    as [Hud Hdu]; [lia|].
  split.
  - destruct (GetNextResource_move fr env Hinj Hnd Hnull Direction_Up i x Hi)
      as (y & -> & Hy).
    destruct (GetNextResource_move fr env Hinj Hnd Hnull Direction_Down _ y Hy)
      as (z & -> & Hz).
    pose proof (next_reading_order_range Direction_Up
                  (Z.of_nat (length (GetFilesToSearch fr env))) (Z.of_nat i)).
    rewrite Z2Nat.id, Hud, Nat2Z.id in Hz by lia. congruence.
  - destruct (GetNextResource_move fr env Hinj Hnd Hnull Direction_Down i x Hi)
      as (y & -> & Hy).
    destruct (GetNextResource_move fr env Hinj Hnd Hnull Direction_Up _ y Hy)
      as (z & -> & Hz).
    pose proof (next_reading_order_range Direction_Down
                  (Z.of_nat (length (GetFilesToSearch fr env))) (Z.of_nat i)).
    rewrite Z2Nat.id, Hdu, Nat2Z.id in Hz by lia. congruence.
Qed.

Lemma GetNextResource_Up_Down_inverse_witness :
  let fr := Demo.searching "foo" LookWhere_AllHTMLFiles SearchDirection_Down true in
  let env := Demo.book 1 [] [] in
  GetNextResource fr env (GetNextResource fr env (Some 0%nat) Direction_Up)
    Direction_Down = Some 0%nat
  ∧ GetNextResource fr env (GetNextResource fr env (Some 0%nat) Direction_Down)
      Direction_Up = Some 0%nat.
Proof.
  intros fr env.
  apply (GetNextResource_Up_Down_inverse fr env 0%nat).
  - apply book_paths_distinct.
  - by apply (bool_decide_unpack _).
  - by apply (bool_decide_unpack _).
  - by apply (bool_decide_unpack _).
Defined.

(** ** The files of the bulk pass *)

(** X3: with wrap off and the current resource in the scoped list, the
    files [CountInFiles] and [ReplaceInAllFiles] hand to the bulk operation
    (the files to search without the current resource) are the files
    strictly before the current resource when the direction is Up, and
    strictly after it when the direction is Down. *)
Theorem bulk_files_before_or_after
    {Env : Type} `{!Host Env} (fr : FindReplace) (env : Env)
    (before after : list ResourcePtr) :
  m_OptionWrap fr = false →
  scoped_resources fr env = before ++ GetCurrentResource env :: after →
  GetCurrentResource env ∉ before →
  removeOne (GetCurrentResource env) (GetFilesToSearch fr env)
  = match GetSearchDirection fr with
    | SearchDirection_Up => before
    | SearchDirection_Down => after
    end.
Proof.
  intros Hw Hall Hnot.
  rewrite (GetFilesToSearch_part fr env before after) by done.
  destruct (GetSearchDirection fr).
  - simpl. by rewrite bool_decide_eq_true_2.
  - clear Hall. induction before as [|y before IH]; simpl.
    + by rewrite bool_decide_eq_true_2.
    + apply not_elem_of_cons in Hnot as [Hne Hnot].
      rewrite bool_decide_eq_false_2 by congruence. by rewrite IH.
Qed.

Lemma bulk_files_before_or_after_witness :
  let fr := Demo.searching "foo" LookWhere_AllHTMLFiles SearchDirection_Up false in
  let env := Demo.book 1 [] [] in
  removeOne (GetCurrentResource env) (GetFilesToSearch fr env) = [Some 0%nat].
Proof.
  intros fr env.
  apply (bulk_files_before_or_after fr env [Some 0%nat] [Some 2%nat]).
  - reflexivity.
  - reflexivity.
  - by apply (bool_decide_unpack _).
Defined.

(** ** The traversal finds the nearest match *)

Section Visits.
Context {Env : Type} `{!Host Env}.
Variables (fr : FindReplace) (env : Env) (direction : Direction).

Let world tr : World Env := {| panel := fr; host := env; trace := tr |}.
Let step (p : ResourcePtr) : ResourcePtr := GetNextResource fr env p direction.
Let has_match (r : Resource) : bool := ContainsRegex env (GetSearchRegex fr) r.

Lemma containing_loop_unfold fuel starting next passed tr :
  containing_loop fuel direction starting next passed (world tr)
  = if negb passed || negb (bool_decide (next = starting)) then
      match fuel with
      | O => Faulted OutOfFuel (world tr)
      | S fuel' =>
          if bool_decide (step next = starting) && negb (m_OptionWrap fr)
          then Ok None (world tr)
          else
            match step next with
            | Some resource =>
                if has_match resource
                then Ok (step next) (world (tr ++ tests [resource]))
                else containing_loop fuel' direction starting (step next)
                       (passed || bool_decide (step next = starting))
                       (world (tr ++ tests [resource]))
            | None => Ok None (world tr)
            end
      end
    else Ok None (world tr).
Proof.
  unfold step, has_match, world.
  destruct fuel; unfold containing_loop; fold (@containing_loop Env _);
    destruct (negb passed || _); try done.
  run. destruct (bool_decide _ && _); [done|].
  destruct (GetNextResource _ _ _ _); [|done].
  run. by destruct (ContainsRegex _ _ _).
Qed.

(** The loop tests the resources that successive moves of
    [GetNextResource] reach, in this order, and stops at the first one that
    contains a match. *)
Lemma containing_loop_visits starting fuel :
  ∀ next passed tr result w',
    containing_loop fuel direction starting next passed (world tr)
    = Ok result w' →
    ∃ tested,
      w' = world (tr ++ tests tested)
      ∧ (∀ k t, tested !! k = Some t → Some t = Nat.iter (S k) step next)
      ∧ (∀ k t, tested !! k = Some t → (S k < length tested)%nat →
           has_match t = false)
      ∧ match result with
        | Some r => last tested = Some r ∧ has_match r = true
        | None => ∀ t, t ∈ tested → has_match t = false
        end.
Proof.
  induction fuel as [|fuel IH]; intros next passed tr result w';
    rewrite containing_loop_unfold.
  - destruct (negb passed || _); [done|].
    intros [= <- <-]. exists []. rewrite app_nil_r.
    split_and!; try done. by intros t ?%elem_of_nil.
  - destruct (negb passed || _).
    2:{ intros [= <- <-]. exists []. rewrite app_nil_r.
        split_and!; try done. by intros t ?%elem_of_nil. }
    destruct (bool_decide _ && _).
    { intros [= <- <-]. exists []. rewrite app_nil_r.
      split_and!; try done. by intros t ?%elem_of_nil. }
    destruct (step next) as [y|] eqn:Hy.
    2:{ intros [= <- <-]. exists []. rewrite app_nil_r.
        split_and!; try done. by intros t ?%elem_of_nil. }
    destruct (has_match y) eqn:Hc.
    + intros [= <- <-]. exists [y]. split_and!; [done| | |done|done].
      * intros [|k] t; [|done]. intros [= <-]. simpl. by rewrite Hy.
      * intros [|k] t; [|done]. simpl. lia.
    + intros Hrun. apply IH in Hrun as (tested & -> & Hiter & Hfail & Hres).
      exists (y :: tested). split_and!.
      * unfold world, tests. by rewrite fmap_cons, <-(assoc_L (++)).
      * intros [|k] t Hk.
        -- injection Hk as <-. simpl. by rewrite Hy.
        -- rewrite (Hiter k t Hk), !Nat.iter_succ_r. by rewrite Hy.
      * intros [|k] t Hk Hlen.
        -- by injection Hk as <-.
        -- apply (Hfail k t Hk). simpl in Hlen. lia.
      * destruct result as [r|].
        -- destruct Hres as [Hlast Hr]. split; [|done].
           destruct tested; [done|]. by rewrite last_cons, Hlast.
        -- intros t [->|Ht]%elem_of_cons; [done|by apply Hres].
Qed.

End Visits.

(** X4: on a well-formed catalog the resources [GetNextContainingResource]
    tests are the ones successive moves of [GetNextResource] reach from the
    starting resource, in this order; every tested resource but the last
    has no match, and the resource returned is the last one tested and has
    a match.  So the result is the first file with a match in reading order
    after the starting resource. *)
Theorem GetNextContainingResource_first_match
    {Env : Type} `{!Host Env} (fr : FindReplace) (env : Env)
    (tr : list Event) (direction : Direction) (fuel : nat)
    (result : ResourcePtr) (w' : World Env) :
  catalog_ok fr env →
  GetNextContainingResource fuel direction
    {| panel := fr; host := env; trace := tr |} = Ok result w' →
  ∃ tested,
    w' = {| panel := fr; host := env; trace := tr ++ tests tested |}
    ∧ (∀ k t, tested !! k = Some t →
         Some t = Nat.iter (S k) (λ p, GetNextResource fr env p direction)
                    (starting_resource fr env direction))
    ∧ (∀ k t, tested !! k = Some t → (S k < length tested)%nat →
         ContainsRegex env (GetSearchRegex fr) t = false)
    ∧ match result with
      | Some r =>
          last tested = Some r
          ∧ ContainsRegex env (GetSearchRegex fr) r = true
      | None => ∀ t, t ∈ tested → ContainsRegex env (GetSearchRegex fr) t = false
      end.
Proof.
  intros Hok.
  destruct (current_loaded _ _ Hok) as [c Hc].
  rewrite (GetNextContainingResource_unfold _ _ _ _ _ c Hc). cbn zeta.
  case_bool_decide as HL.
  { intros [= <- <-]. exists []. rewrite app_nil_r.
    split_and!; try done. by intros t ?%elem_of_nil. }
  destruct (starting_resource_in fr env direction Hok HL)
    as (s & xs & Hstart & Hs).
  rewrite Hstart.
  destruct (bool_decide (length (GetFilesToSearch fr env) = 1%nat)
            && negb (m_OptionWrap fr)) eqn:Hone.
  - apply andb_true_iff in Hone as [Hlen%bool_decide_eq_true _].
    destruct (IsCurrentFileInSelection fr env).
    { intros [= <- <-]. exists []. rewrite app_nil_r.
      split_and!; try done. by intros t ?%elem_of_nil. }
    intros [= <- <-]. exists [xs]. split_and!; [done| | |].
    + intros [|k] t; [|done]. intros [= <-]. simpl.
      destruct (GetNextResource_from fr env (Some xs) direction)
        as (i & Hi & ->).
      rewrite bool_decide_eq_false_2 by done.
      destruct (GetFilesToSearch fr env) as [|y [|z l]]; try done.
      assert (i = 0%nat) as -> by (simpl in Hi; lia).
      assert (s = 0%nat) as -> by (apply lookup_lt_Some in Hs; simpl in Hs; lia).
      injection Hs as ->.
      unfold next_reading_order. simpl. by repeat case_bool_decide.
    + intros [|k] t; [|done]. simpl. lia.
    + destruct (ContainsRegex env (GetSearchRegex fr) xs) eqn:Hx; [done|].
      by intros t ->%list_elem_of_singleton.
  - intros Hrun. by apply containing_loop_visits in Hrun.
Qed.

Lemma GetNextContainingResource_first_match_witness :
  let fr := Demo.searching "foo" LookWhere_AllHTMLFiles SearchDirection_Down true in
  let env := Demo.book 1 [] [1; 0; 0]%Z in
  ∃ tested,
    {| panel := fr; host := env; trace := tests [2; 0]%nat |}
    = {| panel := fr; host := env; trace := [] ++ tests tested |}
    ∧ (∀ k t, tested !! k = Some t →
         Some t = Nat.iter (S k) (λ p, GetNextResource fr env p Direction_Down)
                    (starting_resource fr env Direction_Down))
    ∧ (∀ k t, tested !! k = Some t → (S k < length tested)%nat →
         ContainsRegex env (GetSearchRegex fr) t = false)
    ∧ last tested = Some 0%nat
    ∧ ContainsRegex env (GetSearchRegex fr) 0%nat = true.
Proof.
  intros fr env.
  assert (catalog_ok fr env) as Hok.
  { apply book_catalog_ok; [by eexists|..];
      by apply (bool_decide_unpack _). }
  exact (GetNextContainingResource_first_match fr env [] Direction_Down 3
           (Some 0%nat)
           {| panel := fr; host := env; trace := tests [2; 0]%nat |}
           Hok eq_refl).
Defined.

(** ** Giving up means the files are exhausted *)

Section Exhaustive.
Context {Env : Type} `{!Host Env}.
Variables (fr : FindReplace) (env : Env) (direction : Direction).

Let L := GetFilesToSearch fr env.
Let n := Z.of_nat (length L).
Let world tr : World Env := {| panel := fr; host := env; trace := tr |}.

Hypothesis Hinj :
  ∀ a b, GetRelativePath env a = GetRelativePath env b → a = b.
Hypothesis Hnd : NoDup L.
Hypothesis Hnull : None ∉ L.

Lemma moves_back_full s i :
  (0 ≤ s < n)%Z → (0 ≤ i < n)%Z → moves_back direction n s i = n → i = s.
Proof. unfold moves_back. intros. repeat case_bool_decide; lia. Qed.

(** From position [i] the loop gives up only after every resource that is
    fewer moves away than the starting resource has failed the test, and
    under wrap the starting resource too. *)
Lemma containing_loop_exhaustive (s : nat) (xs : Resource) :
  L !! s = Some (Some xs) →
  ∀ fuel i x tr w',
    L !! i = Some (Some x) →
    containing_loop fuel direction (Some xs) (Some x) false (world tr)
    = Ok None w' →
    ∀ j y, L !! j = Some (Some y) →
      (moves_back direction n (Z.of_nat j) (Z.of_nat i)
       < moves_back direction n (Z.of_nat s) (Z.of_nat i))%Z
      ∨ (m_OptionWrap fr = true ∧ j = s) →
      ContainsRegex env (GetSearchRegex fr) y = false.
Proof.
  intros Hs.
  pose proof (lookup_lt_Some _ _ _ Hs) as Hslt.
  induction fuel as [|fuel IH]; intros i x tr w' Hi Hrun j y Hj Hnear.
  { unfold world in Hrun. by rewrite containing_loop_unfold in Hrun. }
  pose proof (lookup_lt_Some _ _ _ Hi) as Hilt.
  pose proof (lookup_lt_Some _ _ _ Hj) as Hjlt.
  destruct (moves_back_range direction n (Z.of_nat s) (Z.of_nat i))
    as (Hd & Hone & Hnext & Hdec & _); try (subst n; lia).
  destruct (moves_back_range direction n (Z.of_nat j) (Z.of_nat i))
    as (Hdj & Honej & _ & Hdecj & _); try (subst n; lia).
  unfold world in Hrun. rewrite containing_loop_step in Hrun. cbn zeta in Hrun.
  rewrite (GetNextResource_index fr env direction i x) in Hrun by done.
  fold L n in Hrun.
  set (j0 := Z.to_nat (next_reading_order direction n (Z.of_nat i))) in *.
  assert (j0 < length L)%nat as Hj0 by (subst j0 n; lia).
  destruct (lookup_lt_is_Some_2 _ _ Hj0) as [[y0|] Hy0]; rewrite Hy0 in Hrun;
    simpl in Hrun; [|by destruct Hnull; eapply list_elem_of_lookup_2].
  assert (Z.of_nat j0 = next_reading_order direction n (Z.of_nat i)) as Hjz
    by (subst j0; lia).
  destruct (decide (j0 = s)) as [->|Hjs].
  - (* back at the starting resource *)
    assert (y0 = xs) as -> by congruence.
    assert (moves_back direction n (Z.of_nat s) (Z.of_nat i) = 1)%Z as Hm
      by (by apply Hone).
    rewrite bool_decide_eq_true_2 in Hrun by done. simpl in Hrun.
    destruct Hnear as [Hlt|[Hw ->]]; [lia|].
    rewrite Hw in Hrun. simpl in Hrun.
    destruct (ContainsRegex env (GetSearchRegex fr) xs) eqn:Hc; [done|].
    congruence.
  - (* any other resource *)
    assert (Some y0 ≠ Some xs) as Hne.
    { intros [= ->]. by pose proof (NoDup_lookup _ _ _ _ Hnd Hy0 Hs). }
    rewrite !bool_decide_eq_false_2 in Hrun by done. simpl in Hrun.
    destruct (ContainsRegex env (GetSearchRegex fr) y0) eqn:Hc; [done|].
    destruct (decide (j = j0)) as [->|Hjj]; [congruence|].
    apply (IH j0 y0 _ w' Hy0 Hrun j y Hj).
    destruct Hnear as [Hlt|?]; [left|by right].
    rewrite Hjz, Hdec, Hdecj by lia. lia.
Qed.

End Exhaustive.

(** X5: on a well-formed catalog, when [GetNextContainingResource] gives
    up (returns null) under wrap, no file to search contains a match; with
    wrap off, no file to search other than the starting resource does. *)
Theorem GetNextContainingResource_exhaustive
    {Env : Type} `{!Host Env} (fr : FindReplace) (env : Env)
    (tr : list Event) (direction : Direction) (fuel : nat) (w' : World Env) :
  catalog_ok fr env →
  GetNextContainingResource fuel direction
    {| panel := fr; host := env; trace := tr |} = Ok None w' →
  ∀ y, Some y ∈ GetFilesToSearch fr env →
    m_OptionWrap fr = true ∨ Some y ≠ starting_resource fr env direction →
    ContainsRegex env (GetSearchRegex fr) y = false.
Proof.
  intros Hok Hrun y Hin Hy.
  assert (GetFilesToSearch fr env ≠ []) as HL
    by (intros Hnil; rewrite Hnil in Hin; by apply elem_of_nil in Hin).
  apply list_elem_of_lookup_1 in Hin as [j Hj].
  destruct (current_loaded _ _ Hok) as [c Hc].
  rewrite (GetNextContainingResource_unfold _ _ _ _ _ c Hc) in Hrun.
  cbn zeta in Hrun.
  rewrite bool_decide_eq_false_2 in Hrun by done.
  destruct (starting_resource_in fr env direction Hok HL)
    as (s & xs & Hstart & Hs).
  rewrite Hstart in Hrun, Hy.
  pose proof (lookup_lt_Some _ _ _ Hs) as Hslt.
  pose proof (lookup_lt_Some _ _ _ Hj) as Hjlt.
  destruct (bool_decide (length (GetFilesToSearch fr env) = 1%nat)
            && negb (m_OptionWrap fr)) eqn:Hone.
  - apply andb_true_iff in Hone as [Hlen%bool_decide_eq_true Hw%negb_true_iff].
    destruct Hy as [Hy|Hy]; [congruence|].
    assert (j = s) as -> by lia. congruence.
  - apply (containing_loop_exhaustive fr env direction
             (paths_distinct _ _ Hok)
             (GetFilesToSearch_NoDup _ _ (scoped_NoDup _ _ Hok))
             (files_no_null _ _ (scoped_no_null _ _ Hok))
             s xs Hs fuel s xs tr w' Hs Hrun j y Hj).
    destruct (decide (j = s)) as [->|Hjs].
    + destruct Hy as [Hy|Hy]; [by right|congruence].
    + left.
      destruct (moves_back_range direction
                  (Z.of_nat (length (GetFilesToSearch fr env)))
                  (Z.of_nat j) (Z.of_nat s)) as (Hd & _); [lia..|].
      destruct (moves_back_range direction
                  (Z.of_nat (length (GetFilesToSearch fr env)))
                  (Z.of_nat s) (Z.of_nat s)) as (_ & _ & _ & _ & Hn); [lia..|].
      pose proof (moves_back_full fr env direction (Z.of_nat j) (Z.of_nat s))
        as Hfull.
      cbn zeta in Hfull. lia.
Qed.

Lemma GetNextContainingResource_exhaustive_witness :
  let fr := Demo.searching "foo" LookWhere_AllHTMLFiles SearchDirection_Down true in
  let env := Demo.book 1 [] [0; 0; 0]%Z in
  ContainsRegex env (GetSearchRegex fr) 2%nat = false.
Proof.
  intros fr env.
  assert (catalog_ok fr env) as Hok.
  { apply book_catalog_ok; [by eexists|..];
      by apply (bool_decide_unpack _). }
  apply (GetNextContainingResource_exhaustive fr env [] Direction_Down 3
           {| panel := fr; host := env; trace := tests [2; 0; 1]%nat |}
           Hok eq_refl).
  - by apply (bool_decide_unpack _).
  - by left.
Defined.

Import Frame.

Section Keeps.
Context {Env : Type} `{!Host Env} {V U : Type}.
Variables (view : FindReplace → V) (hview : Env → U) (P : Event → bool).

Lemma keeps_final {A} (m : M Env A) w :
  keeps Env view hview P m →
  view (panel (final (m w))) = view (panel w)
  ∧ hview (host (final (m w))) = hview (host w)
  ∧ List.filter P (trace (final (m w))) = List.filter P (trace w).
Proof. intros Hm. specialize (Hm w). unfold final. by destruct (m w). Qed.

Lemma keeps_ret {A} (a : A) : keeps Env view hview P (mret a).
Proof. by intros w. Qed.

Lemma keeps_bind {A B} (m : M Env A) (f : A → M Env B) :
  keeps Env view hview P m → (∀ a, keeps Env view hview P (f a)) →
  keeps Env view hview P (m ≫= f).
Proof.
  intros Hm Hf w. unfold mbind, M_bind. specialize (Hm w).
  destruct (m w) as [a w'|e w']; [|done].
  specialize (Hf a w'). destruct Hm as (Hv & Hh & Ht).
  destruct (f a w'); by rewrite <-Hv, <-Hh, <-Ht.
Qed.

Lemma keeps_fault {A} e : keeps Env view hview P (fault e : M Env A).
Proof. by intros w. Qed.

Lemma keeps_get_panel : keeps Env view hview P get_panel.
Proof. by intros w. Qed.

Lemma keeps_get_host : keeps Env view hview P get_host.
Proof. by intros w. Qed.

Lemma keeps_modify_panel f :
  (∀ fr, view (f fr) = view fr) → keeps Env view hview P (modify_panel f).
Proof. intros Hf w. by split; [apply Hf|]. Qed.

Lemma filter_snoc_false (tr : list Event) ev :
  P ev = false → List.filter P (tr ++ [ev]) = List.filter P tr.
Proof. intros Hev. rewrite List.filter_app. cbn. by rewrite Hev, app_nil_r. Qed.

Lemma keeps_emit ev : P ev = false → keeps Env view hview P (emit ev).
Proof. intros Hev w. split_and!; [done|done|by apply filter_snoc_false]. Qed.

Lemma keeps_call_ ev f :
  P ev = false → (∀ env, hview (f env) = hview env) →
  keeps Env view hview P (call_ ev f).
Proof.
  intros Hev Hf w. split_and!; [done|apply Hf|by apply filter_snoc_false].
Qed.

Lemma keeps_call {A} ev (f : Env → A * Env) :
  P ev = false → (∀ env, hview (f env).2 = hview env) →
  keeps Env view hview P (call ev f).
Proof.
  intros Hev Hf w. split_and!; [done|apply Hf|by apply filter_snoc_false].
Qed.

Lemma keeps_scan {A} ev (f : Env → A) :
  P ev = false → keeps Env view hview P (scan ev f).
Proof. intros Hev w. split_and!; [done|done|by apply filter_snoc_false]. Qed.

Lemma keeps_deref p : keeps Env view hview P (deref p).
Proof. destruct p; [apply keeps_ret|apply keeps_fault]. Qed.

Lemma keeps_first_ l : keeps Env view hview P (first_ l).
Proof. destruct l; [apply keeps_fault|apply keeps_ret]. Qed.

Lemma keeps_last_ l : keeps Env view hview P (last_ l).
Proof. unfold last_. destruct (last l); [apply keeps_ret|apply keeps_fault]. Qed.

End Keeps.

(** Proves [keeps] of a computation built from the panel's primitives;
    [side] solves the conditions on the view and on the events. *)
Ltac keeps_step side :=
  match goal with
  | |- keeps _ _ _ _ (_ ≫= _) => apply keeps_bind; [|intros]
  | |- keeps _ _ _ _ (mret _) => apply keeps_ret
  | |- keeps _ _ _ _ (fault _) => apply keeps_fault
  | |- keeps _ _ _ _ get_panel => apply keeps_get_panel
  | |- keeps _ _ _ _ get_host => apply keeps_get_host
  | |- keeps _ _ _ _ (modify_panel _) => apply keeps_modify_panel; side
  | |- keeps _ _ _ _ (emit _) => apply keeps_emit; side
  | |- keeps _ _ _ _ (call_ _ _) => apply keeps_call_; side
  | |- keeps _ _ _ _ (call _ _) => apply keeps_call; side
  | |- keeps _ _ _ _ (scan _ _) => apply keeps_scan; side
  | |- keeps _ _ _ _ (deref _) => apply keeps_deref
  | |- keeps _ _ _ _ (first_ _) => apply keeps_first_
  | |- keeps _ _ _ _ (last_ _) => apply keeps_last_
  | |- keeps _ _ _ _ (if ?b then _ else _) => destruct b
  | |- keeps _ _ _ _ (match ?x with _ => _ end) => destruct x
  | |- keeps _ _ _ _ (let '(_, _) := ?x in _) => destruct x
  | H : keeps _ _ _ _ ?m |- keeps _ _ _ _ ?m => exact H
  | H : ∀ a b c d, keeps _ _ _ _ _ |- keeps _ _ _ _ _ => apply H
  end.

Section Keeps_messages.
Context {Env : Type} `{!Host Env} {V U : Type}.
Variables (view : FindReplace → V) (hview : Env → U) (P : Event → bool).

(** The view does not look at the message label nor at the histories,
    and the class holds no message. *)
Hypothesis view_message : ∀ m fr, view (set_message m fr) = view fr.
Hypothesis view_find_history :
  ∀ h fr, view (set_cbFind_text (cbFind_text fr) (set_cbFind_history h fr))
          = view fr.
Hypothesis view_replace_history :
  ∀ h fr, view (set_cbReplace_text (cbReplace_text fr)
                  (set_cbReplace_history h fr)) = view fr.
Hypothesis no_message : ∀ m, P (EvShowMessageRequest m) = false.

Local Ltac side :=
  first [ by (apply no_message)
        | by (intros; rewrite ?view_message)
        | by (intros; cbn; rewrite ?view_find_history)
        | by (intros; cbn; rewrite ?view_replace_history) ].

Lemma keeps_ShowMessage message : keeps Env view hview P (ShowMessage message).
Proof. unfold ShowMessage. repeat keeps_step side. Qed.

Lemma keeps_clearMessage : keeps Env view hview P clearMessage.
Proof. unfold clearMessage. repeat keeps_step side. Qed.

Lemma keeps_GetAvailableSearchable : keeps Env view hview P GetAvailableSearchable.
Proof.
  unfold GetAvailableSearchable.
  repeat (keeps_step side || apply keeps_ShowMessage).
Qed.

Lemma keeps_SetCodeViewIfNeeded force :
  keeps Env view hview P (SetCodeViewIfNeeded force).
Proof. unfold SetCodeViewIfNeeded. repeat keeps_step side. Qed.

Lemma keeps_UpdatePreviousFindStrings :
  keeps Env view hview P (UpdatePreviousFindStrings None).
Proof. unfold UpdatePreviousFindStrings. keeps_step side. Qed.

Lemma keeps_UpdatePreviousReplaceStrings :
  keeps Env view hview P (UpdatePreviousReplaceStrings None).
Proof. unfold UpdatePreviousReplaceStrings. keeps_step side. Qed.

End Keeps_messages.

Section Keeps_search.
Context {Env : Type} `{!Host Env} {V U : Type}.
Variables (view : FindReplace → V) (hview : Env → U) (P : Event → bool).

(** Besides, the class holds no event of a search. *)
Hypothesis view_message : ∀ m fr, view (set_message m fr) = view fr.
Hypothesis view_find_history :
  ∀ h fr, view (set_cbFind_text (cbFind_text fr) (set_cbFind_history h fr))
          = view fr.
Hypothesis no_edit : ∀ ev, is_edit ev = false → P ev = false.
Hypothesis host_kept : host_keeps Env hview.

Local Ltac side :=
  first [ by (apply no_edit)
        | by (intros; apply no_edit)
        | by (intros; rewrite ?view_message)
        | by (intros; cbn; rewrite ?view_find_history)
        | by (intros; apply host_kept) ].

Lemma keeps_SetFirstResource update_position :
  keeps Env view hview P (SetFirstResource update_position).
Proof. unfold SetFirstResource. repeat keeps_step side. Qed.

Lemma keeps_ResourceContainsCurrentRegex r :
  keeps Env view hview P (ResourceContainsCurrentRegex r).
Proof. unfold ResourceContainsCurrentRegex. repeat keeps_step side. Qed.

Lemma keeps_where_and_type b p ty : keeps Env view hview P (where_and_type b p ty).
Proof. unfold where_and_type. repeat keeps_step side. Qed.

Lemma keeps_containing_loop fuel :
  ∀ direction starting next passed,
    keeps Env view hview P (containing_loop fuel direction starting next passed).
Proof.
  induction fuel as [|fuel IH]; intros;
    unfold containing_loop; fold (@containing_loop Env _);
    repeat (keeps_step side || apply keeps_ResourceContainsCurrentRegex).
Qed.

Lemma keeps_GetNextContainingResource fuel direction :
  keeps Env view hview P (GetNextContainingResource fuel direction).
Proof.
  unfold GetNextContainingResource.
  repeat (keeps_step side || apply keeps_ResourceContainsCurrentRegex
          || apply keeps_where_and_type || apply keeps_containing_loop).
Qed.

Lemma keeps_find_in_tab direction ignore_offset :
  keeps Env view hview P (find_in_tab direction ignore_offset).
Proof. unfold find_in_tab. repeat keeps_step side. Qed.

Lemma keeps_FindInAllFiles fuel direction :
  keeps Env view hview P (FindInAllFiles fuel direction).
Proof.
  unfold FindInAllFiles.
  repeat (keeps_step side || (apply keeps_GetAvailableSearchable; side)
          || apply keeps_find_in_tab || apply keeps_GetNextContainingResource).
Qed.

Lemma keeps_FindText fuel direction :
  keeps Env view hview P (FindText fuel direction).
Proof.
  unfold FindText, CannotFindSearchTerm.
  repeat (keeps_step side || (apply keeps_GetAvailableSearchable; side)
          || (apply keeps_clearMessage; side)
          || (apply keeps_ShowMessage; side)
          || (apply keeps_SetCodeViewIfNeeded; side)
          || apply keeps_FindInAllFiles
          || (apply keeps_UpdatePreviousFindStrings; side)).
Qed.

Lemma keeps_CountInFiles : keeps Env view hview P CountInFiles.
Proof. unfold CountInFiles. repeat keeps_step side. Qed.

End Keeps_search.

Ltac keeps_side :=
  intros;
  first [ reflexivity | assumption | by constructor
        | match goal with H : host_keeps _ _ |- _ => by apply H end ].

(** [keeps] of the panel's operations, for a view and a class of events
    given in full. *)
Ltac keeps_ops :=
  repeat (keeps_step keeps_side
          || (apply keeps_ShowMessage; keeps_side)
          || (apply keeps_clearMessage; keeps_side)
          || (apply keeps_GetAvailableSearchable; keeps_side)
          || (apply keeps_SetCodeViewIfNeeded; keeps_side)
          || (apply keeps_SetFirstResource; keeps_side)
          || (apply keeps_UpdatePreviousFindStrings; keeps_side)
          || (apply keeps_UpdatePreviousReplaceStrings; keeps_side)
          || (apply keeps_FindText; keeps_side)
          || (apply keeps_CountInFiles; keeps_side)).

Section Keeps_inputs.
Context {Env : Type} `{!Host Env} {U : Type}.
Variable hview : Env → U.
Hypothesis host_kept : host_keeps Env hview.

Local Abbreviation none := (λ _ : Event, false).

Lemma inputs_keeps_new_search_reset : keeps Env inputs hview none new_search_reset.
Proof. unfold new_search_reset. keeps_ops. Qed.

Lemma inputs_keeps_Find fuel : keeps Env inputs hview none (Find fuel).
Proof.
  unfold Find, FindPrevious, FindNext.
  apply keeps_bind; [apply inputs_keeps_new_search_reset|intros]. keeps_ops.
Qed.

Lemma inputs_keeps_Count : keeps Env inputs hview none Count.
Proof.
  unfold Count, CannotFindSearchTerm.
  apply keeps_bind; [keeps_ops|intros].
  apply keeps_bind; [apply inputs_keeps_new_search_reset|intros]. keeps_ops.
Qed.

Lemma inputs_keeps_ReplaceText fuel direction replace_current :
  keeps Env inputs hview none (ReplaceText fuel direction replace_current).
Proof. unfold ReplaceText, FindPrevious, FindNext. keeps_ops. Qed.

Lemma inputs_keeps_Replace fuel : keeps Env inputs hview none (Replace fuel).
Proof.
  unfold Replace, ReplacePrevious, ReplaceNext.
  apply keeps_bind; [apply inputs_keeps_new_search_reset|intros].
  repeat (keeps_step keeps_side || apply inputs_keeps_ReplaceText).
Qed.

Lemma inputs_keeps_ReplaceCurrent fuel :
  keeps Env inputs hview none (ReplaceCurrent fuel).
Proof.
  unfold ReplaceCurrent.
  repeat (keeps_step keeps_side || apply inputs_keeps_ReplaceText).
Qed.

Lemma inputs_keeps_ReplaceAll : keeps Env inputs hview none ReplaceAll.
Proof.
  unfold ReplaceAll, ReplaceInAllFiles.
  apply keeps_bind; [keeps_ops|intros].
  apply keeps_bind; [keeps_ops|intros].
  apply keeps_bind; [apply inputs_keeps_new_search_reset|intros]. keeps_ops.
Qed.

End Keeps_inputs.

(** X6: [Find], [Replace], [ReplaceCurrent], [Count] and [ReplaceAll]
    leave what the user entered as it was, whether they return or fault:
    the find and replace texts, mode, scope, direction and the options.
    They write the message label, the two histories and the remembered
    previous search only. *)
Theorem operations_leave_inputs
    {Env : Type} `{!Host Env} (fuel : nat) (w : World Env) :
  inputs (panel (final (Find fuel w))) = inputs (panel w)
  ∧ inputs (panel (final (Replace fuel w))) = inputs (panel w)
  ∧ inputs (panel (final (ReplaceCurrent fuel w))) = inputs (panel w)
  ∧ inputs (panel (final (Count w))) = inputs (panel w)
  ∧ inputs (panel (final (ReplaceAll w))) = inputs (panel w).
Proof.
  assert (host_keeps Env (λ _ : Env, ())) as Hhost by done.
  split_and!; eapply proj1, (keeps_final _ (λ _ : Env, ())).
  - by apply inputs_keeps_Find.
  - by apply inputs_keeps_Replace.
  - by apply inputs_keeps_ReplaceCurrent.
  - by apply inputs_keeps_Count.
  - by apply inputs_keeps_ReplaceAll.
Qed.

Section Never_edit.
Context {Env : Type} `{!Host Env}.

Lemma edits_keeps_new_search_reset :
  keeps Env (λ _, ()) (λ _, ()) is_edit new_search_reset.
Proof. unfold new_search_reset. keeps_ops. Qed.

Lemma edits_keeps_Find fuel : keeps Env (λ _, ()) (λ _, ()) is_edit (Find fuel).
Proof.
  unfold Find, FindPrevious, FindNext.
  apply keeps_bind; [apply edits_keeps_new_search_reset|intros]. keeps_ops.
Qed.

Lemma edits_keeps_Count : keeps Env (λ _, ()) (λ _, ()) is_edit Count.
Proof.
  unfold Count, CannotFindSearchTerm.
  apply keeps_bind; [keeps_ops|intros].
  apply keeps_bind; [apply edits_keeps_new_search_reset|intros]. keeps_ops.
Qed.

End Never_edit.

(** X7: [Find], [FindNext], [FindPrevious] and [Count] never replace
    anything: whether they return or fault, they add no replacing call
    ([ReplaceSelected], [ReplaceAll], [ReplaceInAllFiles]) and no
    notification of a change to the trace. *)
Theorem Find_and_Count_never_edit
    {Env : Type} `{!Host Env} (fuel : nat) (w : World Env) :
  edits (trace (final (Find fuel w))) = edits (trace w)
  ∧ edits (trace (final (FindNext fuel w))) = edits (trace w)
  ∧ edits (trace (final (FindPrevious fuel w))) = edits (trace w)
  ∧ edits (trace (final (Count w))) = edits (trace w).
Proof.
  unfold edits.
  split_and!;
    eapply proj2, proj2, (keeps_final (λ _ : FindReplace, ()) (λ _ : Env, ())).
  - apply edits_keeps_Find.
  - apply keeps_FindText; keeps_side.
  - apply keeps_FindText; keeps_side.
  - apply edits_keeps_Count.
Qed.

(** ** A repeated operation is not a new search *)

Section Not_new.
Context {Env : Type} `{!Host Env}.

Local Abbreviation none := (λ _ : Event, false).
Local Abbreviation nohost := (λ _ : Env, ()).

Lemma IsNewSearch_SetPreviousSearch fr : IsNewSearch (SetPreviousSearch fr) = false.
Proof.
  unfold IsNewSearch, SetPreviousSearch. cbn.
  change (GetControls (set_m_PreviousSearch _ fr)) with (GetControls fr).
  by rewrite !bool_decide_eq_true_2.
Qed.

Lemma IsNewSearch_search_state fr : IsNewSearch (search_state fr) = IsNewSearch fr.
Proof. reflexivity. Qed.

Lemma new_search_reset_not_new (w w1 : World Env) u :
  new_search_reset w = Ok u w1 → IsNewSearch (panel w1) = false.
Proof.
  unfold new_search_reset. run.
  destruct (IsNewSearch (panel w)) eqn:Hnew; [|by intros [= _ <-]].
  assert (keeps Env id nohost none (SetFirstResource true)) as Hkeep
    by (apply keeps_SetFirstResource; keeps_side).
  specialize (Hkeep w).
  destruct (SetFirstResource true w) as [[] w0|]; [|done].
  destruct Hkeep as [Hpanel _]. cbn in Hpanel. run. intros [= _ <-]. cbn.
  apply IsNewSearch_SetPreviousSearch.
Qed.

Lemma new_search_reset_again (w : World Env) :
  IsNewSearch (panel w) = false → new_search_reset w = Ok () w.
Proof. unfold new_search_reset. run. by intros ->. Qed.

(** What follows the reset keeps the search as the reset left it. *)
Lemma not_new_after_reset {A} (k : unit → M Env A) w a w' :
  (∀ u, keeps Env search_state nohost none (k u)) →
  (new_search_reset ≫= k) w = Ok a w' →
  new_search_reset w' = Ok () w'.
Proof.
  intros Hk. unfold mbind, M_bind.
  destruct (new_search_reset w) as [u w1|] eqn:Hreset; [|done].
  apply new_search_reset_not_new in Hreset.
  intros Hrun. specialize (Hk u w1). rewrite Hrun in Hk.
  destruct Hk as [Hstate _]. apply new_search_reset_again.
  by rewrite <-IsNewSearch_search_state, Hstate, IsNewSearch_search_state.
Qed.

Lemma search_state_keeps_ReplaceText fuel direction replace_current :
  keeps Env search_state nohost none (ReplaceText fuel direction replace_current).
Proof. unfold ReplaceText, FindPrevious, FindNext. keeps_ops. Qed.

End Not_new.

(** X8: once [Find], [Replace], [Count] or [ReplaceAll] has returned, the
    search is not a new one any more: the reset that opens these operations
    does nothing in the world they leave, so that repeating the operation
    goes on from the current position instead of going back to the first
    resource. *)
Theorem repeated_operation_is_not_new_search
    {Env : Type} `{!Host Env} (fuel : nat) (w : World Env) :
  (∀ found w', Find fuel w = Ok found w' → new_search_reset w' = Ok () w')
  ∧ (∀ found w', Replace fuel w = Ok found w' → new_search_reset w' = Ok () w')
  ∧ (∀ count w', Count w = Ok count w' → new_search_reset w' = Ok () w')
  ∧ (∀ count w', ReplaceAll w = Ok count w' → new_search_reset w' = Ok () w').
Proof.
  split_and!.
  - intros found w'. unfold Find, FindPrevious, FindNext.
    apply not_new_after_reset. intros. keeps_ops.
  - intros found w'. unfold Replace, ReplacePrevious, ReplaceNext.
    apply not_new_after_reset. intros.
    repeat (keeps_step keeps_side || apply search_state_keeps_ReplaceText).
  - intros count w'. unfold Count, CannotFindSearchTerm.
    unfold mbind at 1, M_bind at 1.
    destruct (clearMessage w) as [u w0|]; [|done].
    apply not_new_after_reset. intros. keeps_ops.
  - intros count w'. unfold ReplaceAll, ReplaceInAllFiles.
    unfold mbind at 1, M_bind at 1.
    destruct (call_ _ _ w) as [u w0|]; [|done].
    unfold mbind at 1, M_bind at 1.
    destruct (clearMessage w0) as [u' w1|]; [|done].
    apply not_new_after_reset. intros. keeps_ops.
Qed.

Import History.

(** ** No resource in the current tab *)

Section Null_current.
Context {Env : Type} `{!Host Env}.
Implicit Types (fr : FindReplace) (env : Env) (tr : list Event).

Lemma GetNextContainingResource_null fuel direction fr env tr :
  GetCurrentResource env = None →
  isWhereHTML fr || isWhereCSS fr = true →
  GetNextContainingResource fuel direction
    {| panel := fr; host := env; trace := tr |}
  = Faulted NullDereference {| panel := fr; host := env; trace := tr |}.
Proof.
  intros Hc Hscope. unfold GetNextContainingResource, where_and_type.
  run. rewrite Hc. destruct (isWhereHTML fr); [done|].
  simpl in Hscope. rewrite Hscope. done.
Qed.

Lemma IsCurrentFileInSelection_null fr env :
  GetCurrentResource env = None → IsCurrentFileInSelection fr env = false.
Proof. unfold IsCurrentFileInSelection. by intros ->. Qed.

End Null_current.

(** X9: when no resource is loaded in the current tab, the guard of
    [IsCurrentFileInSelection] answers false, but
    [GetNextContainingResource] reads the type of the null resource as soon
    as the scope is one of the HTML or CSS scopes; [FindInAllFiles] faults
    with it, before any call to the host. *)
Theorem no_current_resource_faults
    {Env : Type} `{!Host Env} (fr : FindReplace) (env : Env)
    (tr : list Event) (fuel : nat) (direction : Direction) :
  GetCurrentResource env = None →
  isWhereHTML fr || isWhereCSS fr = true →
  let w := {| panel := fr; host := env; trace := tr |} in
  IsCurrentFileInSelection fr env = false
  ∧ GetNextContainingResource fuel direction w = Faulted NullDereference w
  ∧ FindInAllFiles fuel direction w = Faulted NullDereference w.
Proof.
  intros Hc Hscope w. split_and!.
  - by apply IsCurrentFileInSelection_null.
  - by apply GetNextContainingResource_null.
  - unfold FindInAllFiles. run.
    rewrite IsCurrentFileInSelection_null by done. run.
    fold w. change (GetNextContainingResource fuel direction w)
      with (GetNextContainingResource fuel direction
              {| panel := fr; host := env; trace := tr |}).
    by rewrite GetNextContainingResource_null.
Qed.

Lemma no_current_resource_faults_witness :
  let fr := Demo.searching "foo" LookWhere_AllHTMLFiles SearchDirection_Down true in
  let env := Demo.set_current None (Demo.book 0 [] [1; 1; 1]%Z) in
  let w := Demo.world fr env in
  IsCurrentFileInSelection fr env = false
  ∧ GetNextContainingResource 3 Direction_Down w = Faulted NullDereference w
  ∧ FindInAllFiles 3 Direction_Down w = Faulted NullDereference w.
Proof.
  intros fr env w.
  exact (no_current_resource_faults fr env [] 3 Direction_Down eq_refl eq_refl).
Defined.

(** ** An empty find text *)

Section Empty_find_text.
Context {Env : Type} `{!Host Env}.

Lemma IsValidFindText_inputs fr : IsValidFindText (inputs fr) = IsValidFindText fr.
Proof. reflexivity. Qed.

Lemma invalid_after {A} (m : M Env A) w a w1 :
  keeps Env inputs (λ _, ()) (λ _, false) m →
  IsValidFindText (panel w) = false →
  m w = Ok a w1 → IsValidFindText (panel w1) = false.
Proof.
  intros Hm Hvalid Hrun. specialize (Hm w). rewrite Hrun in Hm.
  destruct Hm as [Hin _].
  by rewrite <-IsValidFindText_inputs, Hin, IsValidFindText_inputs.
Qed.

End Empty_find_text.

(** X10: with an empty find text [FindText] and [ReplaceText] clear the
    message and return false, and do nothing else: no call to the host, no
    "No matches found", no entry in the history.  [Count] and [ReplaceAll]
    return 0 in the same way, but only after the new-search reset (and, for
    [ReplaceAll], after the tab content has been saved). *)
Theorem empty_find_text_is_refused
    {Env : Type} `{!Host Env} (fuel : nat) (direction : Direction)
    (replace_current : bool) (w : World Env) :
  IsValidFindText (panel w) = false →
  FindText fuel direction w = (clearMessage;; mret false) w
  ∧ ReplaceText fuel direction replace_current w = (clearMessage;; mret false) w
  ∧ Count w = (clearMessage;; new_search_reset;; mret 0%Z) w
  ∧ ReplaceAll w
    = (call_ EvSaveTabContent SaveTabContent;; clearMessage;;
       new_search_reset;; mret 0%Z) w.
Proof.
  intros Hvalid.
  assert (keeps Env inputs (λ _, ()) (λ _, false) clearMessage) as Hclear
    by keeps_ops.
  assert (keeps Env inputs (λ _, ()) (λ _, false) new_search_reset) as Hreset
    by (by apply inputs_keeps_new_search_reset).
  split_and!.
  - unfold FindText, mbind, M_bind.
    destruct (clearMessage w) as [u w1|] eqn:H1; [|done].
    unfold get_panel. by rewrite (invalid_after _ _ _ _ Hclear Hvalid H1).
  - unfold ReplaceText, mbind, M_bind.
    destruct (clearMessage w) as [u w1|] eqn:H1; [|done].
    unfold get_panel. by rewrite (invalid_after _ _ _ _ Hclear Hvalid H1).
  - unfold Count, mbind, M_bind.
    destruct (clearMessage w) as [u w1|] eqn:H1; [|done].
    destruct (new_search_reset w1) as [u' w2|] eqn:H2; [|done].
    unfold get_panel.
    by rewrite (invalid_after _ _ _ _ Hreset
                  (invalid_after _ _ _ _ Hclear Hvalid H1) H2).
  - unfold ReplaceAll, mbind, M_bind.
    destruct (call_ EvSaveTabContent SaveTabContent w) as [u0 w0|] eqn:H0;
      [|done].
    assert (IsValidFindText (panel w0) = false) as Hvalid0
      by (by injection H0 as _ <-).
    destruct (clearMessage w0) as [u w1|] eqn:H1; [|done].
    destruct (new_search_reset w1) as [u' w2|] eqn:H2; [|done].
    unfold get_panel.
    by rewrite (invalid_after _ _ _ _ Hreset
                  (invalid_after _ _ _ _ Hclear Hvalid0 H1) H2).
Qed.

Lemma empty_find_text_is_refused_witness :
  let w := Demo.world (Demo.searching "" LookWhere_AllHTMLFiles
                         SearchDirection_Down true)
             (Demo.book 0 [] [1; 1; 1]%Z) in
  FindText 3 Direction_Down w = (clearMessage;; mret false) w.
Proof.
  intros w.
  exact (proj1 (empty_find_text_is_refused 3 Direction_Down false w eq_refl)).
Defined.

(** ** The control-string parser on partial strings *)



(** ** Scopes *)

(** X12: the scope tests of the panel as they relate to each other: a
    scope is never both an HTML and a CSS scope; the "All" scopes are the
    HTML and CSS scopes that are not "Selected" ones; and a "Selected"
    scope that is neither HTML nor CSS is the OPF or the NCX file. *)
Theorem scope_tests_related (fr : FindReplace) :
  isWhereHTML fr && isWhereCSS fr = false
  ∧ isWhereAll fr = (isWhereHTML fr || isWhereCSS fr) && negb (isWhereSelected fr)
  ∧ (isWhereSelected fr = true → isWhereHTML fr || isWhereCSS fr = false →
     GetLookWhere fr = LookWhere_OPFFile ∨ GetLookWhere fr = LookWhere_NCXFile)
  ∧ (isWhereHTML fr || isWhereCSS fr || isWhereSelected fr = false ↔
     GetLookWhere fr = LookWhere_CurrentFile).
Proof.
  unfold isWhereHTML, isWhereCSS, isWhereAll, isWhereSelected.
  destruct (GetLookWhere fr); cbn; split_and!; try done; auto.
Qed.

(** ** Histories *)

Section History_facts.

Lemma remove_first_elem (s t : QString) items :
  t ≠ s → t ∈ remove_first s items ↔ t ∈ items.
Proof.
  intros Hne. induction items as [|u items IH]; simpl; [done|].
  case_bool_decide as Hus.
  - subst u. rewrite elem_of_cons. split; [by right|by intros [?|?]].
  - by rewrite !elem_of_cons, IH.
Qed.

Lemma remove_first_NoDup (s : QString) items :
  NoDup items → NoDup (remove_first s items) ∧ s ∉ remove_first s items.
Proof.
  induction 1 as [|u items Hu Hnd [IH1 IH2]]; simpl.
  - split; [constructor|apply not_elem_of_nil].
  - case_bool_decide as Hus; [by subst|]. split.
    + constructor; [|done]. by rewrite remove_first_elem.
    + apply not_elem_of_cons. split; [congruence|done].
Qed.

Lemma remove_first_length (s : QString) items :
  (length (remove_first s items) ≤ length items)%nat.
Proof.
  induction items as [|u items IH]; simpl; [done|].
  case_bool_decide; simpl; lia.
Qed.

Lemma append_new_spec items : ∀ strings,
  NoDup strings →
  NoDup (append_new strings items)
  ∧ (∀ t, t ∈ append_new strings items ↔ t ∈ strings ∨ t ∈ items)
  ∧ strings `prefix_of` append_new strings items.
Proof.
  induction items as [|item items IH]; intros strings Hnd; simpl.
  - split_and!; [done| |done]. intros t. rewrite elem_of_nil. tauto.
  - case_bool_decide as Hin.
    + destruct (IH strings Hnd) as (H1 & H2 & H3). split_and!; [done| |done].
      intros t. rewrite H2, elem_of_cons. split; [tauto|].
      intros [?|[->|?]]; auto.
    + destruct (IH (strings ++ [item])) as (H1 & H2 & H3).
      { apply NoDup_app. split_and!; [done| |apply NoDup_singleton].
        by intros t Ht ->%list_elem_of_singleton. }
      split_and!; [done| |].
      * intros t. rewrite H2, elem_of_app, list_elem_of_singleton, elem_of_cons.
        tauto.
      * etrans; [|exact H3]. by apply prefix_app_r.
Qed.

Lemma append_new_NoDup items : ∀ strings,
  NoDup (strings ++ items) → append_new strings items = strings ++ items.
Proof.
  induction items as [|item items IH]; intros strings Hnd; simpl.
  - by rewrite app_nil_r.
  - rewrite bool_decide_eq_false_2.
    + rewrite IH; rewrite <-(assoc_L (++)); done.
    + apply NoDup_app in Hnd as (_ & Hdisj & _). intros Hin.
      apply (Hdisj _ Hin). by left.
Qed.

End History_facts.


(** X14: [GetPreviousFindStrings] returns the items of the history, up
    to the combo box's maximum, without duplicates and in the order of their
    first occurrence; on a history without duplicates that fits in the
    maximum it returns the history itself. *)
Theorem GetPreviousFindStrings_unique (maxCount : Z) (fr : FindReplace) :
  let items :=
    take (Z.to_nat (Z.min (Z.of_nat (length (cbFind_history fr))) maxCount))
      (cbFind_history fr) in
  NoDup (GetPreviousFindStrings maxCount fr)
  ∧ (∀ t, t ∈ GetPreviousFindStrings maxCount fr ↔ t ∈ items)
  ∧ (NoDup (cbFind_history fr) →
     (Z.of_nat (length (cbFind_history fr)) ≤ maxCount)%Z →
     GetPreviousFindStrings maxCount fr = cbFind_history fr).
Proof.
  intros items. unfold GetPreviousFindStrings. fold items.
  destruct (append_new_spec items [] (NoDup_nil_2)) as (H1 & H2 & _).
  split_and!; [done| |].
  - intros t. rewrite H2, elem_of_nil. tauto.
  - intros Hnd Hmax. subst items.
    rewrite Z.min_l, Nat2Z.id, firstn_all by done.
    by apply (append_new_NoDup _ []).
Qed.

Import Shortcuts.

(** ** Operations that stay in the current file *)

Section Within_file.
Context {Env : Type} `{!Host Env}.

Lemma within_keeps {A} (m : M Env A) :
  keeps Env inputs (λ _, ()) is_leaving m → within_file Env m.
Proof.
  intros Hm w _. specialize (Hm w). destruct (m w); by destruct Hm as (? & _ & ?).
Qed.

Lemma within_bind {A B} (m : M Env A) (f : A → M Env B) :
  within_file Env m → (∀ a, within_file Env (f a)) →
  within_file Env (m ≫= f).
Proof.
  intros Hm Hf w Hflag. unfold mbind, M_bind. specialize (Hm w Hflag).
  destruct (m w) as [a w'|e w']; [|done].
  destruct Hm as [Hin Htr].
  assert (m_LookWhereCurrentFile (panel w') = true) as Hflag'.
  { change (m_LookWhereCurrentFile (inputs (panel w')) = true).
    by rewrite Hin. }
  specialize (Hf a w' Hflag').
  destruct (f a w'); by rewrite <-Hin, <-Htr.
Qed.

Lemma within_get_panel {A} (f : FindReplace → M Env A) :
  (∀ fr, m_LookWhereCurrentFile fr = true → within_file Env (f fr)) →
  within_file Env (get_panel ≫= f).
Proof. intros Hf w Hflag. by apply (Hf (panel w) Hflag w). Qed.

Local Ltac use_flag :=
  repeat match goal with
         | H : m_LookWhereCurrentFile _ = true |- _ =>
             progress (rewrite ?H, ?orb_true_r; cbn [orb negb])
         end.

Local Ltac within_step :=
  match goal with
  | |- within_file _ (get_panel ≫= _) =>
      apply within_get_panel; intros; use_flag
  | |- within_file _ (_ ≫= _) => apply within_bind; [|intros; use_flag]
  | |- within_file _ (if ?b then _ else _) => destruct b
  | |- within_file _ (match ?x with _ => _ end) => destruct x
  | H : within_file _ ?m |- within_file _ ?m => exact H
  | |- within_file _ _ => apply within_keeps; keeps_ops
  end.

Lemma within_SetFirstResource update_position :
  within_file Env (SetFirstResource update_position).
Proof. unfold SetFirstResource. repeat within_step. Qed.

Lemma within_new_search_reset : within_file Env new_search_reset.
Proof.
  unfold new_search_reset.
  repeat (apply within_SetFirstResource || within_step).
Qed.

Lemma within_FindText fuel direction : within_file Env (FindText fuel direction).
Proof. unfold FindText, CannotFindSearchTerm. repeat within_step. Qed.

Lemma within_Count : within_file Env Count.
Proof.
  unfold Count, CannotFindSearchTerm.
  repeat (apply within_new_search_reset || within_step).
Qed.

Lemma within_ReplaceText fuel direction replace_current :
  within_file Env (ReplaceText fuel direction replace_current).
Proof.
  unfold ReplaceText, FindPrevious, FindNext.
  repeat (apply within_FindText || within_step).
Qed.

Lemma within_ReplaceAll : within_file Env ReplaceAll.
Proof.
  unfold ReplaceAll.
  repeat (apply within_new_search_reset || within_step).
Qed.

Lemma within_Find fuel : within_file Env (Find fuel).
Proof.
  unfold Find, FindPrevious, FindNext.
  repeat (apply within_new_search_reset || apply within_FindText || within_step).
Qed.

Lemma within_Replace fuel : within_file Env (Replace fuel).
Proof.
  unfold Replace, ReplacePrevious, ReplaceNext.
  repeat (apply within_new_search_reset || apply within_ReplaceText
          || within_step).
Qed.

(** An operation wrapped between setting and clearing the flag. *)
Lemma wrapped_within {A} (m : M Env A) (w : World Env) :
  within_file Env m →
  let res :=
    (modify_panel (set_m_LookWhereCurrentFile true);;
     _ ← m; modify_panel (set_m_LookWhereCurrentFile false)) w in
  leaving (trace (final res)) = leaving (trace w)
  ∧ (∀ u w', res = Ok u w' →
       inputs (panel w') = set_m_LookWhereCurrentFile false (inputs (panel w))).
Proof.
  intros Hm res. subst res. run.
  specialize (Hm {| panel := set_m_LookWhereCurrentFile true (panel w);
                    host := host w; trace := trace w |} eq_refl).
  destruct (m _) as [a w1|e w1]; cbn in *; destruct Hm as [Hin Htr].
  - split; [done|]. intros u w' [= _ <-]. cbn.
    change (set_m_LookWhereCurrentFile false (inputs (panel w1))
            = set_m_LookWhereCurrentFile false (inputs (panel w))).
    by rewrite Hin.
  - done.
Qed.

End Within_file.

(** X15: the in-file variants ([FindNextInFile], [ReplaceNextInFile],
    [ReplaceAllInFile], [CountInFile]) and the buttons clicked with the
    Control key down never reach beyond the current tab, whatever the
    scope: no resource is opened, selected or tested for a match, and no
    bulk count or replacement over files is made, not even by the
    new-search reset.  When they return, [m_LookWhereCurrentFile] is off
    and the rest of the user's inputs is as it was. *)
Theorem in_file_operations_stay
    {Env : Type} `{!Host Env} (fuel : nat) (w : World Env) :
  let stays (res : Result Env ()) :=
    leaving (trace (final res)) = leaving (trace w)
    ∧ (∀ u w', res = Ok u w' →
         inputs (panel w') = set_m_LookWhereCurrentFile false (inputs (panel w))) in
  stays (FindNextInFile fuel w)
  ∧ stays (ReplaceNextInFile fuel w)
  ∧ stays (ReplaceAllInFile w)
  ∧ stays (CountInFile w)
  ∧ stays (FindClicked true fuel w)
  ∧ stays (ReplaceClicked true fuel w)
  ∧ stays (ReplaceAllClicked true w)
  ∧ stays (CountClicked true w).
Proof.
  intros stays. subst stays. cbn beta.
  split; [exact (wrapped_within (FindText fuel Direction_Down) w
                   (within_FindText fuel Direction_Down))|].
  split; [exact (wrapped_within (ReplaceText fuel Direction_Down false) w
                   (within_ReplaceText fuel Direction_Down false))|].
  split; [exact (wrapped_within ReplaceAll w within_ReplaceAll)|].
  split; [exact (wrapped_within Count w within_Count)|].
  split; [exact (wrapped_within (Find fuel) w (within_Find fuel))|].
  split; [exact (wrapped_within (Replace fuel) w (within_Replace fuel))|].
  split; [exact (wrapped_within ReplaceAll w within_ReplaceAll)|].
  exact (wrapped_within Count w within_Count).
Qed.

Import Saved.

(** ** Saved searches *)

Section Saved_facts.
Context {Env : Type} `{!Host Env}.

Lemma GetControls_ext fr fr' :
  GetSearchMode fr' = GetSearchMode fr →
  GetLookWhere fr' = GetLookWhere fr →
  GetSearchDirection fr' = GetSearchDirection fr →
  m_RegexOptionDotAll fr' = m_RegexOptionDotAll fr →
  m_RegexOptionMinimalMatch fr' = m_RegexOptionMinimalMatch fr →
  m_RegexOptionAutoTokenise fr' = m_RegexOptionAutoTokenise fr →
  m_OptionWrap fr' = m_OptionWrap fr →
  GetControls fr' = GetControls fr.
Proof.
  intros H1 H2 H3 H4 H5 H6 H7.
  rewrite (GetControls_settings fr'), (GetControls_settings fr).
  by rewrite H1, H2, H3, H4, H5, H6, H7.
Qed.

Lemma replace_char_absent before after s :
  before ∉ s → replace_char before after s = s.
Proof.
  induction s as [|c s IH]; simpl; [done|].
  intros [Hne Hs]%not_elem_of_cons.
  rewrite bool_decide_eq_false_2 by congruence. by rewrite IH.
Qed.

Lemma replace_char_elem before after s c :
  c ∈ replace_char before after s → c ∈ after ∨ (c ∈ s ∧ c ≠ before).
Proof.
  induction s as [|d s IH]; simpl; [by intros ?%elem_of_nil|].
  case_bool_decide as Hd.
  - intros [?|Hin]%elem_of_app; [by left|].
    destruct (IH Hin) as [?|[? ?]]; [by left|right].
    split; [by right|done].
  - intros [->|Hin]%elem_of_cons; [right; split; [by left|done]|].
    destruct (IH Hin) as [?|[? ?]]; [by left|right].
    split; [by right|done].
Qed.

Lemma escaped_name_clean s :
  let name' :=
    replace_char greater_than (lit "&gt;")
      (replace_char less_than (lit "&lt;") s) in
  (less_than ∉ name') ∧ (greater_than ∉ name').
Proof.
  intros name'. subst name'. split.
  - intros [Hin|[Hin _]]%replace_char_elem.
    + vm_compute in Hin. by repeat (apply elem_of_cons in Hin as [?|Hin];
                                    [done|]); apply elem_of_nil in Hin.
    + apply replace_char_elem in Hin as [Hin|[_ ?]]; [|done].
      vm_compute in Hin. by repeat (apply elem_of_cons in Hin as [?|Hin];
                                    [done|]); apply elem_of_nil in Hin.
  - intros [Hin|[_ ?]]%replace_char_elem; [|done].
    vm_compute in Hin. by repeat (apply elem_of_cons in Hin as [?|Hin];
                                  [done|]); apply elem_of_nil in Hin.
Qed.

(** A run of [LoadSearch] on an entry, step by step. *)
Lemma LoadSearch_run (entry : searchEntry) (w : World Env) :
  let f := default (cbFind_text (panel w)) (find entry) in
  let fr1 :=
    set_cbFind_text f
      (set_cbFind_history (f :: remove_first f (cbFind_history (panel w)))
         (panel w)) in
  let r := default (cbReplace_text fr1) (replace entry) in
  let fr2 :=
    set_cbReplace_text r
      (set_cbReplace_history (r :: remove_first r (cbReplace_history fr1))
         fr1) in
  let fr3 := UpdateSearchControls (controls entry) fr2 in
  let name' :=
    replace_char greater_than (lit "&gt;")
      (replace_char less_than (lit "&lt;") (name entry)) in
  let message_ :=
    if isEmpty (name entry) then lit "Unnamed search loaded"
    else lit "Loaded" ++ lit ": " ++ left 50 name' ++ lit " " in
  let new_message :=
    if m_LookWhereCurrentFile fr3 && negb (isWhereCF fr3)
    then message_ ++ lit " (" ++ lit "Current File" ++ lit ")"
    else message_ in
  LoadSearch (Some entry) w
  = Ok (Some (if isEmpty (name entry) then entry else set_name name' entry))
      {| panel := set_message new_message fr3; host := host w;
         trace := trace w ++ [EvShowMessageRequest new_message] |}.
Proof.
  intros. unfold LoadSearch, UpdatePreviousFindStrings,
    UpdatePreviousReplaceStrings, ShowMessage.
  subst new_message message_. destruct (isEmpty (name entry)); run; reflexivity.
Qed.

Lemma UpdateSearchControls_frame text fr :
  m_LookWhereCurrentFile (UpdateSearchControls text fr)
  = m_LookWhereCurrentFile fr
  ∧ cbFind_text (UpdateSearchControls text fr) = cbFind_text fr
  ∧ cbReplace_text (UpdateSearchControls text fr) = cbReplace_text fr
  ∧ m_IsSearchGroupRunning (UpdateSearchControls text fr)
    = m_IsSearchGroupRunning fr.
Proof.
  unfold UpdateSearchControls. destruct (isEmpty text); [done|].
  repeat match goal with
         | |- context [first_contained text ?chain] =>
             destruct (first_contained text chain)
         end; by split_and!.
Qed.

End Saved_facts.

(** X16: a search saved by [SaveSearchAction] and loaded back by
    [LoadSearch], into a panel in any state, restores the find text, the
    replace text and the control string of the panel it was saved from;
    the entry itself is handed back unchanged. *)
Theorem LoadSearch_SaveSearchAction
    {Env : Type} `{!Host Env} (w0 w : World Env) :
  let fr := panel w0 in
  ∃ entry w',
    SaveSearchAction w0 = Ok entry w0
    ∧ LoadSearch (Some entry) w = Ok (Some entry) w'
    ∧ cbFind_text (panel w') = cbFind_text fr
    ∧ cbReplace_text (panel w') = cbReplace_text fr
    ∧ GetControls (panel w') = GetControls fr
    ∧ host w' = host w.
Proof.
  intros fr. eexists _, _. split; [reflexivity|].
  rewrite LoadSearch_run. cbn zeta.
  split; [reflexivity|]. cbn [panel host controls find replace default].
  match goal with
  | |- context [UpdateSearchControls ?c ?p] =>
      change c with (GetControls fr);
      destruct (UpdateSearchControls_frame (GetControls fr) p)
        as (_ & Hfind & Hreplace & _);
      destruct (UpdateSearchControls_controls_of (GetSearchMode fr)
                  (m_RegexOptionDotAll fr) (m_RegexOptionMinimalMatch fr)
                  (m_RegexOptionAutoTokenise fr) (m_OptionWrap fr)
                  (GetSearchDirection fr) (GetLookWhere fr) p)
        as (H1 & H2 & H3 & H4 & H5 & H6 & H7)
  end.
  rewrite <-(GetControls_settings fr) in H1, H2, H3, H4, H5, H6, H7.
  split_and!; [exact Hfind|exact Hreplace| |reflexivity].
  by apply GetControls_ext.
Qed.

(** X17: [LoadSearch] writes to the entry it is given, which it does not
    own: a name that is not empty comes back with every ["<"] and [">"]
    replaced by ["&lt;"] and ["&gt;"], the other members as they were, and
    the message shows the first 50 units of the new name.  Loading the
    entry again changes it no more.  A null entry only clears the
    message. *)
Theorem LoadSearch_rewrites_name
    {Env : Type} `{!Host Env} (entry : searchEntry) (w : World Env) :
  let name' :=
    replace_char greater_than (lit "&gt;")
      (replace_char less_than (lit "&lt;") (name entry)) in
  let entry' := set_name name' entry in
  (isEmpty (name entry) = false →
   ∃ w',
     LoadSearch (Some entry) w = Ok (Some entry') w'
     ∧ (less_than ∉ name entry') ∧ (greater_than ∉ name entry')
     ∧ (m_LookWhereCurrentFile (panel w) = false →
        message (panel w') = lit "Loaded: " ++ take 50 name' ++ lit " ")
     ∧ ∀ w1 : World Env,
         ∃ w2, LoadSearch (Some entry') w1 = Ok (Some entry') w2)
  ∧ LoadSearch None w = (clearMessage;; mret None) w.
Proof.
  intros name' entry'. split; [|done].
  intros Hname.
  destruct (escaped_name_clean (name entry)) as [Hlt Hgt]. fold name' in Hlt, Hgt.
  assert (isEmpty name' = false) as Hname'.
  { subst name'. destruct (name entry) as [|c s]; [done|]. simpl.
    case_bool_decide; simpl; [done|]. by case_bool_decide. }
  pose proof (LoadSearch_run entry w) as Hrun. cbn zeta in Hrun.
  rewrite Hname in Hrun. fold name' in Hrun. fold entry' in Hrun.
  eexists. split; [exact Hrun|]. split_and!; [done|done| |].
  - cbn [panel message]. intros Hflag.
    match goal with
    | |- context [UpdateSearchControls ?c ?p] =>
        destruct (UpdateSearchControls_frame c p) as (-> & _)
    end.
    cbn. by rewrite Hflag.
  - intros w1. eexists. rewrite LoadSearch_run. cbn zeta.
    cbn [name entry' set_name]. rewrite Hname'.
    rewrite (replace_char_absent less_than _ name') by done.
    rewrite (replace_char_absent greater_than _ name') by done.
    reflexivity.
Qed.

Lemma LoadSearch_rewrites_name_witness :
  let entry :=
    {| name := lit "a<b"; is_group := false; find := Some (lit "a");
       replace := None; controls := lit "RX" |} in
  ∃ w',
    LoadSearch (Some entry) (Demo.world Demo.fresh_panel (Demo.book 0 [] []))
    = Ok (Some (set_name (lit "a&lt;b") entry)) w'.
Proof.
  intros entry.
  destruct (proj1 (LoadSearch_rewrites_name entry
                     (Demo.world Demo.fresh_panel (Demo.book 0 [] [])))
              eq_refl) as (w' & Hrun & _).
  exists w'. exact Hrun.
Defined.

Import Beside.

Import Persisted.

(** ** Setters and getters of the three combo boxes *)

(** X18: [SetSearchMode], [SetLookWhere] and [SetSearchDirection] select
    the item of the value they are given, so that the getter returns it;
    given a value that no item holds they fall back to the first item,
    which is Normal for the mode, Current File for the scope and, the Up
    item being first in its combo box, Up for the direction. *)
Theorem setters_select_items (fr : FindReplace) :
  (∀ m, GetSearchMode (SetSearchMode (SearchMode_int m) fr) = m)
  ∧ (∀ w, GetLookWhere (SetLookWhere (LookWhere_int w) fr) = w)
  ∧ (∀ d, GetSearchDirection (SetSearchDirection (SearchDirection_int d) fr) = d)
  ∧ (∀ v, (v < 0 ∨ 2 < v)%Z →
       GetSearchMode (SetSearchMode v fr) = SearchMode_Normal)
  ∧ (∀ v, (v < 0 ∨ 8 < v)%Z →
       GetLookWhere (SetLookWhere v fr) = LookWhere_CurrentFile)
  ∧ (∀ v, (v < 0 ∨ 1 < v)%Z →
       GetSearchDirection (SetSearchDirection v fr) = SearchDirection_Up).
Proof.
  assert (∀ items v, (∀ d, d ∈ items → d ≠ v) → select_item items v = 0%Z)
    as Hnone.
  { intros items v Hv. unfold select_item.
    destruct (list_find _ items) as [[i d]|] eqn:Hf; [|done].
    apply list_find_Some in Hf as (Hi & -> & _).
    destruct (Hv v); [by eapply list_elem_of_lookup_2|done]. }
  split_and!.
  - by intros [].
  - by intros [].
  - by intros [].
  - intros v Hv. unfold GetSearchMode, SetSearchMode. cbn.
    rewrite Hnone; [done|]. intros d Hd.
    repeat (apply elem_of_cons in Hd as [->|Hd]; [cbn; lia|]).
    by apply elem_of_nil in Hd.
  - intros v Hv. unfold GetLookWhere, SetLookWhere. cbn.
    rewrite Hnone; [done|]. intros d Hd.
    repeat (apply elem_of_cons in Hd as [->|Hd]; [cbn; lia|]).
    by apply elem_of_nil in Hd.
  - intros v Hv. unfold GetSearchDirection, SetSearchDirection. cbn.
    rewrite Hnone; [done|]. intros d Hd.
    repeat (apply elem_of_cons in Hd as [->|Hd]; [cbn; lia|]).
    by apply elem_of_nil in Hd.
Qed.

(** ** Settings written and read back *)

Section Persisted_facts.
Context {Env : Type} `{!Host Env}.

Lemma apply_settings_written maxCount fr settings fr0 :
  let fr' := apply_settings (written maxCount fr settings) fr0 in
  controls_view fr' = controls_view fr
  ∧ cbFind_history fr' = GetPreviousFindStrings maxCount fr
  ∧ cbReplace_history fr' = GetPreviousReplaceStrings maxCount fr
  ∧ m_SpellCheck fr' = m_SpellCheck fr0
  ∧ m_LookWhereCurrentFile fr' = m_LookWhereCurrentFile fr0
  ∧ m_IsSearchGroupRunning fr' = m_IsSearchGroupRunning fr0
  ∧ MarkedTextIndicator_hidden fr' = MarkedTextIndicator_hidden fr0
  ∧ m_PreviousSearch fr' = m_PreviousSearch fr0.
Proof.
  intros fr'. subst fr'. unfold apply_settings, written, controls_view.
  cbn [find_strings replace_strings search_mode look_where search_direction
       regexoptiondotall regexoptionminimalmatch regexoptionautotokenise
       optionwrap default].
  assert (∀ l, NoDup l → removeDuplicates l = l) as Hdup
    by (intros l Hl; by apply (append_new_NoDup l [])).
  rewrite !Hdup
    by (unfold GetPreviousFindStrings, GetPreviousReplaceStrings;
        apply append_new_spec, NoDup_nil_2).
  destruct (GetSearchMode fr), (GetLookWhere fr), (GetSearchDirection fr);
    by split_and!.
Qed.

Lemma SetCodeViewIfNeeded_run force (w w1 : World (Env * SettingsStore)) u :
  SetCodeViewIfNeeded force w = Ok u w1 → w1 = w.
Proof.
  unfold SetCodeViewIfNeeded. run.
  destruct (_ || _); [|by intros [= _ <-]].
  destruct (GetCurrentResource _); [|done]. by intros [= _ <-].
Qed.

End Persisted_facts.

(** X19: what [WriteSettings] stores, [ReadSettings] brings back, into a
    panel in any state: mode, scope, direction and the four options of the
    panel the settings were written from, and its two histories, without
    duplicates.  [WriteSettings] changes neither the panel nor the book nor
    the two visibility keys. *)
Theorem ReadSettings_WriteSettings
    {Env : Type} `{!Host Env} (maxCount : Z)
    (w w2 : World (Env * SettingsStore)) :
  ∃ w1,
    WriteSettings maxCount w = Ok () w1
    ∧ panel w1 = panel w ∧ (host w1).1 = (host w).1 ∧ trace w1 = trace w
    ∧ visible (host w1).2 = visible (host w).2
    ∧ advanced_visible (host w1).2 = advanced_visible (host w).2
    ∧ ((host w2).2 = (host w1).2 →
       ∃ w3,
         ReadSettings w2 = Ok () w3
         ∧ host w3 = host w2 ∧ trace w3 = trace w2
         ∧ controls_view (panel w3) = controls_view (panel w)
         ∧ cbFind_history (panel w3) = GetPreviousFindStrings maxCount (panel w)
         ∧ cbReplace_history (panel w3)
           = GetPreviousReplaceStrings maxCount (panel w)).
Proof.
  eexists. split; [reflexivity|]. cbn [panel host trace fst snd].
  split_and!; try done.
  intros Hstore. eexists. split; [reflexivity|]. cbn [panel host trace].
  rewrite Hstore.
  destruct (apply_settings_written maxCount (panel w) (host w).2 (panel w2))
    as (H1 & H2 & H3 & _).
  by split_and!.
Qed.


(** ** The special searches put the settings back *)

Section Special_searches.
Context {Env : Type} `{!Host Env}.

Local Abbreviation W := (World (Env * SettingsStore)).

Lemma bind_Ok_inv {E A B} (m : M E A) (f : A → M E B) w b w' :
  (m ≫= f) w = Ok b w' → ∃ a w1, m w = Ok a w1 ∧ f a w1 = Ok b w'.
Proof.
  unfold mbind, M_bind. destruct (m w) as [a w1|]; [|done]. eauto.
Qed.

Lemma store_kept_FindText fuel direction (w w' : W) found :
  FindText fuel direction w = Ok found w' → (host w').2 = (host w).2.
Proof.
  intros Hrun.
  assert (keeps (Env * SettingsStore) (λ _, ()) snd (λ _, false)
            (FindText fuel direction)) as Hkeep
    by (apply keeps_FindText; keeps_side).
  specialize (Hkeep w). rewrite Hrun in Hkeep. by destruct Hkeep as (_ & ? & _).
Qed.

Lemma store_kept_FindInAllFiles fuel direction (w w' : W) found :
  FindInAllFiles fuel direction w = Ok found w' → (host w').2 = (host w).2.
Proof.
  intros Hrun.
  assert (keeps (Env * SettingsStore) (λ _, ()) snd (λ _, false)
            (FindInAllFiles fuel direction)) as Hkeep
    by (apply keeps_FindInAllFiles; keeps_side).
  specialize (Hkeep w). rewrite Hrun in Hkeep. by destruct Hkeep as (_ & ? & _).
Qed.

(** Takes the first step of a run that returned apart. *)
Local Ltac first_step Hrun Hstep :=
  apply bind_Ok_inv in Hrun as (? & ? & Hstep & Hrun).
Local Ltac first_step_as Hrun Hstep a w1 :=
  apply bind_Ok_inv in Hrun as (a & w1 & Hstep & Hrun).

(** A step that only writes the panel or the store. *)
Local Ltac write_step Hstep :=
  cbv [WriteSettings ReadSettings force_regex_search mbind M_bind mret M_ret
       get_panel get_beside modify_panel modify_beside] in Hstep;
  injection Hstep as <- <-.

Lemma FindAnyText_restores maxCount fuel text escape_ (w w' : W) found :
  FindAnyText maxCount fuel text escape_ w = Ok found w' →
  controls_view (panel w') = controls_view (panel w)
  ∧ (host w').2 = written maxCount (panel w) (host w).2
  ∧ cbFind_text (panel w')
    = (if escape_ then escape text
       else text ++ lit "(?![^<>]*>)(?!.*<body[^>]*>)").
Proof.
  unfold FindAnyText, FindNext. intros Hrun.
  first_step Hrun H1. apply SetCodeViewIfNeeded_run in H1 as ->.
  first_step Hrun H2. write_step H2.
  first_step Hrun H3. write_step H3.
  first_step Hrun H4. write_step H4.
  first_step Hrun H5. apply store_kept_FindText in H5. cbn [host snd] in H5.
  first_step Hrun H6. write_step H6.
  first_step Hrun H7. write_step H7.
  injection Hrun as <- <-. cbn [panel host snd]. rewrite H5.
  match goal with
  | |- context [apply_settings ?st ?p] =>
      destruct (apply_settings_written maxCount (panel w) (host w).2 p)
        as (Hc & _);
      revert Hc; generalize (apply_settings st p); intros fr' Hc
  end.
  split_and!; [exact Hc|reflexivity|reflexivity].
Qed.

Lemma FindAnyTextInTags_restores maxCount fuel text (w w' : W) u :
  FindAnyTextInTags maxCount fuel text w = Ok u w' →
  controls_view (panel w') = controls_view (panel w)
  ∧ (host w').2 = written maxCount (panel w) (host w).2.
Proof.
  unfold FindAnyTextInTags, FindNext. intros Hrun.
  first_step Hrun H1. apply SetCodeViewIfNeeded_run in H1 as ->.
  first_step Hrun H2. write_step H2.
  first_step Hrun H3. write_step H3.
  first_step Hrun H4. write_step H4.
  first_step Hrun H5. apply store_kept_FindText in H5. cbn [host snd] in H5.
  write_step Hrun. cbn [panel host snd]. rewrite H5.
  match goal with
  | |- context [apply_settings ?st ?p] =>
      destruct (apply_settings_written maxCount (panel w) (host w).2 p)
        as (Hc & _);
      revert Hc; generalize (apply_settings st p); intros fr' Hc
  end.
  split; [exact Hc|reflexivity].
Qed.

Lemma FindMisspelledWord_restores maxCount fuel (w w' : W) found :
  FindMisspelledWord maxCount fuel w = Ok found w' →
  controls_view (panel w') = controls_view (panel w)
  ∧ m_SpellCheck (panel w') = false.
Proof.
  unfold FindMisspelledWord. intros Hrun.
  first_step_as Hrun H0 u0 w0.
  assert (controls_view (panel w0) = controls_view (panel w)) as Hw0.
  { assert (keeps (Env * SettingsStore) controls_view (λ _, ()) (λ _, false)
              clearMessage) as Hkeep by keeps_ops.
    specialize (Hkeep w). rewrite H0 in Hkeep. by destruct Hkeep. }
  first_step Hrun H1. apply SetCodeViewIfNeeded_run in H1 as ->.
  first_step Hrun H2. write_step H2.
  first_step Hrun H3. write_step H3.
  first_step Hrun H4. write_step H4.
  first_step Hrun H5. write_step H5.
  first_step Hrun H6. write_step H6.
  first_step_as Hrun H7 found' w7. apply store_kept_FindInAllFiles in H7.
  cbn [host snd panel] in H7.
  first_step Hrun H8. write_step H8.
  first_step Hrun H9. write_step H9.
  first_step_as Hrun H10 u10 w10. injection Hrun as <- <-.
  assert (keeps (Env * SettingsStore)
            (λ fr, (controls_view fr, m_SpellCheck fr)) (λ _, ()) (λ _, false)
            (if found' then clearMessage else CannotFindSearchTerm)) as Hkeep
    by (unfold CannotFindSearchTerm; keeps_ops).
  match type of H10 with
  | _ ?w9 = _ => specialize (Hkeep w9)
  end.
  rewrite H10 in Hkeep. destruct Hkeep as (Hview & _). cbn [panel] in Hview.
  rewrite H7 in Hview.
  match type of Hview with
  | context [apply_settings ?st ?p] =>
      destruct (apply_settings_written maxCount
                  (set_m_SpellCheck true (panel w0)) (host w0).2 p) as (Hc & _);
      revert Hview Hc; generalize (apply_settings st p); intros fr' Hview Hc
  end.
  split; [|exact (f_equal snd Hview)].
  etrans; [exact (f_equal fst Hview)|]. etrans; [exact Hc|]. exact Hw0.
Qed.

End Special_searches.


(** [FindAnyText] on the small book, from a panel that searches the
    current file upwards without wrap: the match in the current file is
    found, and the panel is back at Current File, Up, no wrap. *)
Example special_searches_run :
  let store :=
    {| find_strings := None; replace_strings := None; search_mode := None;
       look_where := None; search_direction := None;
       regexoptiondotall := None; regexoptionminimalmatch := None;
       regexoptionautotokenise := None; optionwrap := None;
       visible := None; advanced_visible := None |} in
  let w : World (Demo.Book * SettingsStore) :=
    {| panel := Demo.searching "foo" LookWhere_CurrentFile
                  SearchDirection_Up false;
       host := (Demo.book 1 [] [0; 2; 0]%Z, store); trace := [] |} in
  match FindAnyText 10 3 (lit "a.b") true w with
  | Ok found w' =>
      found = true
      ∧ controls_view (panel w')
        = (SearchMode_Normal, LookWhere_CurrentFile, SearchDirection_Up,
           (false, false, false, false))
      ∧ cbFind_text (panel w') = [97; 92; 46; 98]%N
  | Faulted _ _ => False
  end.
Proof. by vm_compute. Qed.

Import Batch.

Section Batch_facts.
Context {Env : Type} `{!Host Env}.

Local Abbreviation W := (World (Env * SearchEditor)).
Local Abbreviation none := (λ _ : Event, false).

Lemma editor_kept {V A} (view : FindReplace → V)
    (m : M (Env * SearchEditor) A) (w w' : W) a :
  keeps (Env * SearchEditor) view snd none m →
  m w = Ok a w' → (host w').2 = (host w).2.
Proof.
  intros Hm Hrun. specialize (Hm w). rewrite Hrun in Hm.
  by destruct Hm as (_ & ? & _).
Qed.

Lemma editor_keeps_LoadSearch search_entry :
  keeps (Env * SearchEditor) (λ _, ()) snd none (LoadSearch search_entry).
Proof.
  unfold LoadSearch, UpdatePreviousFindStrings, UpdatePreviousReplaceStrings.
  destruct search_entry; keeps_ops.
Qed.

Lemma load_entry_completed i search_entry (w w' : W) u :
  load_entry i search_entry w = Ok u w' →
  completed (host w').2 = completed (host w).2.
Proof.
  unfold load_entry. intros (e & w1 & Hload & Hrun)%bind_Ok_inv.
  apply (editor_kept _ _ _ _ _ (editor_keeps_LoadSearch _)) in Hload.
  injection Hrun as _ <-. cbn. by rewrite Hload.
Qed.

Lemma until_found_completed (operation : M (Env * SearchEditor) bool) :
  keeps (Env * SearchEditor) inputs snd none operation →
  ∀ search_entries i (w w' : W) u,
    until_found operation i search_entries w = Ok u w' →
    ∃ k, (k ≤ length search_entries)%nat
      ∧ completed (host w').2 = completed (host w).2 ++ seq i k.
Proof.
  intros Hop. induction search_entries as [|e rest IH]; intros i w w' u; simpl.
  - intros [= _ <-]. exists 0%nat. by rewrite app_nil_r.
  - intros (u1 & w1 & Hload%load_entry_completed & Hrun)%bind_Ok_inv.
    apply bind_Ok_inv in Hrun as (found & w2 & Hfound & Hrun).
    apply (editor_kept _ _ _ _ _ Hop) in Hfound.
    destruct found.
    + injection Hrun as _ <-. exists 0%nat. split; [lia|].
      by rewrite Hfound, Hload, app_nil_r.
    + apply bind_Ok_inv in Hrun as (u3 & w3 & Hrec & Hrun).
      injection Hrec as _ <-.
      apply IH in Hrun as (k & Hk & ->).
      unfold SearchEditorRecordEntryAsCompleted. cbn [host snd completed].
      exists (S k). split; [lia|].
      by rewrite Hfound, Hload, <-(assoc_L (++)).
Qed.

Lemma count_all_completed search_entries : ∀ i count (w w' : W) total,
  count_all i search_entries count w = Ok total w' →
  completed (host w').2 = completed (host w).2.
Proof.
  assert (host_keeps (Env * SearchEditor) snd) as Hhost by done.
  induction search_entries as [|e rest IH]; intros i count w w' total; simpl.
  - by intros [= _ <-].
  - intros (u1 & w1 & Hload%load_entry_completed & Hrun)%bind_Ok_inv.
    apply bind_Ok_inv in Hrun as (n & w2 & Hn & Hrun).
    apply IH in Hrun as ->. rewrite <-Hload.
    f_equal. eapply editor_kept; [|exact Hn].
    by apply inputs_keeps_Count.
Qed.

Lemma replace_all_completed search_entries : ∀ i count (w w' : W) total,
  replace_all i search_entries count w = Ok total w' →
  completed (host w').2
  = completed (host w).2 ++ seq i (length search_entries).
Proof.
  assert (host_keeps (Env * SearchEditor) snd) as Hhost by done.
  induction search_entries as [|e rest IH]; intros i count w w' total; simpl.
  - intros [= _ <-]. by rewrite app_nil_r.
  - intros (u1 & w1 & Hload%load_entry_completed & Hrun)%bind_Ok_inv.
    apply bind_Ok_inv in Hrun as (n & w2 & Hn & Hrun).
    apply bind_Ok_inv in Hrun as (u3 & w3 & Hrec & Hrun).
    injection Hrec as _ <-.
    apply IH in Hrun as ->.
    unfold SearchEditorRecordEntryAsCompleted. cbn [host snd completed].
    assert ((host w2).2 = (host w1).2) as ->
      by (eapply editor_kept; [|exact Hn]; by apply inputs_keeps_ReplaceAll).
    by rewrite Hload, <-(assoc_L (++)).
Qed.

Lemma editor_keeps_ShowMessage message_ :
  keeps (Env * SearchEditor) (λ _, ()) snd none (ShowMessage message_).
Proof. keeps_ops. Qed.

(** The frame of the four looping operations: the selection is read, the
    flags are set, [body] runs, and [closing] ends with flags cleared. *)
Lemma looping_search {A} control_pressed
    (body : M (Env * SearchEditor) A)
    (closing : A → M (Env * SearchEditor) unit) (w w' : W) u :
  (∀ a, keeps (Env * SearchEditor)
          (λ fr, (m_IsSearchGroupRunning fr, m_LookWhereCurrentFile fr))
          snd none (closing a)) →
  (editor ← get_beside;
   let search_entries := current_entries editor in
   if bool_decide (search_entries = []) then
     ShowMessage (lit "No searches selected")
   else
     SetKeyModifiers control_pressed;;
     modify_panel (set_m_IsSearchGroupRunning true);;
     a ← body;
     modify_panel (set_m_IsSearchGroupRunning false);;
     closing a;;
     ResetKeyModifiers) w = Ok u w' →
  (current_entries (host w).2 = [] ∧ (host w').2 = (host w).2
   ∧ inputs (panel w') = inputs (panel w))
  ∨ (current_entries (host w).2 ≠ []
     ∧ m_IsSearchGroupRunning (panel w') = false
     ∧ m_LookWhereCurrentFile (panel w') = false
     ∧ ∃ a w1,
         body {| panel := set_m_IsSearchGroupRunning true
                            (set_m_LookWhereCurrentFile control_pressed
                               (panel w));
                 host := host w; trace := trace w |} = Ok a w1
         ∧ (host w').2 = (host w1).2).
Proof.
  intros Hclosing Hrun.
  apply bind_Ok_inv in Hrun as (editor & w0 & Hget & Hrun).
  injection Hget as <- <-. cbn zeta in Hrun.
  case_bool_decide as Hempty.
  - left. split; [done|].
    assert (keeps (Env * SearchEditor) inputs snd none
              (ShowMessage (lit "No searches selected"))) as Hkeep by keeps_ops.
    specialize (Hkeep w). rewrite Hrun in Hkeep.
    by destruct Hkeep as (? & ? & _).
  - right. split; [done|].
    apply bind_Ok_inv in Hrun as (u1 & w1 & H1 & Hrun). injection H1 as _ <-.
    apply bind_Ok_inv in Hrun as (u2 & w2 & H2 & Hrun). injection H2 as _ <-.
    apply bind_Ok_inv in Hrun as (a & w3 & H3 & Hrun).
    apply bind_Ok_inv in Hrun as (u4 & w4 & H4 & Hrun). injection H4 as _ <-.
    apply bind_Ok_inv in Hrun as (u5 & w5 & H5 & Hrun).
    injection Hrun as _ <-. cbn [panel host].
    pose proof (Hclosing a
                  {| panel := set_m_IsSearchGroupRunning false (panel w3);
                     host := host w3; trace := trace w3 |}) as Hkeep.
    rewrite H5 in Hkeep.
    destruct Hkeep as (Hflags & Hhost5 & _). cbn [panel host] in Hflags, Hhost5.
    split; [exact (f_equal fst Hflags)|]. split; [reflexivity|].
    by exists a, w3.
Qed.

End Batch_facts.


(** X23: a search of the Search Editor that returns has switched
    [m_IsSearchGroupRunning] off again and, but for [ReplaceCurrentSearch],
    which does not read the keyboard, [m_LookWhereCurrentFile] too; with
    nothing selected it has not touched the user's inputs at all (it only
    shows "No searches selected"). *)
Theorem batch_clears_flags
    {Env : Type} `{!Host Env} (control_pressed : bool) (fuel : nat)
    (w : World (Env * SearchEditor)) :
  let cleared (w' : World (Env * SearchEditor)) :=
    if bool_decide (current_entries (host w).2 = [])
    then inputs (panel w') = inputs (panel w)
    else m_IsSearchGroupRunning (panel w') = false
         ∧ m_LookWhereCurrentFile (panel w') = false in
  (∀ u w', FindSearch control_pressed fuel w = Ok u w' → cleared w')
  ∧ (∀ u w', ReplaceSearch control_pressed fuel w = Ok u w' → cleared w')
  ∧ (∀ u w', ReplaceAllSearch control_pressed w = Ok u w' → cleared w')
  ∧ (∀ u w', CountAllSearch control_pressed w = Ok u w' → cleared w')
  ∧ (∀ u w', ReplaceCurrentSearch fuel w = Ok u w' →
       if bool_decide (current_entries (host w).2 = [])
       then inputs (panel w') = inputs (panel w)
       else m_IsSearchGroupRunning (panel w') = false).
Proof.
  intros cleared. subst cleared. cbn beta.
  split_and!.
  - intros u w' Hrun.
    apply (looping_search control_pressed
             (until_found (Find fuel) 0 (current_entries (host w).2))
             (λ _, mret ())) in Hrun
      as [(Hempty & _ & Hin)|(Hne & Hrunning & Hflag & _)];
      [by rewrite bool_decide_eq_true_2
      |by rewrite bool_decide_eq_false_2|by intros; keeps_ops].
  - intros u w' Hrun.
    apply (looping_search control_pressed
             (until_found (Replace fuel) 0 (current_entries (host w).2))
             (λ _, mret ())) in Hrun
      as [(Hempty & _ & Hin)|(Hne & Hrunning & Hflag & _)];
      [by rewrite bool_decide_eq_true_2
      |by rewrite bool_decide_eq_false_2|by intros; keeps_ops].
  - intros u w' Hrun.
    apply (looping_search control_pressed
             (replace_all 0 (current_entries (host w).2) 0)
             (λ count,
                if bool_decide (count = 0)%Z
                then ShowMessage (lit "No replacements made")
                else ShowMessage (tr_n "Replacements made: " count))) in Hrun
      as [(Hempty & _ & Hin)|(Hne & Hrunning & Hflag & _)];
      [by rewrite bool_decide_eq_true_2
      |by rewrite bool_decide_eq_false_2|by intros; keeps_ops].
  - intros u w' Hrun.
    apply (looping_search control_pressed
             (count_all 0 (current_entries (host w).2) 0)
             (λ count,
                if bool_decide (count = 0)%Z then CannotFindSearchTerm
                else if bool_decide (count > 0)%Z
                     then ShowMessage (tr_n "Matches found: " count)
                else mret ())) in Hrun
      as [(Hempty & _ & Hin)|(Hne & Hrunning & Hflag & _)];
      [by rewrite bool_decide_eq_true_2
      |by rewrite bool_decide_eq_false_2
      |by intros; unfold CannotFindSearchTerm; keeps_ops].
  - intros u w'. unfold ReplaceCurrentSearch.
    intros (editor & w0 & Hget & Hrun)%bind_Ok_inv.
    injection Hget as <- <-. cbn zeta in Hrun.
    destruct (current_entries (host w).2) as [|search_entry rest].
    + rewrite bool_decide_eq_true_2 by done.
      assert (keeps (Env * SearchEditor) inputs snd (λ _, false)
                (ShowMessage (lit "No searches selected"))) as Hkeep
        by keeps_ops.
      specialize (Hkeep w). rewrite Hrun in Hkeep. by destruct Hkeep.
    + rewrite bool_decide_eq_false_2 by done.
      apply bind_Ok_inv in Hrun as (u1 & w1 & H1 & Hrun).
      apply bind_Ok_inv in Hrun as (u2 & w2 & H2 & Hrun).
      apply bind_Ok_inv in Hrun as (found & w3 & H3 & Hrun).
      by injection Hrun as _ <-.
Qed.

(** Two entries run on the small book: without a match anywhere
    [FindSearch] records both entries; with a match in the current file it
    stops at the first entry and records none; [ReplaceAllSearch] records
    both in either book. *)
Example batch_searches_run :
  let entry text :=
    Some {| name := lit "entry"; is_group := false; find := Some (lit text);
            replace := Some (lit "x"); controls := lit "NL AH DN WR" |} in
  let editor :=
    {| current_entries := [entry "foo"; entry "bar"]; completed := [] |} in
  let w m : World (Demo.Book * SearchEditor) :=
    {| panel := Demo.fresh_panel; host := (Demo.book 1 [] m, editor);
       trace := [] |} in
  let recorded (res : Result (Demo.Book * SearchEditor) unit) :=
    match res with
    | Ok _ w' => Some (completed (host w').2)
    | Faulted _ _ => None
    end in
  recorded (FindSearch false 3 (w [0; 0; 0]%Z)) = Some [0; 1]%nat
  ∧ recorded (FindSearch false 3 (w [0; 2; 0]%Z)) = Some []
  ∧ recorded (ReplaceAllSearch false (w [0; 0; 0]%Z)) = Some [0; 1]%nat
  ∧ recorded (ReplaceAllSearch false (w [0; 2; 0]%Z)) = Some [0; 1]%nat.
Proof. by vm_compute. Qed.

Import Tokenise.

Section Tokenise_facts.

Lemma replace_R_replace_newlines text :
  replace_R text = replace_newlines [LF] text.
Proof.
  cut (replace_R text = replace_newlines [LF] text
       ∧ ∀ c, replace_R (c :: text) = replace_newlines [LF] (c :: text));
    [by intros [? _]|].
  induction text as [|d rest [IH1 IH2]].
  { split; [done|]. intros c. simpl. by repeat case_match. }
  split; [apply IH2|]. intros c.
  - specialize (IH2 d).
    change (replace_R (c :: d :: rest))
      with (if bool_decide (c = CR)
            then if bool_decide (d = LF) then LF :: replace_R rest
                 else LF :: replace_R (d :: rest)
            else if is_newline_unit c then LF :: replace_R (d :: rest)
            else c :: replace_R (d :: rest)).
    change (replace_newlines [LF] (c :: d :: rest))
      with (if bool_decide (c = CR)
            then if bool_decide (d = LF)
                 then [LF] ++ replace_newlines [LF] rest
                 else [LF] ++ replace_newlines [LF] (d :: rest)
            else if is_newline_unit c
                 then [LF] ++ replace_newlines [LF] (d :: rest)
            else c :: replace_newlines [LF] (d :: rest)).
    by rewrite IH1, IH2.
Qed.

Lemma close_run_class_free (class : QChar → bool) after run :
  Forall (λ c, class c = false) after →
  Forall (λ c, class c = false) (close_run 1 after run).
Proof.
  intros Hafter. unfold close_run. case_bool_decide as Hlen; [done|].
  destruct run; [done|simpl in Hlen; lia].
Qed.

Lemma replace_runs_class_free (class : QChar → bool) after text run :
  Forall (λ c, class c = false) after →
  Forall (λ c, class c = false) (replace_runs class 1 after run text).
Proof.
  intros Hafter. revert run.
  induction text as [|c rest IH]; intros run; simpl.
  - by apply close_run_class_free.
  - destruct (class c) eqn:Hc; [apply IH|].
    apply Forall_app. split; [by apply close_run_class_free|].
    constructor; [done|apply IH].
Qed.

Lemma no_adjacent_cons class a b text :
  no_adjacent class (a :: b :: text)
  = negb (class a && class b) && no_adjacent class (b :: text).
Proof. done. Qed.

Lemma no_adjacent_tail class a text :
  no_adjacent class (a :: text) = true → no_adjacent class text = true.
Proof.
  destruct text; [done|]. rewrite no_adjacent_cons.
  by intros [_ ?]%andb_true_iff.
Qed.

(** In front of a unit that is not of the class anything may stand. *)
Lemma no_adjacent_free class c a text :
  class a = false →
  no_adjacent class (a :: text) = true →
  no_adjacent class (c :: a :: text) = true.
Proof.
  intros Ha Htext. by rewrite no_adjacent_cons, Ha, andb_false_r.
Qed.

Lemma no_adjacent_free_last class a text :
  class a = false →
  no_adjacent class text = true → no_adjacent class (a :: text) = true.
Proof.
  intros Ha Htext. destruct text; [done|]. by rewrite no_adjacent_cons, Ha.
Qed.

(** So may a piece that holds none of the class, in front of a text
    whatever it begins with. *)
Lemma no_adjacent_app class piece text :
  Forall (λ c, class c = false) piece →
  no_adjacent class text = true →
  no_adjacent class (piece ++ text) = true.
Proof.
  intros Hfree Htext. induction Hfree as [|a piece Ha Hfree IH]; [done|].
  simpl app. by apply no_adjacent_free_last.
Qed.

Lemma no_adjacent_spec class text :
  no_adjacent class text = true ↔
  ∀ pre a b post, text = pre ++ a :: b :: post → class a && class b = false.
Proof.
  split.
  - intros Hno pre. revert text Hno.
    induction pre as [|p pre IH]; intros text Hno a b post ->.
    + simpl app in Hno. rewrite no_adjacent_cons in Hno.
      apply andb_true_iff in Hno as [Hab _].
      by apply negb_true_iff in Hab.
    + apply (IH (pre ++ a :: b :: post)) with post; [|done].
      by apply no_adjacent_tail in Hno.
  - induction text as [|a text IH]; intros Hall; [done|].
    destruct text as [|b text']; [done|].
    rewrite no_adjacent_cons.
    assert (class a && class b = false) as ->
      by (by apply (Hall [] a b text')).
    simpl.
    apply IH. intros pre a' b' post Heq.
    apply (Hall (a :: pre) a' b' post). by rewrite Heq.
Qed.

(** After the replacement of the runs of two or more, no two neighbours
    are of the class. *)
Lemma replace_runs_no_adjacent (class : QChar → bool) after text :
  Forall (λ c, class c = false) after →
  ∀ run, no_adjacent class (replace_runs class 2 after run text) = true.
Proof.
  intros Hafter.
  assert (∀ run text', no_adjacent class text' = true →
            match text' with
            | [] => True
            | c :: _ => class c = false
            end →
            no_adjacent class (close_run 2 after run ++ text') = true)
    as Hclose.
  { intros run text' Htext Hhead. unfold close_run.
    case_bool_decide as Hlen; [by apply no_adjacent_app|].
    destruct run as [|a [|b run']]; [done| |simpl in Hlen; lia].
    destruct text' as [|c text'']; [done|].
    simpl app. by apply no_adjacent_free. }
  induction text as [|c rest IH]; intros run; simpl.
  - rewrite <-(app_nil_r (close_run 2 after run)). by apply Hclose.
  - destruct (class c) eqn:Hc; [apply IH|].
    apply Hclose; [|done]. apply no_adjacent_free_last; [done|apply IH].
Qed.

(** The replacement of the runs of a second class by a piece that holds
    none of the first class brings no two of the first class together. *)
Lemma replace_runs_keeps_no_adjacent (class digit : QChar → bool) after :
  Forall (λ c, class c = false) after → after ≠ [] →
  ∀ text,
    (∀ run c, run ≠ [] → no_adjacent class text = true →
       no_adjacent class (c :: replace_runs digit 1 after run text) = true)
    ∧ (∀ c, no_adjacent class (c :: text) = true →
         no_adjacent class (c :: replace_runs digit 1 after [] text) = true).
Proof.
  intros Hafter Hne.
  assert (∀ run, run ≠ [] → close_run 1 after run = after) as Hclose.
  { intros [|? ?] ?; [done|]. unfold close_run.
    rewrite bool_decide_eq_true_2; [done|simpl; lia]. }
  assert (∀ c text, no_adjacent class text = true →
            no_adjacent class (c :: after ++ text) = true) as Hfront.
  { intros c text Htext. destruct after as [|a after']; [done|].
    apply Forall_cons in Hafter as [Ha Hafter]. simpl app.
    apply no_adjacent_free; [done|]. apply no_adjacent_free_last; [done|].
    by apply no_adjacent_app. }
  induction text as [|d rest [IHa IHb]]; split.
  - intros run c Hrun _. simpl. rewrite Hclose by done.
    rewrite <-(app_nil_r after). by apply Hfront.
  - done.
  - intros run c Hrun Htext. cbn [replace_runs]. destruct (digit d) eqn:Hd.
    + apply IHa; [by destruct run|]. by apply no_adjacent_tail in Htext.
    + rewrite Hclose by done. apply Hfront. by apply IHb.
  - intros c Htext. cbn [replace_runs]. destruct (digit d) eqn:Hd.
    + apply IHa; [done|]. by do 2 apply no_adjacent_tail in Htext.
    + change (close_run 1 after []) with (@nil QChar). simpl app.
      rewrite no_adjacent_cons in Htext.
      apply andb_true_iff in Htext as [Hcd Htext].
      rewrite no_adjacent_cons, Hcd. simpl. by apply IHb.
Qed.

(** *** Texts that are already plain *)

Lemma replace_newlines_none after text :
  Forall (λ c, is_newline_unit c = false) text →
  replace_newlines after text = text.
Proof.
  induction 1 as [|c rest Hc _ IH]; [done|]. simpl.
  rewrite Hc, IH. case_bool_decide as Hcr; [|done].
  by subst c.
Qed.

Lemma replace_escaped_other c after a text :
  a ≠ backslash →
  replace_escaped c after (a :: text) = a :: replace_escaped c after text.
Proof.
  intros Ha. simpl. destruct text; [done|].
  by rewrite (bool_decide_eq_false_2 (a = backslash)).
Qed.

Lemma replace_escaped_none c after text :
  backslash ∉ text → replace_escaped c after text = text.
Proof.
  induction text as [|a rest IH]; [done|].
  intros [Ha Hrest]%not_elem_of_cons.
  rewrite replace_escaped_other by done. by rewrite IH.
Qed.

Lemma contains_unit_false text c :
  c ∉ text → contains text [c] = false.
Proof.
  induction text as [|a rest IH]; [done|].
  intros [Ha Hrest]%not_elem_of_cons. simpl.
  rewrite (bool_decide_eq_false_2 (c = a)) by done. simpl. by apply IH.
Qed.

Lemma replace_runs_none (class : QChar → bool) least after text :
  (0 < least)%nat →
  Forall (λ c, class c = false) text →
  replace_runs class least after [] text = text.
Proof.
  intros Hleast Hall.
  assert (close_run least after [] = []) as Hclose.
  { unfold close_run. rewrite bool_decide_eq_false_2; [done|simpl; lia]. }
  induction Hall as [|c rest Hc _ IH]; simpl; [done|].
  by rewrite Hc, IH, Hclose.
Qed.

Lemma replace_runs_single (class : QChar → bool) after text run :
  (length run ≤ 1)%nat → Forall (λ c, class c = true) run →
  no_adjacent class (run ++ text) = true →
  replace_runs class 2 after run text = run ++ text.
Proof.
  revert run. induction text as [|c rest IH]; intros run Hlen Hrun Hno.
  - simpl. unfold close_run.
    rewrite bool_decide_eq_false_2 by lia. by rewrite app_nil_r.
  - cbn [replace_runs]. destruct (class c) eqn:Hc.
    + destruct run as [|s [|? ?]]; [|exfalso|simpl in Hlen; lia].
      * apply (IH [c]); [done|by constructor|done].
      * apply Forall_cons in Hrun as [Hs _]. simpl app in Hno.
        rewrite no_adjacent_cons, Hs, Hc in Hno. done.
    + unfold close_run. rewrite bool_decide_eq_false_2 by lia.
      f_equal. f_equal. apply (IH []); [simpl; lia|done|].
      clear -Hno. induction run as [|s run IH]; simpl app in Hno.
      * by apply no_adjacent_tail in Hno.
      * apply IH. by apply no_adjacent_tail in Hno.
Qed.

Lemma with_backslashes_ext (P Q : QChar → bool) text :
  (∀ c, c ∈ text → P c = Q c) →
  with_backslashes P text = with_backslashes Q text.
Proof.
  induction text as [|a rest IH]; [done|]. intros Hext.
  unfold with_backslashes. simpl.
  rewrite (Hext a) by left. f_equal.
  apply IH. intros c Hc. apply Hext. by right.
Qed.

Lemma with_backslashes_none text :
  with_backslashes (λ _, false) text = text.
Proof.
  induction text as [|a rest IH]; [done|].
  unfold with_backslashes in *. simpl. by rewrite IH.
Qed.

Lemma replace_escaped_pair c after a b rest :
  replace_escaped c after (a :: b :: rest)
  = if bool_decide (a = backslash) && bool_decide (b = c)
    then after ++ replace_escaped c after rest
    else a :: replace_escaped c after (b :: rest).
Proof. done. Qed.

(** One restoring replacement takes the backslash from the one unit. *)
Lemma replace_escaped_with_backslashes (x : QChar) (P : QChar → bool) text :
  backslash ∉ text →
  replace_escaped x [x] (with_backslashes P text)
  = with_backslashes (λ c, P c && negb (bool_decide (c = x))) text.
Proof.
  induction text as [|a rest IH]; [done|].
  intros [Ha Hrest]%not_elem_of_cons. specialize (IH Hrest).
  unfold with_backslashes in *. cbn [flat_map].
  destruct (P a) eqn:HP; cbn [andb].
  - cbn [app]. rewrite replace_escaped_pair.
    rewrite (bool_decide_eq_true_2 (backslash = backslash)) by done.
    cbn [andb]. case_bool_decide as Hax; cbn [negb].
    + subst a. by rewrite IH.
    + by rewrite replace_escaped_other, IH.
  - cbn [app]. by rewrite replace_escaped_other, IH.
Qed.

Lemma plain_unit c :
  is_letter c || is_restored c = true →
  c ≠ backslash ∧ c ≠ 0%N ∧ is_newline_unit c = false
  ∧ is_digit_unit c = false ∧ isHighSurrogate c = false
  ∧ is_word_unit c = negb (is_restored c).
Proof.
  unfold is_letter, is_restored, is_newline_unit, is_digit_unit,
    isHighSurrogate, is_word_unit, backslash.
  intros [Hl%bool_decide_eq_true|Hr%bool_decide_eq_true]%orb_true_iff.
  - assert (c ∉ lit " <>/;:&=") as Hnot.
    { intros Hin. vm_compute in Hin.
      repeat (apply elem_of_cons in Hin as [->|Hin]; [lia|]).
      by apply elem_of_nil in Hin. }
    rewrite (bool_decide_eq_false_2 (c ∈ _)) by done.
    split_and!; try lia; try (apply bool_decide_eq_false_2; lia).
    apply bool_decide_eq_true_2. lia.
  - rewrite (bool_decide_eq_true_2 (c ∈ _)) by done.
    vm_compute in Hr.
    repeat (apply elem_of_cons in Hr as [->|Hr]; [by split_and!|]).
    by apply elem_of_nil in Hr.
Qed.

Lemma escape_plain text :
  Forall (λ c, is_letter c || is_restored c = true) text →
  escape text = with_backslashes is_restored text.
Proof.
  induction 1 as [|c rest Hc _ IH]; [done|].
  destruct (plain_unit c Hc) as (_ & H0 & _ & _ & Hs & Hw).
  unfold with_backslashes in *. cbn [escape flat_map].
  rewrite (bool_decide_eq_false_2 (c = 0%N)), Hw, Hs, IH by done.
  by destruct (is_restored c).
Qed.

End Tokenise_facts.

(** X24: whatever the text, two white-space characters never stand side
    by side in what [TokeniseForRegex] returns, and with [includeNumerics]
    no digit is left in it: the runs have become [\s+] and [\d+]. *)
Theorem TokeniseForRegex_runs_replaced (text : QString) :
  (∀ c, c ∈ TokeniseForRegex text true → is_digit_unit c = false)
  ∧ (∀ includeNumerics pre a b post,
       TokeniseForRegex text includeNumerics = pre ++ a :: b :: post →
       is_space_unit a && is_space_unit b = false).
Proof.
  unfold TokeniseForRegex. cbn zeta.
  match goal with
  | |- context [replace_runs is_space_unit 2 _ [] ?t] =>
      generalize t; intros restored
  end.
  split.
  - apply Forall_forall, replace_runs_class_free.
    by apply (bool_decide_unpack _).
  - intros includeNumerics.
    apply no_adjacent_spec.
    assert (no_adjacent is_space_unit
              (replace_runs is_space_unit 2 (backslash :: lit "s+") []
                 restored) = true) as Hspaces
      by (apply replace_runs_no_adjacent; by apply (bool_decide_unpack _)).
    destruct includeNumerics; [|done].
    apply (no_adjacent_tail is_space_unit 0%N).
    apply (replace_runs_keeps_no_adjacent is_space_unit is_digit_unit
             (backslash :: lit "d+")); [by apply (bool_decide_unpack _)|done|].
    by apply no_adjacent_free_last.
Qed.

(** X25: a text of letters, underscores and the characters
    [TokeniseForRegex] restores (space, [<], [>], [/], [;], [:], [&], [=]),
    with no two spaces side by side, comes back as it is: the restoring
    replacements take away every backslash [QRegularExpression::escape]
    puts in. *)
Theorem TokeniseForRegex_plain_text
    (text : QString) (includeNumerics : bool) :
  Forall (λ c, is_letter c || is_restored c = true) text →
  no_adjacent is_space_unit text = true →
  TokeniseForRegex text includeNumerics = text.
Proof.
  intros Hplain Hspaces.
  assert (backslash ∉ text) as Hno.
  { intros Hin. rewrite Forall_forall in Hplain.
    by destruct (plain_unit _ (Hplain _ Hin)) as (? & _). }
  unfold TokeniseForRegex. cbn zeta.
  rewrite replace_newlines_none
    by (eapply Forall_impl; [exact Hplain|];
        intros c Hc; by destruct (plain_unit c Hc) as (_ & _ & ? & _)).
  rewrite (replace_escaped_none (chr "t") _ text) by done.
  rewrite contains_unit_false by done. cbn [negb].
  rewrite escape_plain by done.
  change (lit " ") with [chr " "]. change (lit "<") with [chr "<"].
  change (lit ">") with [chr ">"]. change (lit "/") with [chr "/"].
  change (lit ";") with [chr ";"]. change (lit ":") with [chr ":"].
  change (lit "&") with [chr "&"]. change (lit "=") with [chr "="].
  rewrite !replace_escaped_with_backslashes by done.
  rewrite (with_backslashes_ext _ (λ _, false)), with_backslashes_none.
  - rewrite (replace_runs_single is_space_unit _ text [])
      by first [done|simpl; lia].
    destruct includeNumerics; [|done].
    apply replace_runs_none; [lia|].
    eapply Forall_impl; [exact Hplain|].
    intros c Hc. by destruct (plain_unit c Hc) as (_ & _ & _ & ? & _).
  - intros c _. unfold is_restored.
    case_bool_decide as Hin; [|done]. vm_compute in Hin.
    repeat (apply elem_of_cons in Hin as [->|Hin]; [done|]).
    by apply elem_of_nil in Hin.
Qed.

Lemma TokeniseForRegex_plain_text_witness :
  TokeniseForRegex (lit "<p class=x> a; b") true = lit "<p class=x> a; b".
Proof.
  apply TokeniseForRegex_plain_text.
  - by apply (bool_decide_unpack _).
  - reflexivity.
Defined.

(** The first replacement of [TokeniseForRegex] is for the two characters
    backslash and [t], not for a tab: a tab is escaped as any other
    character, and [\t] in a text ends up as [\s+]. *)
Example TokeniseForRegex_tab :
  TokeniseForRegex [chr "a"; 9%N; chr "b"] true
  = [chr "a"; backslash; 9%N; chr "b"]
  ∧ TokeniseForRegex (chr "a" :: backslash :: lit "tb") true
    = chr "a" :: backslash :: lit "s+b".
Proof. by vm_compute. Qed.
